(** * Substep scheduling, buffer swap and stable-timestep reduction of
      [GPUSimulators/EE2D_KP07_dimsplit.py]

    A shallow embedding of the host-side logic of the class
    [EE2D_KP07_dimsplit]: the region scheduler [substepDimsplit], the
    half-step wrapper [substep], the buffer swap, and the reduction
    [min_hipblas] / [computeDt].

    The HIP runtime is outside the program.  It is modelled by a device
    state (live allocations, live streams, and the sequence of host calls
    issued so far) and by a [Runtime] that supplies what the program cannot
    decide: the status code of every call and the effect of the opaque
    compute kernel on device buffers.  Host code runs in a state-and-error
    monad over the device state.

    Single-precision values are represented by the rational numbers they
    denote; rounding is not modelled. *)

From Stdlib Require Import ZArith QArith Qabs List Bool Lia.
From stdpp Require Import base gmap strings.
Import ListNotations.
Open Scope Z_scope.

(** ** ctypes marshalling *)

Module ctypes.

(** [ctypes.c_int(v)]: the object built from the Python integer [v]. *)
Inductive c_int_t : Type := c_int (v : Z).

(** [.value]: the C [int] the kernel receives; a Python integer outside
    the 32-bit range is reduced modulo 2^32. *)
Definition value (c : c_int_t) : Z :=
  match c with c_int v => (v + 2 ^ 31) mod 2 ^ 32 - 2 ^ 31 end.

Definition int_range (v : Z) : Prop := - 2 ^ 31 <= v < 2 ^ 31.

(** [ctypes.c_float(v)]: the value handed to the kernel as a C [float].
    The constructor records the value being marshalled. *)
Inductive c_float_t : Type := c_float (v : Q).

End ctypes.
Import ctypes.

(** ** The HIP runtime as seen from the host

    hip-python is an external library.  Each call the program makes is
    modelled by its documented contract: the status it returns, the
    resources it creates or releases, and the data it moves. *)

Definition hipStream_t := N.
Definition devptr := N.
Definition dim3 : Type := Z * Z * Z.

Inductive hipError_t := hipSuccess | hipErrorCode (code : positive).
Inductive hiprtcResult := HIPRTC_SUCCESS | hiprtcErrorCode (code : positive).
Inductive hipblasStatus_t := HIPBLAS_STATUS_SUCCESS | hipblasStatusCode (code : positive).

(** First component of the tuple every hip-python call returns. *)
Inductive status :=
| of_hip (e : hipError_t)
| of_hiprtc (r : hiprtcResult)
| of_hipblas (s : hipblasStatus_t).

(** The ordered parameter tuple [extra] of a kernel launch. *)
Record KernelArgs := {
  a_nx : c_int_t; a_ny : c_int_t;
  a_dx : c_float_t; a_dy : c_float_t; a_dt : c_float_t;
  a_g : c_float_t;
  a_gamma : c_float_t;
  a_theta : c_float_t;
  a_substep : c_int_t;
  a_boundary_conditions : c_int_t;
  a_u0 : list (devptr * c_int_t);  (* four (pointer, stride) pairs, read *)
  a_u1 : list (devptr * c_int_t);  (* four (pointer, stride) pairs, written *)
  a_cfl_data : devptr;
  a_x0 : c_int_t; a_y0 : c_int_t;
  a_x1 : c_int_t; a_y1 : c_int_t
}.

Inductive hipMemcpyKind := hipMemcpyHostToDevice | hipMemcpyDeviceToHost.

(** Host arrays that [min_hipblas] copies into. *)
Inductive HostArray := indx_h | x_temp.

(** Host actions, in the order the host performs them. *)
Inductive Event :=
| EMalloc (size : Z)
| ELaunch (gridDim blockDim : dim3) (sharedMemBytes : Z)
          (stream : hipStream_t) (extra : KernelArgs)
| ESync (stream : hipStream_t)
| EBlasCreate
| EIsamin (n : Z) (x : devptr) (incx : Z) (result : devptr)
| EBlasDestroy
| EMemcpyAsync (dst : HostArray) (src : devptr) (sizeBytes : Z)
               (kind : hipMemcpyKind) (stream : hipStream_t)
| EStreamDestroy (stream : hipStream_t)
| EFree (ptr : devptr)
| EGetitem (arr : HostArray) (index : Z)
  (** a warning or log record written by host code *)
| EWarn.

(** Contents of a device allocation. *)
Inductive Buffer :=
| Uninit
| Floats (xs : list Q)
| Ints (xs : list Z).

Record Device := {
  mem : gmap devptr Buffer;      (* live allocations *)
  streams : gset hipStream_t;    (* live streams *)
  trace : list Event             (* host actions so far, oldest first *)
}.

(** What the program cannot decide. *)
Record Runtime := {
  hip_verdict : list Event -> Event -> hipError_t;
  hipblas_verdict : list Event -> Event -> hipblasStatus_t;
  (** new contents of the live buffer at a pointer after one launch of the
      opaque kernel [KP07DimsplitKernel] *)
  KP07DimsplitKernel :
    dim3 -> dim3 -> KernelArgs -> gmap devptr Buffer -> devptr -> Buffer -> Buffer
}.

Definition fault_free (rt : Runtime) : Prop :=
  forall h ev, hip_verdict rt h ev = hipSuccess /\
               hipblas_verdict rt h ev = HIPBLAS_STATUS_SUCCESS.

(** ** Outcomes and the host monad *)

Inductive Exn :=
| RuntimeError (err : status)
| IndexError.

Inductive Outcome (A : Type) :=
| Returns (a : A) (d : Device)
| Raises (e : Exn) (d : Device)
  (** the last call issued names a released resource or reads memory that
      holds no value of the expected kind; HIP leaves the rest undefined *)
| Undefined (d : Device).
Arguments Returns {A} a d.
Arguments Raises {A} e d.
Arguments Undefined {A} d.

Definition M (A : Type) : Type := Device -> Outcome A.

#[export] Instance M_ret : MRet M := fun A a d => Returns a d.

#[export] Instance M_bind : MBind M := fun A B k m d =>
  match m d with
  | Returns a d' => k a d'
  | Raises e d' => Raises e d'
  | Undefined d' => Undefined d'
  end.

Definition raise {A} (e : Exn) : M A := fun d => Raises e d.

Definition final {A} (o : Outcome A) : Device :=
  match o with
  | Returns _ d => d
  | Raises _ d => d
  | Undefined d => d
  end.

(** The host actions an outcome adds to those of the starting state. *)
Definition issued {A} (d : Device) (o : Outcome A) : list Event :=
  drop (length (trace d)) (trace (final o)).

Definition log (ev : Event) (d : Device) : Device :=
  {| mem := mem d; streams := streams d; trace := trace d ++ [ev] |}.

Definition set_mem (m : gmap devptr Buffer) (d : Device) : Device :=
  {| mem := m; streams := streams d; trace := trace d |}.

Definition set_streams (s : gset hipStream_t) (d : Device) : Device :=
  {| mem := mem d; streams := s; trace := trace d |}.

Definition live_stream (d : Device) (s : hipStream_t) : bool :=
  bool_decide (s ∈ streams d).

Definition live_ptr (d : Device) (p : devptr) : bool :=
  bool_decide (is_Some (mem d !! p)).

Definition pointers (a : KernelArgs) : list devptr :=
  map fst (a_u0 a) ++ map fst (a_u1 a) ++ [a_cfl_data a].

(** Does the call name a destroyed stream or a pointer that is not a live
    allocation? *)
Definition names_released (d : Device) (ev : Event) : bool :=
  match ev with
  | ELaunch _ _ _ s a => negb (live_stream d s) || negb (forallb (live_ptr d) (pointers a))
  | ESync s => negb (live_stream d s)
  | EIsamin _ x _ r => negb (live_ptr d x) || negb (live_ptr d r)
  | EMemcpyAsync _ src _ _ s => negb (live_stream d s) || negb (live_ptr d src)
  | EStreamDestroy s => negb (live_stream d s)
  | EFree p => negb (live_ptr d p)
  | EMalloc _ | EBlasCreate | EBlasDestroy | EGetitem _ _ | EWarn => false
  end.

(** [hip_check]: only a [hipError_t] or a [hiprtcResult] that is not the
    success code raises; any other first component (a hipBLAS status
    among them) lets the result through. *)
Definition hip_check {A} (call_result : status * A) : M A :=
  let err := call_result.1 in
  let result := call_result.2 in
  match err with
  | of_hip hipSuccess => mret result
  | of_hip _ => raise (RuntimeError err)
  | of_hiprtc HIPRTC_SUCCESS => mret result
  | of_hiprtc _ => raise (RuntimeError err)
  | of_hipblas _ => mret result
  end.

(** *** BLAS [i?amin] *)

(** Position (0-based) of the first element of least magnitude, scanning
    [xs] from position [i] with the best magnitude so far at [besti]. *)
Fixpoint amin_scan (best : Q) (besti i : nat) (xs : list Q) : nat :=
  match xs with
  | [] => besti
  | x :: xs' =>
      if Qle_bool best (Qabs x) then amin_scan best besti (S i) xs'
      else amin_scan (Qabs x) i (S i) xs'
  end.

(** The [n] elements [x[0], x[incx], ..., x[(n-1)*incx]]; [None] when one
    of them lies past the end of the buffer. *)
Definition gather (n incx : nat) (xs : list Q) : option (list Q) :=
  mapM (fun i => xs !! (i * incx)%nat) (seq 0 n).

(** 1-based index of the first element of minimum absolute value; 0 when
    [n <= 0] or [incx <= 0]. *)
Definition isamin (n : Z) (xs : list Q) (incx : Z) : option Z :=
  if (n <=? 0) || (incx <=? 0) then Some 0
  else match gather (Z.to_nat n) (Z.to_nat incx) xs with
       | Some (x :: ys) => Some (Z.of_nat (S (amin_scan (Qabs x) 0 1 ys)))
       | Some [] => Some 0
       | None => None
       end.

Module hip.
Section api.
Context (rt : Runtime).

Definition hipMalloc (size : Z) : M (status * devptr) := fun d =>
  let ev := EMalloc size in
  let err := hip_verdict rt (trace d) ev in
  let p := fresh (dom (mem d)) in
  match err with
  | hipSuccess => Returns (of_hip err, p) (log ev (set_mem (<[p := Uninit]> (mem d)) d))
  | _ => Returns (of_hip err, p) (log ev d)
  end.

(** One launch rewrites the contents of the live buffers; it neither
    allocates nor frees. *)
Definition launch_effect (gridDim blockDim : dim3) (extra : KernelArgs)
    (m : gmap devptr Buffer) : gmap devptr Buffer :=
  map_imap (fun p old => Some (KP07DimsplitKernel rt gridDim blockDim extra m p old)) m.

(** [hipModuleLaunchKernel(self.kernel, *grid, *block, sharedMemBytes,
    stream, None, extra)]. *)
Definition hipModuleLaunchKernel (gridDim blockDim : dim3) (sharedMemBytes : Z)
    (stream : hipStream_t) (extra : KernelArgs) : M (status * unit) := fun d =>
  let ev := ELaunch gridDim blockDim sharedMemBytes stream extra in
  if names_released d ev then Undefined (log ev d) else
  let err := hip_verdict rt (trace d) ev in
  match err with
  | hipSuccess =>
      Returns (of_hip err, tt)
              (log ev (set_mem (launch_effect gridDim blockDim extra (mem d)) d))
  | _ => Returns (of_hip err, tt) (log ev d)
  end.

Definition hipStreamSynchronize (stream : hipStream_t) : M (status * unit) := fun d =>
  let ev := ESync stream in
  if names_released d ev then Undefined (log ev d) else
  Returns (of_hip (hip_verdict rt (trace d) ev), tt) (log ev d).

Definition hipStreamDestroy (stream : hipStream_t) : M (status * unit) := fun d =>
  let ev := EStreamDestroy stream in
  if names_released d ev then Undefined (log ev d) else
  let err := hip_verdict rt (trace d) ev in
  match err with
  | hipSuccess => Returns (of_hip err, tt) (log ev (set_streams (streams d ∖ {[stream]}) d))
  | _ => Returns (of_hip err, tt) (log ev d)
  end.

Definition hipFree (ptr : devptr) : M (status * unit) := fun d =>
  let ev := EFree ptr in
  if names_released d ev then Undefined (log ev d) else
  let err := hip_verdict rt (trace d) ev in
  match err with
  | hipSuccess => Returns (of_hip err, tt) (log ev (set_mem (delete ptr (mem d)) d))
  | _ => Returns (of_hip err, tt) (log ev d)
  end.

(** [hipMemcpyAsync(dst, src, sizeBytes, hipMemcpyDeviceToHost, stream)]
    into a one-element [int32] host array; the result is the array after
    the copy. *)
Definition hipMemcpyAsync_int32 (dst : HostArray) (dst_old : Z) (src : devptr)
    (sizeBytes : Z) (stream : hipStream_t) : M (status * Z) := fun d =>
  let ev := EMemcpyAsync dst src sizeBytes hipMemcpyDeviceToHost stream in
  if names_released d ev then Undefined (log ev d) else
  let err := hip_verdict rt (trace d) ev in
  match err with
  | hipSuccess =>
      match mem d !! src with
      | Some (Ints (i :: _)) => Returns (of_hip err, i) (log ev d)
      | _ => Undefined (log ev d)
      end
  | _ => Returns (of_hip err, dst_old) (log ev d)
  end.

(** The same call into a [float32] host array of [sizeBytes / 4] elements. *)
Definition hipMemcpyAsync_float32 (dst : HostArray) (dst_old : list Q) (src : devptr)
    (sizeBytes : Z) (stream : hipStream_t) : M (status * list Q) := fun d =>
  let ev := EMemcpyAsync dst src sizeBytes hipMemcpyDeviceToHost stream in
  if names_released d ev then Undefined (log ev d) else
  let err := hip_verdict rt (trace d) ev in
  match err with
  | hipSuccess =>
      match mem d !! src with
      | Some (Floats xs) =>
          let count := Z.to_nat (sizeBytes / 4) in
          if (count <=? length xs)%nat
          then Returns (of_hip err, take count xs) (log ev d)
          else Undefined (log ev d)
      | _ => Undefined (log ev d)
      end
  | _ => Returns (of_hip err, dst_old) (log ev d)
  end.

End api.
End hip.

Module hipblas.
Section api.
Context (rt : Runtime).

Definition hipblasCreate : M (status * unit) := fun d =>
  let ev := EBlasCreate in
  Returns (of_hipblas (hipblas_verdict rt (trace d) ev), tt) (log ev d).

Definition hipblasDestroy (handle : unit) : M (status * unit) := fun d =>
  let ev := EBlasDestroy in
  Returns (of_hipblas (hipblas_verdict rt (trace d) ev), tt) (log ev d).

(** On success the index found is stored in the device word [result]. *)
Definition hipblasIsamin (handle : unit) (n : Z) (x : devptr) (incx : Z)
    (result : devptr) : M (status * unit) := fun d =>
  let ev := EIsamin n x incx result in
  if names_released d ev then Undefined (log ev d) else
  let st := hipblas_verdict rt (trace d) ev in
  match st with
  | HIPBLAS_STATUS_SUCCESS =>
      match mem d !! x with
      | Some (Floats xs) =>
          match isamin n xs incx with
          | Some i => Returns (of_hipblas st, tt)
                              (log ev (set_mem (<[result := Ints [i]]> (mem d)) d))
          | None => Undefined (log ev d)
          end
      | _ => Undefined (log ev d)
      end
  | _ => Returns (of_hipblas st, tt) (log ev d)
  end.

End api.
End hipblas.

(** ** The simulator object *)

(** Modelled from the spec: [Common.CudaArray2D], the class of one grid
    variable of a field set ([self.u0[k]]), is not among the sources.  The
    program reads from it the device array [data], the first extent
    [data.shape[0]] of that array, and the halo widths [x_halo], [y_halo]
    ("each sharing (nx, ny, x_halo, y_halo)"). *)
Record CudaArray2D := {
  data : devptr;
  shape0 : Z;
  x_halo : Z;
  y_halo : Z
}.

(** Modelled from the spec: [Common.ArakawaA2D] is not among the sources.
    "An ordered collection of exactly 4 named 2D arrays {density,
    momentum_x, momentum_y, energy}"; [self.u0[k]] is component [k]. *)
Record ArakawaA2D := {
  var0 : CudaArray2D;
  var1 : CudaArray2D;
  var2 : CudaArray2D;
  var3 : CudaArray2D
}.

(** [hip.hipMalloc(..).configure(typestr, shape)]: a device pointer and
    its number of elements ([size], the product of the shape). *)
Record DeviceArray := {
  ptr : devptr;
  size : Z
}.

(** The attributes of [self] the methods read.  Modelled from the spec:
    [nx], [ny], [dx], [dy], [boundary_conditions], [grid_size],
    [block_size], [stream] and [internal_stream] are set by
    [BaseSimulator.__init__], which is not among the sources ("grid
    geometry", "one of exactly two ordered execution queues"); [g],
    [gamma], [theta], [u0], [u1] and [cfl_data] are set by [__init__]. *)
Record Simulator := {
  nx : Z; ny : Z;
  dx : Q; dy : Q;
  g : Q; gamma : Q; theta : Q;
  boundary_conditions : Z;
  grid_size : dim3;
  block_size : dim3;
  stream : hipStream_t;
  internal_stream : hipStream_t;
  u0 : ArakawaA2D;
  u1 : ArakawaA2D;
  cfl_data : DeviceArray
}.

(** [np.float32().itemsize] *)
Definition itemsize : Z := 4.

Definition with_buffers (self : Simulator) (a b : ArakawaA2D) : Simulator :=
  {| nx := nx self; ny := ny self; dx := dx self; dy := dy self;
     g := g self; gamma := gamma self; theta := theta self;
     boundary_conditions := boundary_conditions self;
     grid_size := grid_size self; block_size := block_size self;
     stream := stream self; internal_stream := internal_stream self;
     u0 := a; u1 := b; cfl_data := cfl_data self |}.

Module EE2D_KP07_dimsplit.
Section methods.
Context (rt : Runtime).

(** The tuple [extra] that every launch of [substepDimsplit] builds; the
    launches differ in the last four entries only. *)
Definition extra (self : Simulator) (dt : Q) (substep : Z) (x0 y0 x1 y1 : Z)
    : KernelArgs :=
  let u00_strides0 := shape0 (var0 (u0 self)) * itemsize in
  let u01_strides0 := shape0 (var1 (u0 self)) * itemsize in
  let u02_strides0 := shape0 (var2 (u0 self)) * itemsize in
  let u03_strides0 := shape0 (var3 (u0 self)) * itemsize in
  let u10_strides0 := shape0 (var0 (u1 self)) * itemsize in
  let u11_strides0 := shape0 (var1 (u1 self)) * itemsize in
  let u12_strides0 := shape0 (var2 (u1 self)) * itemsize in
  let u13_strides0 := shape0 (var3 (u1 self)) * itemsize in
  {| a_nx := c_int (nx self); a_ny := c_int (ny self);
     a_dx := c_float (dx self); a_dy := c_float (dy self); a_dt := c_float dt;
     a_g := c_float (g self);
     a_gamma := c_float (gamma self);
     a_theta := c_float (theta self);
     a_substep := c_int substep;
     a_boundary_conditions := c_int (boundary_conditions self);
     a_u0 := [ (data (var0 (u0 self)), c_int u00_strides0);
               (data (var1 (u0 self)), c_int u01_strides0);
               (data (var2 (u0 self)), c_int u02_strides0);
               (data (var3 (u0 self)), c_int u03_strides0) ];
     a_u1 := [ (data (var0 (u1 self)), c_int u10_strides0);
               (data (var1 (u1 self)), c_int u11_strides0);
               (data (var2 (u1 self)), c_int u12_strides0);
               (data (var3 (u1 self)), c_int u13_strides0) ];
     a_cfl_data := ptr (cfl_data self);
     a_x0 := c_int x0; a_y0 := c_int y0;
     a_x1 := c_int x1; a_y1 := c_int y1 |}.

Definition substepDimsplit (self : Simulator) (dt : Q) (substep : Z)
    (external internal : bool) : M unit :=
  if external && internal then
    (* full rectangle, primary stream *)
    hip.hipModuleLaunchKernel rt (grid_size self) (block_size self) 0 (stream self)
      (extra self dt substep 0 0 (nx self) (ny self)) ≫= hip_check ;;
    mret tt
  else if external && negb internal then
    let ns_grid_size := ((grid_size self).1.1, 1, 1) in
    (* NORTH  (0, ny - y_halo) x (nx, ny) *)
    hip.hipModuleLaunchKernel rt ns_grid_size (block_size self) 0 (stream self)
      (extra self dt substep
         0 (ny self - y_halo (var0 (u0 self)))
         (nx self) (ny self)) ≫= hip_check ;;
    hip.hipStreamSynchronize rt (stream self) ≫= hip_check ;;
    (* SOUTH  (0, 0) x (nx, y_halo) *)
    hip.hipModuleLaunchKernel rt ns_grid_size (block_size self) 0 (stream self)
      (extra self dt substep
         0 0
         (nx self) (y_halo (var0 (u0 self)))) ≫= hip_check ;;
    hip.hipStreamSynchronize rt (stream self) ≫= hip_check ;;
    let we_grid_size := (1, (grid_size self).1.2, 1) in
    (* WEST  (0, 0) x (x_halo, ny) *)
    hip.hipModuleLaunchKernel rt we_grid_size (block_size self) 0 (stream self)
      (extra self dt substep
         0 0
         (x_halo (var0 (u0 self))) (ny self)) ≫= hip_check ;;
    hip.hipStreamSynchronize rt (stream self) ≫= hip_check ;;
    (* EAST  (nx - x_halo, 0) x (nx, ny) *)
    hip.hipModuleLaunchKernel rt we_grid_size (block_size self) 0 (stream self)
      (extra self dt substep
         (nx self - x_halo (var0 (u0 self))) 0
         (nx self) (ny self)) ≫= hip_check ;;
    mret tt
  else if internal && negb external then
    (* INTERNAL DOMAIN  (x_halo, y_halo) x (nx - x_halo, ny - y_halo) *)
    hip.hipModuleLaunchKernel rt (grid_size self) (block_size self) 0
      (internal_stream self)
      (extra self dt substep
         (x_halo (var0 (u0 self))) (y_halo (var0 (u0 self)))
         (nx self - x_halo (var0 (u0 self))) (ny self - y_halo (var0 (u0 self))))
      ≫= hip_check ;;
    mret tt
  else
    mret tt.

Definition substep (self : Simulator) (dt : Q) (step_number : Z)
    (external internal : bool) : M unit :=
  substepDimsplit self ((1 # 2) * dt)%Q step_number external internal.

Definition swapBuffers (self : Simulator) : Simulator :=
  with_buffers self (u1 self) (u0 self).

Definition getOutput (self : Simulator) : ArakawaA2D := u0 self.

(** [arr.flatten()[i]] on a host array, with Python's negative indices. *)
Definition getitem (arr : HostArray) (xs : list Q) (i : Z) : M Q := fun d =>
  let d' := log (EGetitem arr i) d in
  let n := Z.of_nat (length xs) in
  let j := if i <? 0 then i + n else i in
  if (0 <=? j) && (j <? n) then
    match xs !! Z.to_nat j with
    | Some v => Returns v d'
    | None => Raises IndexError d'
    end
  else Raises IndexError d'.

Definition min_hipblas (self : Simulator) (num_elements : Z) (cfl_data : devptr)
    (stream : hipStream_t) : M Q :=
  let num_bytes := num_elements * itemsize in
  let num_bytes_i := itemsize in
  indx_d ← hip.hipMalloc rt num_bytes_i ≫= hip_check ;
  let indx_h0 := 0 in
  let x_temp0 := replicate (Z.to_nat num_elements) 0%Q in
  handle ← hipblas.hipblasCreate rt ≫= hip_check ;
  hipblas.hipblasIsamin rt handle num_elements cfl_data 1 indx_d ≫= hip_check ;;
  hipblas.hipblasDestroy rt handle ≫= hip_check ;;
  indx ← hip.hipMemcpyAsync_int32 rt indx_h indx_h0 indx_d num_bytes_i stream
           ≫= hip_check ;
  xs ← hip.hipMemcpyAsync_float32 rt x_temp x_temp0 cfl_data num_bytes stream
           ≫= hip_check ;
  hip.hipStreamSynchronize rt stream ≫= hip_check ;;
  min_value ← getitem x_temp xs (indx - 1) ;
  (* clean up *)
  hip.hipStreamDestroy rt stream ≫= hip_check ;;
  hip.hipFree rt cfl_data ≫= hip_check ;;
  mret min_value.

Definition computeDt (self : Simulator) : M Q :=
  max_dt ← min_hipblas self (size (cfl_data self)) (ptr (cfl_data self)) (stream self) ;
  mret (max_dt * (1 # 2))%Q.

End methods.
End EE2D_KP07_dimsplit.
Import EE2D_KP07_dimsplit.

(** ** A concrete simulator, device and runtime *)

Module Sample.

Definition field (p : devptr) : CudaArray2D :=
  {| data := p; shape0 := 20; x_halo := 2; y_halo := 2 |}.

Definition fields (p : devptr) : ArakawaA2D :=
  {| var0 := field p; var1 := field (p + 1)%N;
     var2 := field (p + 2)%N; var3 := field (p + 3)%N |}.

(** A 32 x 16 grid in blocks of 16 x 8: a 2 x 2 grid of blocks. *)
Definition sim : Simulator :=
  {| nx := 32; ny := 16; dx := 1; dy := 1;
     g := 981 # 100; gamma := 14 # 10; theta := 13 # 10;
     boundary_conditions := 0;
     grid_size := (2, 2, 1); block_size := (16, 8, 1);
     stream := 1%N; internal_stream := 2%N;
     u0 := fields 10%N; u1 := fields 20%N;
     cfl_data := {| ptr := 30%N; size := 4 |} |}.

Definition cells : Buffer := Floats (replicate (36 * 20) 1%Q).

Definition device_with (cfl : list Q) : Device :=
  {| mem := list_to_map
       [ (10, cells); (11, cells); (12, cells); (13, cells);
         (20, cells); (21, cells); (22, cells); (23, cells);
         (30, Floats cfl) ]%N;
     streams := {[ 1%N; 2%N ]};
     trace := [] |}.

Definition device : Device := device_with [3 # 10; 1 # 10; 2 # 10; 1 # 10]%Q.

(** A runtime in which no call fails and the kernel writes nothing. *)
Definition runtime : Runtime :=
  {| hip_verdict := fun _ _ => hipSuccess;
     hipblas_verdict := fun _ _ => HIPBLAS_STATUS_SUCCESS;
     KP07DimsplitKernel := fun _ _ _ _ _ old => old |}.

End Sample.


(** ** Executions: sequences of calls on one simulator *)

Inductive Op :=
| Osubstep (dt : Q) (step_number : Z) (external internal : bool)
| OswapBuffers
| OcomputeDt.

Definition call (rt : Runtime) (self : Simulator) (op : Op) : M Simulator :=
  match op with
  | Osubstep dt step_number external internal =>
      substep rt self dt step_number external internal ;; mret self
  | OswapBuffers => mret (swapBuffers self)
  | OcomputeDt => computeDt rt self ;; mret self
  end.

Fixpoint calls (rt : Runtime) (self : Simulator) (ops : list Op) : M Simulator :=
  match ops with
  | [] => mret self
  | op :: ops' => self' ← call rt self op ; calls rt self' ops'
  end.

(** ** Regions of cell-index space *)

Record Region := { x0 : Z; y0 : Z; x1 : Z; y1 : Z }.

(** The cell [(x, y)] lies in [[x0, x1) x [y0, y1)]. *)
Definition inside (r : Region) (x y : Z) : bool :=
  (x0 r <=? x) && (x <? x1 r) && (y0 r <=? y) && (y <? y1 r).

Definition covered (rs : list Region) (x y : Z) : bool :=
  existsb (fun r => inside r x y) rs.

(** The sub-rectangle the kernel of a launch receives. *)
Definition region_of (ev : Event) : option Region :=
  match ev with
  | ELaunch _ _ _ _ a =>
      Some {| x0 := value (a_x0 a); y0 := value (a_y0 a);
              x1 := value (a_x1 a); y1 := value (a_y1 a) |}
  | _ => None
  end.

Definition launched_regions (tr : list Event) : list Region := omap region_of tr.

Definition full_rectangle (nx ny x y : Z) : Prop :=
  0 <= x < nx /\ 0 <= y < ny.

(** Cells of the full rectangle less than a halo width away from one of
    its four edges. *)
Definition boundary_strip (nx ny hx hy x y : Z) : Prop :=
  full_rectangle nx ny x y /\
  (x < hx \/ nx - hx <= x \/ y < hy \/ ny - hy <= y).

(** ** The global minimum of a buffer *)

(** [m] is an element of [buf] and no element is smaller. *)
Definition is_minimum (m : Q) (buf : list Q) : Prop :=
  In m buf /\ Forall (fun v => (m <= v)%Q) buf.

Definition returned {A} (o : Outcome A) : option A :=
  match o with Returns a _ => Some a | _ => None end.

(** ** Predicates on sequences of host actions *)

Definition is_launch (ev : Event) : bool :=
  match ev with ELaunch _ _ _ _ _ => true | _ => false end.

Definition is_warning (ev : Event) : bool :=
  match ev with EWarn => true | _ => false end.

Definition launch_stream (ev : Event) : option hipStream_t :=
  match ev with ELaunch _ _ _ s _ => Some s | _ => None end.

(** Every launch is immediately followed by a barrier on stream [s]. *)
Fixpoint each_launch_synced (s : hipStream_t) (tr : list Event) : bool :=
  match tr with
  | [] => true
  | ELaunch _ _ _ _ _ :: rest =>
      match rest with
      | ESync s' :: _ => (s' =? s)%N && each_launch_synced s rest
      | _ => false
      end
  | _ :: rest => each_launch_synced s rest
  end.

(** Streams on which a launch has been enqueued and no barrier executed
    since, after the actions [tr] (starting from [pending]). *)
Fixpoint unsynced (pending : list hipStream_t) (tr : list Event) : list hipStream_t :=
  match tr with
  | [] => pending
  | ELaunch _ _ _ s _ :: rest => unsynced (s :: pending) rest
  | ESync s :: rest => unsynced (List.filter (fun q => negb (q =? s)%N) pending) rest
  | _ :: rest => unsynced pending rest
  end.

(** Host code reads the copied CFL values. *)
Definition host_read (ev : Event) : bool :=
  match ev with EGetitem _ _ => true | _ => false end.

(** The call reads the device buffer [p]: the index search over it, or a
    copy out of it. *)
Definition device_read (p : devptr) (ev : Event) : bool :=
  match ev with
  | EIsamin _ x _ _ => (x =? p)%N
  | EMemcpyAsync _ src _ _ _ => (src =? p)%N
  | _ => false
  end.

(** A read of the CFL values at [p] by the reduction: by a device call,
    or by host code in the copy. *)
Definition reduction_read (p : devptr) (ev : Event) : bool :=
  device_read p ev || host_read ev.

(** At every read, no launch is pending on a watched stream. *)
Fixpoint reads_guarded (is_read : Event -> bool) (watched : hipStream_t -> bool)
    (pending : list hipStream_t) (tr : list Event) : bool :=
  match tr with
  | [] => true
  | ev :: rest =>
      (if is_read ev then negb (existsb watched pending) else true)
      && reads_guarded is_read watched (unsynced pending [ev]) rest
  end.

(** Every barrier is on stream [s]. *)
Definition barrier_on (s : hipStream_t) (ev : Event) : Prop :=
  match ev with ESync s' => s' = s | _ => True end.

(** What [substepDimsplit] may do: launches that carry [dt] and [k], and
    barriers on the primary stream. *)
Definition substep_action (self : Simulator) (dt : Q) (k : Z) (ev : Event) : Prop :=
  match ev with
  | ELaunch _ _ _ _ a => a_dt a = c_float dt /\ a_substep a = c_int k
  | ESync s => s = stream self
  | _ => False
  end.

(** What [min_hipblas] may do: no launch, and barriers on [s] only. *)
Definition reduction_action (s : hipStream_t) (ev : Event) : Prop :=
  match ev with
  | ELaunch _ _ _ _ _ => False
  | ESync s' => s' = s
  | _ => True
  end.

(** ** Further notions on the scheduler and the reduction *)

(** The host actions of [substepDimsplit] in a run in which no call
    fails, by mode. *)
Definition plan (self : Simulator) (dt : Q) (k : Z) (external internal : bool)
    : list Event :=
  let b := block_size self in
  let s := stream self in
  let hx := x_halo (var0 (u0 self)) in
  let hy := y_halo (var0 (u0 self)) in
  if external && internal then
    [ ELaunch (grid_size self) b 0 s (extra self dt k 0 0 (nx self) (ny self)) ]
  else if external && negb internal then
    [ ELaunch ((grid_size self).1.1, 1, 1) b 0 s
        (extra self dt k 0 (ny self - hy) (nx self) (ny self));
      ESync s;
      ELaunch ((grid_size self).1.1, 1, 1) b 0 s
        (extra self dt k 0 0 (nx self) hy);
      ESync s;
      ELaunch (1, (grid_size self).1.2, 1) b 0 s
        (extra self dt k 0 0 hx (ny self));
      ESync s;
      ELaunch (1, (grid_size self).1.2, 1) b 0 s
        (extra self dt k (nx self - hx) 0 (nx self) (ny self)) ]
  else if internal && negb external then
    [ ELaunch (grid_size self) b 0 (internal_stream self)
        (extra self dt k hx hy (nx self - hx) (ny self - hy)) ]
  else [].

(** The exception [hip_check] raises for a HIP error code. *)
Definition is_hip_error (e : Exn) : Prop :=
  exists code, e = RuntimeError (of_hip (hipErrorCode code)).

(** Number of regions of [rs] that hold the cell [(x, y)]. *)
Definition count_covering (rs : list Region) (x y : Z) : nat :=
  length (List.filter (fun r => inside r x y) rs).

(** Cells of the full rectangle within a halo width of an edge in both
    directions. *)
Definition corner (nx ny hx hy x y : Z) : Prop :=
  full_rectangle nx ny x y /\
  (x < hx \/ nx - hx <= x) /\ (y < hy \/ ny - hy <= y).

(** Number of [swapBuffers] calls in an execution. *)
Fixpoint swaps (ops : list Op) : nat :=
  match ops with
  | [] => 0
  | OswapBuffers :: ops' => S (swaps ops')
  | _ :: ops' => swaps ops'
  end.

(** Calls that reach no device: [swapBuffers], and [substep] with both
    flags false. *)
Definition quiet_op (op : Op) : bool :=
  match op with
  | OswapBuffers => true
  | Osubstep _ _ external internal => negb (external || internal)
  | OcomputeDt => false
  end.

(** After the first [computeDt] only quiet calls follow. *)
Fixpoint reduces_once (ops : list Op) : bool :=
  match ops with
  | [] => true
  | OcomputeDt :: ops' => forallb quiet_op ops'
  | _ :: ops' => reduces_once ops'
  end.

Definition succeeded (st : hipError_t) : bool :=
  match st with hipSuccess => true | hipErrorCode _ => false end.

(** Every call of [evs], issued in this order after the actions [h],
    reports [hipSuccess]. *)
Fixpoint all_succeed (rt : Runtime) (h evs : list Event) : bool :=
  match evs with
  | [] => true
  | ev :: rest => succeeded (hip_verdict rt h ev) && all_succeed rt (h ++ [ev]) rest
  end.

(** A runtime like [Sample.runtime] in which the call number [n] (counted
    from 0 over the whole trace) reports a HIP error. *)
Definition failing_at (n : nat) : Runtime :=
  {| hip_verdict := fun h _ => if (length h =? n)%nat then hipErrorCode 1 else hipSuccess;
     hipblas_verdict := fun _ _ => HIPBLAS_STATUS_SUCCESS;
     KP07DimsplitKernel := fun _ _ _ _ _ old => old |}.

(** [m] leaves the live streams and the set of live allocations as they
    are, whatever its outcome. *)
Definition keeps_resources {A} (m : M A) : Prop :=
  forall d, streams (final (m d)) = streams d /\
            dom (mem (final (m d))) = dom (mem d).

(** A simulator on a grid without blocks: its CFL buffer has no element. *)
Definition blockless_sim : Simulator :=
  {| nx := 0; ny := 0; dx := 1; dy := 1;
     g := 981 # 100; gamma := 14 # 10; theta := 13 # 10;
     boundary_conditions := 0;
     grid_size := (0, 0, 1); block_size := (16, 8, 1);
     stream := 1%N; internal_stream := 2%N;
     u0 := Sample.fields 10%N; u1 := Sample.fields 20%N;
     cfl_data := {| ptr := 30%N; size := 0 |} |}.

(** A runtime in which every HIP call succeeds and [hipblasIsamin]
    reports a failure. *)
Definition isamin_failing : Runtime :=
  {| hip_verdict := fun _ _ => hipSuccess;
     hipblas_verdict := fun _ ev =>
       match ev with
       | EIsamin _ _ _ _ => hipblasStatusCode 1
       | _ => HIPBLAS_STATUS_SUCCESS
       end;
     KP07DimsplitKernel := fun _ _ _ _ _ old => old |}.

(** [m] never releases the allocation at [p], whatever its outcome. *)
Definition keeps_live (p : devptr) {A} (m : M A) : Prop :=
  forall d, live_ptr d p = true -> live_ptr (final (m d)) p = true.

(** [m] releases the allocation at [p] at most when it returns. *)
Definition freed_only_on_return (p : devptr) {A} (m : M A) : Prop :=
  forall d, live_ptr d p = true ->
    match m d with
    | Returns _ _ => True
    | Raises _ d' => live_ptr d' p = true
    | Undefined d' => live_ptr d' p = true
    end.

(** [m] never destroys the stream [s], whatever its outcome. *)
Definition keeps_stream (s : hipStream_t) {A} (m : M A) : Prop :=
  forall d, live_stream d s = true -> live_stream (final (m d)) s = true.

(** When [m] does not return, the stream [s] is still live, unless the
    last actions [m] issued are [tail]. *)
Definition stream_kept_on_failure (s : hipStream_t) (tail : list Event)
    {A} (m : M A) : Prop :=
  forall d, live_stream d s = true ->
    match m d with
    | Returns _ _ => True
    | Raises _ d' =>
        live_stream d' s = true \/ exists pre, trace d' = trace d ++ pre ++ tail
    | Undefined d' =>
        live_stream d' s = true \/ exists pre, trace d' = trace d ++ pre ++ tail
    end.

(** ** The notebook magics of [GPUSimulators/IPythonMagic.py]

    The three line magics work on the notebook's user namespace
    ([self.shell.user_ns], a dictionary from names to objects) and on the
    [GPUSimulators] logger.  The calls they make on the outside world are
    recorded as actions; what the source cannot decide (whether the
    argument parser, a constructor, a method of another module or a file
    raises, what [eval] gives, what the HIP runtime answers) comes from an
    environment. *)

Module IPythonMagic.

(** [context_flags]: [None], or what [hip_check] makes of the one-element
    tuple [(status,)] of [hip.hipSetDeviceFlags]: [call_result[1:]], the
    empty tuple. *)
Inductive ContextFlags := flags_None | flags_empty_tuple.

(** Objects bound in the user namespace. *)
Inductive PyObj :=
| PyNone
| PyStr (s : string)
  (** the logger [logging.getLogger('GPUSimulators')] *)
| PyLogger
  (** [CudaContext.CudaContext(context_flags, use_cache, autotuning)] *)
| PyCudaContext (context_flags : ContextFlags) (use_cache autotuning : bool)
  (** [Common.IPEngine(num_engines)], the [id]-th engine created *)
| PyIPEngine (id : nat) (n_engines : Z)
  (** any other object *)
| PyOpaque (tag : nat).

Inductive Handler :=
| StreamHandler (level : Z)
| FileHandler (outfile : string) (level : Z) (formatter : string).

Inductive PyExn :=
| PyRuntimeError (err : status)      (* raised by [hip_check] *)
| PyAttributeError
| PyTypeError
| PyOSError
| PyUsageError                       (* [parse_argstring] rejects the line *)
| PyCalleeError.                     (* raised inside [Common] or [CudaContext] *)

(** Calls on the outside world, in the order they are made; a log call
    is recorded with its logger, its level and its format string. *)
Inductive Action :=
| ALog (logger : string) (level : Z) (message : string)
| AException (logger : string) (message : string)
| ASetDeviceFlags
| ANewContext (context_flags : ContextFlags) (use_cache autotuning : bool)
| ASetCustomExc (name : string)
| AAtexitRegister (name : string)
| AShutdown (obj : PyObj)
| AGcCollect
| ANewEngine (id : nat) (n_engines : Z)
| ANewFileHandler (outfile : PyObj)
| ACtxGetCurrent
| ACtxPopCurrent
| APush (obj : PyObj)
| AShowTraceback.

Record Notebook := {
  user_ns : gmap string PyObj;
  logger_initialized : bool;       (* [self.logger_initialized] of [MagicLogger] *)
  logger_level : option Z;         (* level of the [GPUSimulators] logger *)
  handlers : list Handler;         (* its handlers, oldest first *)
  created : nat;                   (* engines created so far *)
  actions : list Action            (* oldest first *)
}.

(** What the source cannot decide. *)
Record Env := {
  (** [eval(args.out, user_global_ns, user_ns)] on a user namespace: its
      value, [None] when it raises, and the namespace as the evaluation
      leaves it (an assignment expression in [--out] binds a name, also
      when the evaluation raises afterwards) *)
  eval_out : gmap string PyObj -> string -> option PyObj * gmap string PyObj;
  (** [os.fspath] of an object that is no string: [None] when it raises *)
  path_like : PyObj -> option string;
  (** [logging.FileHandler(outfile)] can open the file *)
  opens : list Action -> string -> bool;
  (** [Common.IPEngine(num_engines)] returns *)
  engine_starts : list Action -> Z -> bool;
  (** [CudaContext.CudaContext(...)] returns *)
  context_starts : list Action -> bool;
  (** an object of another module has a [shutdown] method *)
  shutdown_of : PyObj -> bool;
  (** [obj.shutdown()] returns *)
  shuts_down : list Action -> PyObj -> bool;
  (** [obj.cuda_context.handle] of an object of another module: [None]
      when an attribute is missing *)
  cuda_context_of : PyObj -> option string;
  (** [obj.cuda_context.push()] returns *)
  pushes : list Action -> PyObj -> bool;
  (** status of [hip.hipSetDeviceFlags] *)
  set_device_flags : list Action -> hipError_t;
  (** the tuple [(status, context)] of [hip.hipCtxGetCurrent] *)
  ctx_get_current : list Action -> hipError_t * nat;
  (** [context.handle]: [None] when the attribute is missing *)
  handle_of : nat -> option string
}.

Inductive Res (A : Type) :=
| Ok (a : A) (nb : Notebook)
| Err (e : PyExn) (nb : Notebook).
Arguments Ok {A} a nb.
Arguments Err {A} e nb.

Definition state_of {A} (r : Res A) : Notebook :=
  match r with Ok _ nb => nb | Err _ nb => nb end.

Definition act (a : Action) (nb : Notebook) : Notebook :=
  {| user_ns := user_ns nb; logger_initialized := logger_initialized nb;
     logger_level := logger_level nb; handlers := handlers nb;
     created := created nb; actions := actions nb ++ [a] |}.

(** [self.shell.user_ns[name] = obj] *)
Definition bind_name (name : string) (obj : PyObj) (nb : Notebook) : Notebook :=
  {| user_ns := <[name := obj]> (user_ns nb);
     logger_initialized := logger_initialized nb;
     logger_level := logger_level nb; handlers := handlers nb;
     created := created nb; actions := actions nb |}.

(** The user namespace after an evaluation in it. *)
Definition set_user_ns (ns : gmap string PyObj) (nb : Notebook) : Notebook :=
  {| user_ns := ns; logger_initialized := logger_initialized nb;
     logger_level := logger_level nb; handlers := handlers nb;
     created := created nb; actions := actions nb |}.

(** [self.logger_initialized = True] *)
Definition set_initialized (nb : Notebook) : Notebook :=
  {| user_ns := user_ns nb; logger_initialized := true;
     logger_level := logger_level nb; handlers := handlers nb;
     created := created nb; actions := actions nb |}.

(** [logger.setLevel(l)] *)
Definition setLevel (l : Z) (nb : Notebook) : Notebook :=
  {| user_ns := user_ns nb; logger_initialized := logger_initialized nb;
     logger_level := Some l; handlers := handlers nb;
     created := created nb; actions := actions nb |}.

(** [logger.addHandler(h)] *)
Definition addHandler (h : Handler) (nb : Notebook) : Notebook :=
  {| user_ns := user_ns nb; logger_initialized := logger_initialized nb;
     logger_level := logger_level nb; handlers := handlers nb ++ [h];
     created := created nb; actions := actions nb |}.

Definition count_created (nb : Notebook) : Notebook :=
  {| user_ns := user_ns nb; logger_initialized := logger_initialized nb;
     logger_level := logger_level nb; handlers := handlers nb;
     created := S (created nb); actions := actions nb |}.

(** Levels of the [logging] module. *)
Definition DEBUG : Z := 10.
Definition INFO : Z := 20.
Definition WARNING : Z := 30.
Definition ERROR : Z := 40.

(** [logging.getLogger(__name__)] and [logging.getLogger('GPUSimulators')]. *)
Definition module_logger : string := "GPUSimulators.IPythonMagic".
Definition root_logger : string := "GPUSimulators".

(** [hip_check] of this module, the same function as in the simulator's
    module, on the notebook state. *)
Definition hip_check {A} (call_result : status * A) (nb : Notebook) : Res A :=
  let err := call_result.1 in
  let result := call_result.2 in
  match err with
  | of_hip hipSuccess => Ok result nb
  | of_hip _ => Err (PyRuntimeError err) nb
  | of_hiprtc HIPRTC_SUCCESS => Ok result nb
  | of_hiprtc _ => Err (PyRuntimeError err) nb
  | of_hipblas _ => Ok result nb
  end.

(** [x != None] for the tuple a HIP call returns: a tuple is never equal
    to [None]. *)
Definition not_None {A B} (call_result : A * B) : bool := true.

(** *** [MagicCudaContext.cuda_context_handler] *)

Record ContextArgs := {
  ctx_name : string;
  blocking : bool;
  no_cache : bool;
  no_autotuning : bool
}.

(** [parsed] is the result of [magic_arguments.parse_argstring] on the
    line, [None] when it raises. *)
Definition cuda_context_handler (env : Env) (parsed : option ContextArgs)
    (nb : Notebook) : Res unit :=
  match parsed with
  | None => Err PyUsageError nb
  | Some args =>
      let nb := act (ALog module_logger INFO "Registering %s in user workspace") nb in
      let flags :=
        if blocking args then
          hip_check (of_hip (set_device_flags env (actions nb)), flags_empty_tuple)
                    (act ASetDeviceFlags nb)
        else Ok flags_None nb in
      match flags with
      | Err e nb => Err e nb
      | Ok context_flags nb =>
          match user_ns nb !! ctx_name args with
          | Some _ =>
              Ok tt (act (ALog module_logger DEBUG
                            "Context already registered! Ignoring") nb)
          | None =>
              let nb := act (ALog module_logger DEBUG "Creating context") nb in
              let use_cache := if no_cache args then false else true in
              let use_autotuning := if no_autotuning args then false else true in
              if context_starts env (actions nb) then
                let nb := act (ANewContext context_flags use_cache use_autotuning) nb in
                let nb := bind_name (ctx_name args)
                            (PyCudaContext context_flags use_cache use_autotuning) nb in
                (* get_ipython().set_custom_exc((Exception,), custom_exc) *)
                let nb := act (ASetCustomExc (ctx_name args)) nb in
                (* atexit.register(exitfunc) *)
                Ok tt (act (AAtexitRegister (ctx_name args)) nb)
              else Err PyCalleeError nb
          end
      end
  end.

(** The loop [while (hip.hipCtxGetCurrent() != None): ...] of
    [custom_exc] and of [exitfunc], run for at most [fuel] iterations:
    [Ok false] when the fuel runs out with the loop still running,
    [Ok true] when the loop has ended because its condition was false. *)
Fixpoint pop_contexts (env : Env) (popping : string) (fuel : nat) (nb : Notebook)
    : Res bool :=
  match fuel with
  | O => Ok false nb
  | S fuel' =>
      (* the condition: one call, whose result is compared with None *)
      let current := ctx_get_current env (actions nb) in
      let nb := act ACtxGetCurrent nb in
      if not_None current then
        (* context = hip_check(hip.hipCtxGetCurrent()) *)
        let current := ctx_get_current env (actions nb) in
        match hip_check (of_hip current.1, current.2) (act ACtxGetCurrent nb) with
        | Err e nb => Err e nb
        | Ok context nb =>
            (* self.logger.info(popping, str(context.handle)) *)
            match handle_of env context with
            | None => Err PyAttributeError nb
            | Some _ =>
                let nb := act (ALog module_logger INFO popping) nb in
                (* hip.hipCtxPopCurrent(), its result dropped *)
                pop_contexts env popping fuel' (act ACtxPopCurrent nb)
            end
        end
      else Ok true nb
  end.

Definition separator : string :=
  "==================================================================".

(** [exitfunc], registered with [atexit]; [Ok false] when the fuel has
    run out inside the loop. *)
Definition exitfunc (env : Env) (fuel : nat) (nb : Notebook) : Res bool :=
  let nb := act (ALog module_logger INFO "Exitfunc: Resetting CUDA context stack") nb in
  match pop_contexts env "`-> Popping <%s>" fuel nb with
  | Err e nb => Err e nb
  | Ok false nb => Ok false nb
  | Ok true nb => Ok true (act (ALog module_logger DEBUG separator) nb)
  end.

(** [obj.cuda_context.handle] *)
Definition cuda_context_handle (env : Env) (obj : PyObj) : option string :=
  match obj with
  | PyNone | PyStr _ | PyLogger => None
  | _ => cuda_context_of env obj
  end.

(** [custom_exc], the exception handler installed for the notebook, for
    the context registered under [name]. *)
Definition custom_exc (env : Env) (name : string) (fuel : nat) (nb : Notebook)
    : Res bool :=
  let nb := act (AException module_logger
                   "Exception caught: Resetting to CUDA context %s") nb in
  match pop_contexts env "Popping <%s>" fuel nb with
  | Err e nb => Err e nb
  | Ok false nb => Ok false nb
  | Ok true nb =>
      let pushed :=
        match user_ns nb !! name with
        | Some obj =>
            match cuda_context_handle env obj with
            | None => Err PyAttributeError nb
            | Some _ =>
                let nb := act (ALog module_logger INFO "Pushing <%s>") nb in
                if pushes env (actions nb) obj then Ok tt (act (APush obj) nb)
                else Err PyCalleeError (act (APush obj) nb)
            end
        | None =>
            Ok tt (act (ALog module_logger ERROR "CUDA will not work now")
                     (act (ALog module_logger ERROR
                             "No CUDA context called %s found (something is wrong)")
                        nb))
        end in
      match pushed with
      | Err e nb => Err e nb
      | Ok _ nb =>
          let nb := act (ALog module_logger DEBUG separator) nb in
          (* still show the error within the notebook *)
          Ok true (act AShowTraceback nb)
      end
  end.

(** *** [MagicLogger.setup_logging] *)

Record LoggingArgs := {
  log_name : string;
  out : string;
  level : Z;
  file_level : Z
}.

Definition formatter : string := "%(asctime)s:%(name)s:%(levelname)s: %(message)s".

(** [os.fspath(outfile)], the first thing [logging.FileHandler] does. *)
Definition fspath (env : Env) (outfile : PyObj) : option string :=
  match outfile with
  | PyStr s => Some s
  | PyNone | PyLogger => None
  | _ => path_like env outfile
  end.

(** The line is parsed on the initialising path only, after the flag
    has been set. *)
Definition setup_logging (env : Env) (parsed : option LoggingArgs) (nb : Notebook)
    : Res unit :=
  if logger_initialized nb then
    Ok tt (act (ALog root_logger INFO "Global logger already initialized!") nb)
  else
    let nb := set_initialized nb in
    match parsed with
    | None => Err PyUsageError nb
    | Some args =>
        let nb := setLevel (Z.min (level args) (file_level args)) nb in
        (* add log to screen *)
        let nb := addHandler (StreamHandler (level args)) nb in
        let nb := act (ALog root_logger (level args)
                         "Console logger using level %s") nb in
        (* the out file name: the value of the expression, else its text;
           the expression is evaluated in the user namespace *)
        let evaluated := eval_out env (user_ns nb) (out args) in
        let nb := set_user_ns evaluated.2 nb in
        let outfile :=
          match evaluated.1 with
          | Some v => v
          | None => PyStr (out args)
          end in
        (* add log to file *)
        let nb := act (ALog root_logger (level args)
                         "File logger using level %s to %s") nb in
        let nb := act (ANewFileHandler outfile) nb in
        match fspath env outfile with
        | None => Err PyTypeError nb
        | Some path =>
            if opens env (actions nb) path then
              let nb := addHandler (FileHandler path (file_level args) formatter) nb in
              let nb := act (ALog root_logger INFO "Python version %s") nb in
              Ok tt (bind_name (log_name args) PyLogger nb)
            else Err PyOSError nb
        end
    end.

(** *** [MagicMPI.setup_mpi] *)

Record MPIArgs := {
  mpi_name : string;
  num_engines : Z
}.

(** Does [obj.shutdown] find a method? *)
Definition has_shutdown (env : Env) (obj : PyObj) : bool :=
  match obj with
  | PyNone | PyStr _ | PyLogger => false
  | _ => shutdown_of env obj
  end.

Definition setup_mpi (env : Env) (parsed : option MPIArgs) (nb : Notebook)
    : Res unit :=
  match parsed with
  | None => Err PyUsageError nb
  | Some args =>
      let reset :=
        match user_ns nb !! mpi_name args with
        | Some obj =>
            let nb := act (ALog root_logger WARNING "MPI alreay set up, resetting") nb in
            if has_shutdown env obj then
              if shuts_down env (actions nb) obj then
                let nb := act (AShutdown obj) nb in
                let nb := bind_name (mpi_name args) PyNone nb in
                Ok tt (act AGcCollect nb)
              else Err PyCalleeError (act (AShutdown obj) nb)
            else Err PyAttributeError nb
        | None => Ok tt nb
        end in
      match reset with
      | Err e nb => Err e nb
      | Ok _ nb =>
          if engine_starts env (actions nb) (num_engines args) then
            let engine := PyIPEngine (created nb) (num_engines args) in
            let nb := act (ANewEngine (created nb) (num_engines args)) nb in
            Ok tt (bind_name (mpi_name args) engine (count_created nb))
          else Err PyCalleeError nb
      end
  end.

(** *** A notebook session *)

(** The magics registered at the end of the module, as cells. *)
Inductive Cell :=
| cuda_context_cell (parsed : option ContextArgs)
| setup_logging_cell (parsed : option LoggingArgs)
| setup_mpi_cell (parsed : option MPIArgs).

Definition run_cell (env : Env) (c : Cell) (nb : Notebook) : Res unit :=
  match c with
  | cuda_context_cell parsed => cuda_context_handler env parsed nb
  | setup_logging_cell parsed => setup_logging env parsed nb
  | setup_mpi_cell parsed => setup_mpi env parsed nb
  end.

(** Cells run one after another; an exception ends its cell, not the
    session.  The session follows the magics themselves: the handler
    [custom_exc] that a registered context installs for such an exception
    is modelled above, by itself; it logs and calls HIP, and touches
    neither the namespace nor the logger. *)
Definition session (env : Env) (cs : list Cell) (nb : Notebook) : Notebook :=
  fold_left (fun nb c => state_of (run_cell env c nb)) cs nb.

(** The actions a run has added. *)
Definition added (nb nb' : Notebook) : list Action :=
  drop (length (actions nb)) (actions nb').

Definition is_logging_cell (c : Cell) : bool :=
  match c with setup_logging_cell _ => true | _ => false end.

Definition is_context_cell (c : Cell) : bool :=
  match c with cuda_context_cell _ => true | _ => false end.

Definition shows_or_pushes (a : Action) : bool :=
  match a with
  | AShowTraceback | APush _ => true
  | _ => false
  end.

(** Every engine the magic has created is still bound to a name or has
    had [shutdown] called on it, and engine numbers are not reused. *)
Definition engines_accounted (nb : Notebook) : Prop :=
  forall id n, In (ANewEngine id n) (actions nb) ->
    (id < created nb)%nat /\
    ((exists name, user_ns nb !! name = Some (PyIPEngine id n)) \/
     In (AShutdown (PyIPEngine id n)) (actions nb)).

Definition fresh_notebook : Notebook :=
  {| user_ns := ∅; logger_initialized := false; logger_level := None;
     handlers := []; created := 0; actions := [] |}.

(** An environment in which no call fails and [--out] is taken as text;
    the context stack always has one more context to pop. *)
Definition calm : Env :=
  {| eval_out := fun ns _ => (None, ns);
     path_like := fun _ => None;
     opens := fun _ _ => true;
     engine_starts := fun _ _ => true;
     context_starts := fun _ => true;
     shutdown_of := fun obj =>
       match obj with PyIPEngine _ _ => true | _ => false end;
     shuts_down := fun _ _ => true;
     cuda_context_of := fun _ => Some "0x1";
     pushes := fun _ _ => true;
     set_device_flags := fun _ => hipSuccess;
     ctx_get_current := fun _ => (hipSuccess, 0%nat);
     handle_of := fun _ => Some "0x1" |}.

(** As [calm], but no file can be opened. *)
Definition read_only : Env :=
  {| eval_out := eval_out calm;
     path_like := path_like calm;
     opens := fun _ _ => false;
     engine_starts := engine_starts calm;
     context_starts := context_starts calm;
     shutdown_of := shutdown_of calm;
     shuts_down := shuts_down calm;
     cuda_context_of := cuda_context_of calm;
     pushes := pushes calm;
     set_device_flags := set_device_flags calm;
     ctx_get_current := ctx_get_current calm;
     handle_of := handle_of calm |}.

(** As [calm], but [--out] is an assignment expression such as
    [(y:=5)]: it binds [y] and its value is no path. *)
Definition binding_out : Env :=
  {| eval_out := fun ns _ => (Some (PyOpaque 5), <["y" := PyOpaque 5]> ns);
     path_like := path_like calm;
     opens := opens calm;
     engine_starts := engine_starts calm;
     context_starts := context_starts calm;
     shutdown_of := shutdown_of calm;
     shuts_down := shuts_down calm;
     cuda_context_of := cuda_context_of calm;
     pushes := pushes calm;
     set_device_flags := set_device_flags calm;
     ctx_get_current := ctx_get_current calm;
     handle_of := handle_of calm |}.

(** As [calm], but no engine starts once one has been shut down. *)
Definition no_restart : Env :=
  {| eval_out := eval_out calm;
     path_like := path_like calm;
     opens := opens calm;
     engine_starts := fun h _ =>
       negb (existsb (fun a => match a with AShutdown _ => true | _ => false end) h);
     context_starts := context_starts calm;
     shutdown_of := shutdown_of calm;
     shuts_down := shuts_down calm;
     cuda_context_of := cuda_context_of calm;
     pushes := pushes calm;
     set_device_flags := set_device_flags calm;
     ctx_get_current := ctx_get_current calm;
     handle_of := handle_of calm |}.

End IPythonMagic.

(** ** Auxiliary notions for the proofs *)

(** Traces only grow. *)
Definition monotone {A} (m : M A) : Prop :=
  forall d, exists evs, trace (final (m d)) = trace d ++ evs.

(** [c] logs exactly the action [ev], whatever its outcome. *)
Definition single {A} (c : M A) (ev : Event) : Prop :=
  forall d, trace (final (c d)) = trace d ++ [ev].

(** The device pointers a launch of this simulator hands to the kernel. *)
Definition sim_pointers (self : Simulator) : list devptr :=
  [ data (var0 (u0 self)); data (var1 (u0 self));
    data (var2 (u0 self)); data (var3 (u0 self));
    data (var0 (u1 self)); data (var1 (u1 self));
    data (var2 (u1 self)); data (var3 (u1 self));
    ptr (cfl_data self) ].

(** Both streams and every buffer of the simulator are live. *)
Definition ready (self : Simulator) (d : Device) : bool :=
  live_stream d (stream self) && live_stream d (internal_stream self) &&
  forallb (live_ptr d) (sim_pointers self).

(** [d1] has the live streams and the live pointers of [d]. *)
Definition same_resources (d d1 : Device) : Prop :=
  streams d1 = streams d /\ forall p, live_ptr d1 p = live_ptr d p.

(** [m] issues the calls [evs] in order and stops at the first one that
    does not go through.  A normal return has issued all of [evs], each
    with status [hipSuccess], and has kept the resources.  An exception is
    the [RuntimeError] of the first status that is not [hipSuccess], and
    the last call issued is the one that reported it.  An undefined
    outcome comes from a call that names a resource already released at
    the start, after calls that all succeeded. *)
Definition follows (rt : Runtime) {A} (m : M A) (evs : list Event) : Prop :=
  forall d,
    match m d with
    | Returns _ d' =>
        trace d' = trace d ++ evs /\
        all_succeed rt (trace d) evs = true /\
        same_resources d d'
    | Raises e d' =>
        exists pre ev,
          trace d' = trace d ++ pre ++ [ev] /\
          (pre ++ [ev]) `prefix_of` evs /\
          all_succeed rt (trace d) pre = true /\
          e = RuntimeError (of_hip (hip_verdict rt (trace d ++ pre) ev)) /\
          hip_verdict rt (trace d ++ pre) ev <> hipSuccess
    | Undefined d' =>
        exists pre ev,
          trace d' = trace d ++ pre ++ [ev] /\
          (pre ++ [ev]) `prefix_of` evs /\
          all_succeed rt (trace d) pre = true /\
          names_released d ev = true
    end.

(** ** Basic facts *)

Lemma value_c_int v : int_range v -> value (c_int v) = v.
Proof.
  unfold int_range, value. intros H.
  rewrite Z.mod_small by lia. lia.
Qed.

(** [hip_check] raises on a HIP error code and lets a hipBLAS status
    through, whatever it is. *)
Lemma hip_check_raises {A} code (r : A) d :
  hip_check (of_hip (hipErrorCode code), r) d =
  Raises (RuntimeError (of_hip (hipErrorCode code))) d.
Proof. reflexivity. Qed.

Lemma hip_check_hipblas {A} st (r : A) d :
  hip_check (of_hipblas st, r) d = Returns r d.
Proof. reflexivity. Qed.

Lemma bind_Returns {A B} (m : M A) (k : A -> M B) d a d' :
  m d = Returns a d' -> (m ≫= k) d = k a d'.
Proof. intros H. unfold mbind, M_bind. now rewrite H. Qed.

Lemma bind_Undefined {A B} (m : M A) (k : A -> M B) d d' :
  m d = Undefined d' -> (m ≫= k) d = Undefined d'.
Proof. intros H. unfold mbind, M_bind. now rewrite H. Qed.

Lemma issued_app {A} d (o : Outcome A) evs :
  trace (final o) = trace d ++ evs -> issued d o = evs.
Proof. intros H. unfold issued. rewrite H. apply drop_app_length. Qed.

Lemma issued_same {A} d (a : A) : issued d (Returns a d) = [].
Proof. apply issued_app. simpl. now rewrite app_nil_r. Qed.

Lemma issued_ret {A} d (a : A) : issued d ((mret a : M A) d) = [].
Proof. apply issued_same. Qed.

(** *** Traces only grow *)

Lemma single_monotone {A} (c : M A) ev : single c ev -> monotone c.
Proof. intros H d. exists [ev]. apply H. Qed.

Lemma monotone_ret {A} (a : A) : monotone (mret a).
Proof. intros d. exists []. simpl. now rewrite app_nil_r. Qed.

Lemma monotone_bind {A B} (m : M A) (k : A -> M B) :
  monotone m -> (forall a, monotone (k a)) -> monotone (m ≫= k).
Proof.
  intros Hm Hk d. destruct (Hm d) as [evs Hevs].
  unfold mbind, M_bind. destruct (m d) as [a d'|e d'|d']; simpl in *.
  - destruct (Hk a d') as [evs' Hevs']. exists (evs ++ evs').
    rewrite Hevs', Hevs. now rewrite app_assoc.
  - now exists evs.
  - now exists evs.
Qed.

Lemma issued_bind {A B} (m : M A) (k : A -> M B) d :
  monotone m -> (forall a, monotone (k a)) ->
  issued d ((m ≫= k) d) =
  issued d (m d) ++ match m d with
                    | Returns a d' => issued d' (k a d')
                    | _ => []
                    end.
Proof.
  intros Hm Hk. destruct (Hm d) as [evs Hevs].
  rewrite (issued_app d (m d) evs Hevs).
  unfold mbind, M_bind. destruct (m d) as [a d'|e d'|d']; simpl in *.
  - destruct (Hk a d') as [evs' Hevs'].
    rewrite (issued_app d' (k a d') evs' Hevs').
    apply issued_app. rewrite Hevs', Hevs. now rewrite app_assoc.
  - rewrite app_nil_r. now apply issued_app.
  - rewrite app_nil_r. now apply issued_app.
Qed.

Lemma single_check {A} (c : M (status * A)) ev :
  single c ev -> single (c ≫= hip_check) ev.
Proof.
  intros H d. specialize (H d). unfold mbind, M_bind.
  destruct (c d) as [[err r] d'|e d'|d']; simpl in *; try assumption.
  unfold hip_check. simpl.
  destruct err as [[|?]|[|?]|?]; simpl; assumption.
Qed.

Lemma issued_single {A} (c : M A) ev d : single c ev -> issued d (c d) = [ev].
Proof. intros H. apply issued_app, H. Qed.

Section api_facts.
Context (rt : Runtime).

Lemma single_hipMalloc size : single (hip.hipMalloc rt size) (EMalloc size).
Proof. intros d. unfold hip.hipMalloc. now destruct (hip_verdict _ _ _). Qed.

Lemma single_hipModuleLaunchKernel gd bd sh s a :
  single (hip.hipModuleLaunchKernel rt gd bd sh s a) (ELaunch gd bd sh s a).
Proof.
  intros d. unfold hip.hipModuleLaunchKernel.
  destruct (names_released _ _); [reflexivity|].
  now destruct (hip_verdict _ _ _).
Qed.

Lemma single_hipStreamSynchronize s :
  single (hip.hipStreamSynchronize rt s) (ESync s).
Proof.
  intros d. unfold hip.hipStreamSynchronize.
  now destruct (names_released _ _).
Qed.

Lemma single_hipStreamDestroy s :
  single (hip.hipStreamDestroy rt s) (EStreamDestroy s).
Proof.
  intros d. unfold hip.hipStreamDestroy.
  destruct (names_released _ _); [reflexivity|].
  now destruct (hip_verdict _ _ _).
Qed.

Lemma single_hipFree p : single (hip.hipFree rt p) (EFree p).
Proof.
  intros d. unfold hip.hipFree.
  destruct (names_released _ _); [reflexivity|].
  now destruct (hip_verdict _ _ _).
Qed.

Lemma single_hipMemcpyAsync_int32 dst old src n s :
  single (hip.hipMemcpyAsync_int32 rt dst old src n s)
         (EMemcpyAsync dst src n hipMemcpyDeviceToHost s).
Proof.
  intros d. unfold hip.hipMemcpyAsync_int32.
  destruct (names_released _ _); [reflexivity|].
  destruct (hip_verdict _ _ _); [|reflexivity].
  destruct (mem d !! src) as [[| |[|]]|]; reflexivity.
Qed.

Lemma single_hipMemcpyAsync_float32 dst old src n s :
  single (hip.hipMemcpyAsync_float32 rt dst old src n s)
         (EMemcpyAsync dst src n hipMemcpyDeviceToHost s).
Proof.
  intros d. unfold hip.hipMemcpyAsync_float32.
  destruct (names_released _ _); [reflexivity|].
  destruct (hip_verdict _ _ _); [|reflexivity].
  destruct (mem d !! src) as [[| |]|]; try reflexivity.
  now destruct (_ <=? _)%nat.
Qed.

Lemma single_hipblasCreate : single (hipblas.hipblasCreate rt) EBlasCreate.
Proof. intros d. reflexivity. Qed.

Lemma single_hipblasDestroy h : single (hipblas.hipblasDestroy rt h) EBlasDestroy.
Proof. intros d. reflexivity. Qed.

Lemma single_hipblasIsamin h n x incx r :
  single (hipblas.hipblasIsamin rt h n x incx r) (EIsamin n x incx r).
Proof.
  intros d. unfold hipblas.hipblasIsamin.
  destruct (names_released _ _); [reflexivity|].
  destruct (hipblas_verdict _ _ _); [|reflexivity].
  destruct (mem d !! x) as [[| |]|]; try reflexivity.
  now destruct (isamin _ _ _).
Qed.

Lemma single_getitem arr xs i : single (getitem arr xs i) (EGetitem arr i).
Proof.
  intros d. unfold getitem.
  destruct (_ && _); [|reflexivity].
  now destruct (xs !! _).
Qed.

End api_facts.

Create HintDb trace discriminated.
#[export] Hint Resolve monotone_ret monotone_bind single_monotone single_check
  single_hipMalloc single_hipModuleLaunchKernel single_hipStreamSynchronize
  single_hipStreamDestroy single_hipFree single_hipMemcpyAsync_int32
  single_hipMemcpyAsync_float32 single_hipblasCreate single_hipblasDestroy
  single_hipblasIsamin single_getitem : trace.

(** *** The methods only add to the trace *)

Lemma monotone_substepDimsplit rt self dt k external internal :
  monotone (substepDimsplit rt self dt k external internal).
Proof.
  unfold substepDimsplit.
  destruct external, internal; simpl; eauto 30 with trace.
Qed.

Lemma monotone_min_hipblas rt self n p s : monotone (min_hipblas rt self n p s).
Proof. unfold min_hipblas. eauto 40 with trace. Qed.

Lemma monotone_computeDt rt self : monotone (computeDt rt self).
Proof. unfold computeDt. auto using monotone_min_hipblas with trace. Qed.

Lemma monotone_call rt self op : monotone (call rt self op).
Proof.
  destruct op; simpl; unfold substep;
    auto using monotone_substepDimsplit, monotone_computeDt with trace.
Qed.

Lemma monotone_calls rt ops : forall self, monotone (calls rt self ops).
Proof.
  induction ops as [|op ops IH]; intros self; simpl;
    auto using monotone_call with trace.
Qed.

#[export] Hint Resolve monotone_substepDimsplit monotone_min_hipblas
  monotone_computeDt monotone_call monotone_calls : trace.

(** One step of a straight-line method: the call [c] logs [ev]; either the
    method stops there or it goes on from the state [c] returned. *)
Ltac step_issued ev d1 :=
  rewrite issued_bind by (intros; cbv beta; eauto 40 with trace);
  rewrite (issued_single _ ev) by eauto with trace;
  match goal with
  | |- context [match ?o with Returns _ _ => _ | _ => _ end] =>
      destruct o as [? d1 | ? d1 | d1]
  end.

(** The action logged by the call at the head of a method body. *)
Ltac head_event c :=
  lazymatch c with
  | context [hip.hipModuleLaunchKernel _ ?gd ?bd ?sh ?s ?a] => constr:(ELaunch gd bd sh s a)
  | context [hip.hipStreamSynchronize _ ?s] => constr:(ESync s)
  | context [hip.hipMalloc _ ?n] => constr:(EMalloc n)
  | context [hipblas.hipblasCreate _] => constr:(EBlasCreate)
  | context [hipblas.hipblasIsamin _ _ ?n ?x ?i ?r] => constr:(EIsamin n x i r)
  | context [hipblas.hipblasDestroy _ _] => constr:(EBlasDestroy)
  | context [hip.hipMemcpyAsync_int32 _ ?dst _ ?src ?n ?s] =>
      constr:(EMemcpyAsync dst src n hipMemcpyDeviceToHost s)
  | context [hip.hipMemcpyAsync_float32 _ ?dst _ ?src ?n ?s] =>
      constr:(EMemcpyAsync dst src n hipMemcpyDeviceToHost s)
  | context [hip.hipStreamDestroy _ ?s] => constr:(EStreamDestroy s)
  | context [hip.hipFree _ ?p] => constr:(EFree p)
  | context [getitem ?arr _ ?i] => constr:(EGetitem arr i)
  end.

Ltac step :=
  match goal with
  | |- context [issued ?d0 ((?c ≫= _) ?d0)] =>
      let ev := head_event c in
      let d1 := fresh "d" in
      step_issued ev d1
  end.

(** *** Runs in which no call fails *)

Lemma forallb_pointwise {A} (f h : A -> bool) (l : list A) :
  (forall x, f x = h x) -> forallb f l = forallb h l.
Proof. intros E. induction l as [|x l IH]; simpl; [reflexivity|]. now rewrite E, IH. Qed.

Lemma same_resources_ready self d d1 :
  same_resources d d1 -> ready self d1 = ready self d.
Proof.
  intros [Hs Hp]. unfold ready, live_stream. rewrite Hs.
  f_equal. apply forallb_pointwise. intros p. apply Hp.
Qed.

Lemma same_resources_log ev d : same_resources d (log ev d).
Proof. split; [reflexivity|]. intros p. reflexivity. Qed.

Lemma same_resources_trans d d1 d2 :
  same_resources d d1 -> same_resources d1 d2 -> same_resources d d2.
Proof.
  intros [Hs Hp] [Hs' Hp']. split; [congruence|].
  intros p. now rewrite Hp', Hp.
Qed.

Lemma live_ptr_launch_effect rt gd bd a d ev p :
  live_ptr (log ev (set_mem (hip.launch_effect rt gd bd a (mem d)) d)) p = live_ptr d p.
Proof.
  unfold live_ptr. simpl. apply bool_decide_ext.
  unfold hip.launch_effect. rewrite map_lookup_imap.
  destruct (mem d !! p); simpl; split; intros [? ?]; eauto; discriminate.
Qed.

Lemma ready_stream self d : ready self d = true -> live_stream d (stream self) = true.
Proof. unfold ready. intros H. now repeat (apply andb_prop in H as [H ?]). Qed.

Lemma ready_pointers self d :
  ready self d = true -> forallb (live_ptr d) (sim_pointers self) = true.
Proof. unfold ready. intros H. now apply andb_prop in H as [_ ?]. Qed.

Section fault_free_runs.
Context (rt : Runtime) (Hff : fault_free rt).

Lemma launch_step gd bd sh s a d :
  live_stream d s = true ->
  forallb (live_ptr d) (pointers a) = true ->
  exists d1,
    (hip.hipModuleLaunchKernel rt gd bd sh s a ≫= hip_check) d = Returns tt d1 /\
    trace d1 = trace d ++ [ELaunch gd bd sh s a] /\
    same_resources d d1.
Proof.
  intros Hs Hp. eexists. split; [|split].
  - unfold mbind, M_bind, hip.hipModuleLaunchKernel, names_released.
    rewrite Hs, Hp. simpl. rewrite (proj1 (Hff _ _)). reflexivity.
  - reflexivity.
  - split; [reflexivity|]. intros p. apply live_ptr_launch_effect.
Qed.

Lemma sync_step s d :
  live_stream d s = true ->
  (hip.hipStreamSynchronize rt s ≫= hip_check) d = Returns tt (log (ESync s) d).
Proof.
  intros Hs. unfold mbind, M_bind, hip.hipStreamSynchronize, names_released.
  rewrite Hs. simpl. rewrite (proj1 (Hff _ _)). reflexivity.
Qed.

(** A launch built by [extra] on a ready simulator. *)
Lemma sim_launch_step self gd s dt k a b c e d :
  ready self d = true ->
  live_stream d s = true ->
  exists d1,
    (hip.hipModuleLaunchKernel rt gd (block_size self) 0 s (extra self dt k a b c e)
       ≫= hip_check) d = Returns tt d1 /\
    trace d1 = trace d ++ [ELaunch gd (block_size self) 0 s (extra self dt k a b c e)] /\
    same_resources d d1 /\ ready self d1 = true.
Proof.
  intros Hr Hs.
  destruct (launch_step gd (block_size self) 0 s (extra self dt k a b c e) d Hs)
    as (d1 & H1 & H2 & H3).
  { apply (ready_pointers self d Hr). }
  exists d1. repeat split; try assumption; try apply H3.
  now rewrite (same_resources_ready self d d1 H3).
Qed.

End fault_free_runs.

Section fault_free_methods.
Context (rt : Runtime) (Hff : fault_free rt).

Lemma sim_sync_step self d :
  ready self d = true ->
  exists d1,
    (hip.hipStreamSynchronize rt (stream self) ≫= hip_check) d = Returns tt d1 /\
    trace d1 = trace d ++ [ESync (stream self)] /\
    same_resources d d1 /\ ready self d1 = true.
Proof.
  intros Hr. exists (log (ESync (stream self)) d). repeat split.
  - apply (sync_step rt Hff). now apply ready_stream.
  - now rewrite (same_resources_ready self d _ (same_resources_log _ d)).
Qed.

(** The external-only branch when no call fails. *)
Lemma external_only_run self dt k d :
  ready self d = true ->
  let b := block_size self in
  let s := stream self in
  let ns_grid_size := ((grid_size self).1.1, 1, 1) in
  let we_grid_size := (1, (grid_size self).1.2, 1) in
  let hx := x_halo (var0 (u0 self)) in
  let hy := y_halo (var0 (u0 self)) in
  exists d',
    substepDimsplit rt self dt k true false d = Returns tt d' /\
    trace d' = trace d ++
      [ ELaunch ns_grid_size b 0 s (extra self dt k 0 (ny self - hy) (nx self) (ny self));
        ESync s;
        ELaunch ns_grid_size b 0 s (extra self dt k 0 0 (nx self) hy);
        ESync s;
        ELaunch we_grid_size b 0 s (extra self dt k 0 0 hx (ny self));
        ESync s;
        ELaunch we_grid_size b 0 s (extra self dt k (nx self - hx) 0 (nx self) (ny self)) ] /\
    same_resources d d'.
Proof.
  intros Hr b s ns we hx hy. unfold substepDimsplit. cbn [andb negb].
  destruct (sim_launch_step rt Hff self ns s dt k 0 (ny self - hy) (nx self) (ny self)
              d Hr (ready_stream _ _ Hr)) as (d1 & E1 & T1 & S1 & R1).
  rewrite (bind_Returns _ _ _ _ _ E1).
  destruct (sim_sync_step self d1 R1) as (d2 & E2 & T2 & S2 & R2).
  rewrite (bind_Returns _ _ _ _ _ E2).
  destruct (sim_launch_step rt Hff self ns s dt k 0 0 (nx self) hy
              d2 R2 (ready_stream _ _ R2)) as (d3 & E3 & T3 & S3 & R3).
  rewrite (bind_Returns _ _ _ _ _ E3).
  destruct (sim_sync_step self d3 R3) as (d4 & E4 & T4 & S4 & R4).
  rewrite (bind_Returns _ _ _ _ _ E4).
  destruct (sim_launch_step rt Hff self we s dt k 0 0 hx (ny self)
              d4 R4 (ready_stream _ _ R4)) as (d5 & E5 & T5 & S5 & R5).
  rewrite (bind_Returns _ _ _ _ _ E5).
  destruct (sim_sync_step self d5 R5) as (d6 & E6 & T6 & S6 & R6).
  rewrite (bind_Returns _ _ _ _ _ E6).
  destruct (sim_launch_step rt Hff self we s dt k (nx self - hx) 0 (nx self) (ny self)
              d6 R6 (ready_stream _ _ R6)) as (d7 & E7 & T7 & S7 & R7).
  rewrite (bind_Returns _ _ _ _ _ E7).
  exists d7. split; [reflexivity|]. split.
  - rewrite T7, T6, T5, T4, T3, T2, T1. now rewrite <- !app_assoc.
  - eauto 10 using same_resources_trans.
Qed.

End fault_free_methods.

(** *** What [substepDimsplit] does, whatever the runtime answers *)

Lemma substepDimsplit_actions rt self dt k external internal d :
  Forall (substep_action self dt k)
         (issued d (substepDimsplit rt self dt k external internal d)).
Proof.
  unfold substepDimsplit.
  destruct external, internal; cbn [andb negb];
    repeat (step;
            [ apply Forall_app; split; [repeat constructor|]
            | rewrite app_nil_r; repeat constructor
            | rewrite app_nil_r; repeat constructor ]);
    rewrite issued_ret; constructor.
Qed.

(** With a flag set, the first host action of [substepDimsplit] is a
    kernel launch, whatever the runtime answers. *)
Lemma substepDimsplit_first_launch rt self dt k external internal d :
  external || internal = true ->
  exists gd s x0 y0 x1 y1 rest,
    issued d (substepDimsplit rt self dt k external internal d) =
    ELaunch gd (block_size self) 0 s (extra self dt k x0 y0 x1 y1) :: rest.
Proof.
  intros Hf. unfold substepDimsplit.
  destruct external, internal; try discriminate; cbn [andb negb];
    step; repeat eexists; reflexivity.
Qed.

Lemma both_flags_issued rt self dt k d :
  issued d (substepDimsplit rt self dt k true true d) =
  [ELaunch (grid_size self) (block_size self) 0 (stream self)
     (extra self dt k 0 0 (nx self) (ny self))].
Proof.
  unfold substepDimsplit. cbn [andb negb].
  step; rewrite ?issued_ret; reflexivity.
Qed.

Lemma internal_only_issued rt self dt k d :
  issued d (substepDimsplit rt self dt k false true d) =
  [ELaunch (grid_size self) (block_size self) 0 (internal_stream self)
     (extra self dt k
        (x_halo (var0 (u0 self))) (y_halo (var0 (u0 self)))
        (nx self - x_halo (var0 (u0 self)))
        (ny self - y_halo (var0 (u0 self))))].
Proof.
  unfold substepDimsplit. cbn [andb negb].
  step; rewrite ?issued_ret; reflexivity.
Qed.

Lemma external_only_issued rt self dt k d :
  fault_free rt ->
  ready self d = true ->
  issued d (substepDimsplit rt self dt k true false d) =
    [ ELaunch ((grid_size self).1.1, 1, 1) (block_size self) 0 (stream self)
        (extra self dt k 0 (ny self - y_halo (var0 (u0 self))) (nx self) (ny self));
      ESync (stream self);
      ELaunch ((grid_size self).1.1, 1, 1) (block_size self) 0 (stream self)
        (extra self dt k 0 0 (nx self) (y_halo (var0 (u0 self))));
      ESync (stream self);
      ELaunch (1, (grid_size self).1.2, 1) (block_size self) 0 (stream self)
        (extra self dt k 0 0 (x_halo (var0 (u0 self))) (ny self));
      ESync (stream self);
      ELaunch (1, (grid_size self).1.2, 1) (block_size self) 0 (stream self)
        (extra self dt k (nx self - x_halo (var0 (u0 self))) 0 (nx self) (ny self)) ].
Proof.
  intros Hff Hr.
  destruct (external_only_run rt Hff self dt k d Hr) as (d' & E & T & _).
  rewrite E. now apply issued_app.
Qed.

(** Membership in a region, as inequalities. *)
Lemma inside_iff r x y :
  inside r x y = true <-> x0 r <= x < x1 r /\ y0 r <= y < y1 r.
Proof.
  unfold inside. rewrite !andb_true_iff, !Z.leb_le, !Z.ltb_lt. lia.
Qed.

(** ** The claims *)

(** C3 (amended).  In external-only mode ([external = true],
    [internal = false]), when no call fails on a simulator whose streams
    and buffers are live, [substepDimsplit] issues exactly four kernel
    launches, in the order north, south, west, east, all on the primary
    stream [self.stream]; each of the first three is immediately followed
    by a barrier on the primary stream before the next launch is issued,
    and the call returns right after enqueuing the east launch: seven
    host actions, three of them barriers. *)
Theorem external_only_launch_order rt self dt k d :
  fault_free rt ->
  ready self d = true ->
  issued d (substepDimsplit rt self dt k true false d) =
    [ ELaunch ((grid_size self).1.1, 1, 1) (block_size self) 0 (stream self)
        (extra self dt k 0 (ny self - y_halo (var0 (u0 self))) (nx self) (ny self));
      ESync (stream self);
      ELaunch ((grid_size self).1.1, 1, 1) (block_size self) 0 (stream self)
        (extra self dt k 0 0 (nx self) (y_halo (var0 (u0 self))));
      ESync (stream self);
      ELaunch (1, (grid_size self).1.2, 1) (block_size self) 0 (stream self)
        (extra self dt k 0 0 (x_halo (var0 (u0 self))) (ny self));
      ESync (stream self);
      ELaunch (1, (grid_size self).1.2, 1) (block_size self) 0 (stream self)
        (extra self dt k (nx self - x_halo (var0 (u0 self))) 0 (nx self) (ny self)) ]
  /\ exists d', substepDimsplit rt self dt k true false d = Returns tt d'.
Proof.
  intros Hff Hr. split; [now apply external_only_issued|].
  destruct (external_only_run rt Hff self dt k d Hr) as (d' & E & _).
  now exists d'.
Qed.

Lemma external_only_launch_order_witness :
  fault_free Sample.runtime /\
  ready Sample.sim Sample.device = true /\
  map is_launch
    (issued Sample.device
       (substepDimsplit Sample.runtime Sample.sim 1 0 true false Sample.device)) =
  [true; false; true; false; true; false; true].
Proof.
  assert (Hff : fault_free Sample.runtime) by (intros h ev; split; reflexivity).
  assert (Hr : ready Sample.sim Sample.device = true) by (vm_compute; reflexivity).
  split; [exact Hff|]. split; [exact Hr|].
  rewrite (proj1 (external_only_launch_order Sample.runtime Sample.sim 1 0
                    Sample.device Hff Hr)).
  reflexivity.
Defined.

(** C3, as stated, fails: on the example grid the east launch, the last
    action of the call, is followed by no barrier. *)
Lemma external_only_east_not_synced :
  each_launch_synced (stream Sample.sim)
    (issued Sample.device
       (substepDimsplit Sample.runtime Sample.sim 1 0 true false Sample.device)) = false.
Proof. vm_compute. reflexivity. Qed.

(** C5.  With both flags true, [substepDimsplit] issues exactly one host
    action: one kernel launch on the primary stream whose sub-rectangle
    arguments are [x0 = 0], [y0 = 0], [x1 = nx], [y1 = ny]; no other
    launch and no synchronization, whatever status the runtime reports.
    For dimensions that fit a C [int] the kernel receives the full
    rectangle [[0,nx) x [0,ny)]. *)
Theorem both_flags_one_full_launch rt self dt k d :
  exists a,
    issued d (substepDimsplit rt self dt k true true d) =
      [ELaunch (grid_size self) (block_size self) 0 (stream self) a] /\
    a_x0 a = c_int 0 /\ a_y0 a = c_int 0 /\
    a_x1 a = c_int (nx self) /\ a_y1 a = c_int (ny self) /\
    (int_range (nx self) -> int_range (ny self) ->
     launched_regions (issued d (substepDimsplit rt self dt k true true d)) =
     [ {| x0 := 0; y0 := 0; x1 := nx self; y1 := ny self |} ]).
Proof.
  exists (extra self dt k 0 0 (nx self) (ny self)).
  rewrite both_flags_issued. repeat split.
  intros Hx Hy.
  cbn [launched_regions omap list_omap region_of extra a_x0 a_y0 a_x1 a_y1].
  rewrite !value_c_int by (assumption || (unfold int_range; lia)).
  reflexivity.
Qed.

Lemma both_flags_one_full_launch_witness :
  int_range (nx Sample.sim) /\
  int_range (ny Sample.sim) /\
  launched_regions
    (issued Sample.device
       (substepDimsplit Sample.runtime Sample.sim 1 0 true true Sample.device)) =
  [ {| x0 := 0; y0 := 0; x1 := 32; y1 := 16 |} ].
Proof.
  assert (Hx : int_range (nx Sample.sim)) by (unfold int_range; simpl; lia).
  assert (Hy : int_range (ny Sample.sim)) by (unfold int_range; simpl; lia).
  split; [exact Hx|]. split; [exact Hy|].
  destruct (both_flags_one_full_launch Sample.runtime Sample.sim 1 0 Sample.device)
    as (a & _ & _ & _ & _ & _ & Hreg).
  exact (Hreg Hx Hy).
Defined.

(** C6.  In internal-only mode ([external = false], [internal = true]),
    [substepDimsplit] issues exactly one host action: one kernel launch
    over [[x_halo, nx - x_halo) x [y_halo, ny - y_halo)], enqueued on
    [self.internal_stream]; nothing is enqueued on the primary stream
    (the two attributes holding different streams).  For bounds that fit
    a C [int] the kernel receives exactly that sub-rectangle. *)
Theorem internal_only_one_launch rt self dt k d :
  stream self <> internal_stream self ->
  exists a,
    issued d (substepDimsplit rt self dt k false true d) =
      [ELaunch (grid_size self) (block_size self) 0 (internal_stream self) a] /\
    a_x0 a = c_int (x_halo (var0 (u0 self))) /\
    a_y0 a = c_int (y_halo (var0 (u0 self))) /\
    a_x1 a = c_int (nx self - x_halo (var0 (u0 self))) /\
    a_y1 a = c_int (ny self - y_halo (var0 (u0 self))) /\
    Forall (fun ev => launch_stream ev <> Some (stream self))
           (issued d (substepDimsplit rt self dt k false true d)) /\
    (int_range (x_halo (var0 (u0 self))) ->
     int_range (y_halo (var0 (u0 self))) ->
     int_range (nx self - x_halo (var0 (u0 self))) ->
     int_range (ny self - y_halo (var0 (u0 self))) ->
     launched_regions (issued d (substepDimsplit rt self dt k false true d)) =
     [ {| x0 := x_halo (var0 (u0 self)); y0 := y_halo (var0 (u0 self));
          x1 := nx self - x_halo (var0 (u0 self));
          y1 := ny self - y_halo (var0 (u0 self)) |} ]).
Proof.
  intros Hne.
  exists (extra self dt k
            (x_halo (var0 (u0 self))) (y_halo (var0 (u0 self)))
            (nx self - x_halo (var0 (u0 self))) (ny self - y_halo (var0 (u0 self)))).
  rewrite internal_only_issued. split; [reflexivity|].
  repeat split.
  - constructor; [|constructor]. simpl. congruence.
  - intros H1 H2 H3 H4.
    cbn [launched_regions omap list_omap region_of extra a_x0 a_y0 a_x1 a_y1].
    now rewrite !value_c_int by assumption.
Qed.

Lemma internal_only_one_launch_witness :
  stream Sample.sim <> internal_stream Sample.sim /\
  (exists a,
     issued Sample.device
       (substepDimsplit Sample.runtime Sample.sim 1 0 false true Sample.device) =
     [ELaunch (2, 2, 1) (16, 8, 1) 0 2%N a]) /\
  launched_regions
    (issued Sample.device
       (substepDimsplit Sample.runtime Sample.sim 1 0 false true Sample.device)) =
  [ {| x0 := 2; y0 := 2; x1 := 30; y1 := 14 |} ].
Proof.
  assert (Hne : stream Sample.sim <> internal_stream Sample.sim) by discriminate.
  split; [exact Hne|].
  destruct (internal_only_one_launch Sample.runtime Sample.sim 1 0 Sample.device Hne)
    as (a & E & _ & _ & _ & _ & _ & Hreg).
  split; [now exists a|].
  apply Hreg; unfold int_range; simpl; lia.
Defined.

(** C9 (amended).  With [external = false] and [internal = false] the
    substep scheduler is a silent no-op, for every runtime and every
    device state: it returns normally (no exception), the device state
    (buffers, streams, CFL buffer) is the one it started from, and it
    performs no host action at all: no kernel launch and no warning. *)
Theorem no_flags_silent_noop rt self dt k d :
  substepDimsplit rt self dt k false false d = Returns tt d /\
  substep rt self dt k false false d = Returns tt d /\
  issued d (substepDimsplit rt self dt k false false d) = [] /\
  existsb is_launch (issued d (substepDimsplit rt self dt k false false d)) = false /\
  existsb is_warning (issued d (substepDimsplit rt self dt k false false d)) = false.
Proof.
  assert (E : substepDimsplit rt self dt k false false d = Returns tt d) by reflexivity.
  rewrite E, issued_same. repeat split.
Qed.

(** C9, as stated, fails: on the example simulator the call with both
    flags false produces no warning. *)
Lemma no_flags_no_warning :
  existsb is_warning
    (issued Sample.device
       (substepDimsplit Sample.runtime Sample.sim 1 0 false false Sample.device)) = false.
Proof. vm_compute. reflexivity. Qed.

(** C7.  [swapBuffers] exchanges the two field sets of the simulator and
    nothing else: the device (every buffer's contents, the streams, the
    trace) is untouched, so no data is copied and no call is made; applied
    twice it gives back the simulator it started from; and [getOutput]
    returns the field set that currently is [u0]. *)
Theorem swapBuffers_exchanges_roles rt self d :
  u0 (swapBuffers self) = u1 self /\
  u1 (swapBuffers self) = u0 self /\
  swapBuffers (swapBuffers self) = self /\
  call rt self OswapBuffers d = Returns (swapBuffers self) d /\
  getOutput self = u0 self /\
  getOutput (swapBuffers self) = u1 self /\
  getOutput (swapBuffers (swapBuffers self)) = getOutput self.
Proof.
  destruct self. repeat split.
Qed.

(** C4.  For every [dt], [step_number] and flag pair, [substep] is
    [substepDimsplit] at half the time step and the same substep index;
    every kernel launch it issues, whatever the runtime answers, carries
    the time step [0.5 * dt] and the substep index [step_number]; with a
    flag set, its first host action is such a launch. *)
Theorem substep_halves_dt rt self dt step_number external internal d :
  substep rt self dt step_number external internal d =
    substepDimsplit rt self ((1 # 2) * dt)%Q step_number external internal d /\
  Forall (fun ev =>
            forall gd bd sh s a, ev = ELaunch gd bd sh s a ->
              a_dt a = c_float ((1 # 2) * dt)%Q /\ a_substep a = c_int step_number)
         (issued d (substep rt self dt step_number external internal d)) /\
  (if external || internal
   then exists gd bd sh s a rest,
          issued d (substep rt self dt step_number external internal d) =
          ELaunch gd bd sh s a :: rest
   else issued d (substep rt self dt step_number external internal d) = []).
Proof.
  split; [reflexivity|]. split.
  - unfold substep.
    eapply Forall_impl; [apply substepDimsplit_actions|].
    intros ev Hev gd bd sh s a ->. exact Hev.
  - unfold substep. destruct (external || internal) eqn:Hf.
    + destruct (substepDimsplit_first_launch rt self ((1 # 2) * dt)%Q step_number
                  external internal d Hf) as (gd & s & a & b & c & e & rest & E).
      rewrite E. repeat eexists.
    + apply orb_false_elim in Hf as [-> ->]. apply issued_same.
Qed.

(** C1.  For every grid with [nx >= 2 * x_halo] and [ny >= 2 * y_halo]
    (halo widths 2, dimensions that fit a C [int]): the sub-rectangles of
    the four launches of external-only mode are north
    [[0,nx) x [ny-2,ny)], south [[0,nx) x [0,2)], west [[0,2) x [0,ny)]
    and east [[nx-2,nx) x [0,ny)]; a cell lies in one of them exactly when
    it lies in the boundary strip of width 2 of [[0,nx) x [0,ny)]; the
    sub-rectangle of internal-only mode is [[2,nx-2) x [2,ny-2)], and a
    cell lies in it exactly when it lies in the full rectangle and not in
    the strip; so every cell of the full rectangle is covered and none
    lies in both the strip and the interior. *)
Theorem boundary_and_interior_partition rt self dt k d x y :
  fault_free rt ->
  ready self d = true ->
  x_halo (var0 (u0 self)) = 2 ->
  y_halo (var0 (u0 self)) = 2 ->
  2 * x_halo (var0 (u0 self)) <= nx self < 2 ^ 31 ->
  2 * y_halo (var0 (u0 self)) <= ny self < 2 ^ 31 ->
  let ext := launched_regions (issued d (substepDimsplit rt self dt k true false d)) in
  let int := launched_regions (issued d (substepDimsplit rt self dt k false true d)) in
  ext = [ {| x0 := 0; y0 := ny self - 2; x1 := nx self; y1 := ny self |};
          {| x0 := 0; y0 := 0; x1 := nx self; y1 := 2 |};
          {| x0 := 0; y0 := 0; x1 := 2; y1 := ny self |};
          {| x0 := nx self - 2; y0 := 0; x1 := nx self; y1 := ny self |} ] /\
  int = [ {| x0 := 2; y0 := 2; x1 := nx self - 2; y1 := ny self - 2 |} ] /\
  (covered ext x y = true <-> boundary_strip (nx self) (ny self) 2 2 x y) /\
  (covered int x y = true <->
     full_rectangle (nx self) (ny self) x y /\
     ~ boundary_strip (nx self) (ny self) 2 2 x y) /\
  (full_rectangle (nx self) (ny self) x y ->
     covered ext x y = true \/ covered int x y = true) /\
  ~ (covered ext x y = true /\ covered int x y = true).
Proof.
  intros Hff Hr Hhx Hhy Hnx Hny ext int. subst ext int.
  rewrite (external_only_issued rt self dt k d Hff Hr), internal_only_issued.
  rewrite Hhx, Hhy in *.
  cbn [launched_regions omap list_omap region_of extra a_x0 a_y0 a_x1 a_y1].
  rewrite !value_c_int by (unfold int_range; lia).
  split; [reflexivity|]. split; [reflexivity|].
  unfold covered. cbn [existsb].
  rewrite ?orb_false_r, !orb_true_iff, !inside_iff.
  unfold boundary_strip, full_rectangle. cbn [x0 y0 x1 y1].
  lia.
Qed.

Lemma boundary_and_interior_partition_witness :
  fault_free Sample.runtime /\
  ready Sample.sim Sample.device = true /\
  2 * x_halo (var0 (u0 Sample.sim)) <= nx Sample.sim < 2 ^ 31 /\
  2 * y_halo (var0 (u0 Sample.sim)) <= ny Sample.sim < 2 ^ 31 /\
  (covered
     (launched_regions
        (issued Sample.device
           (substepDimsplit Sample.runtime Sample.sim 1 0 true false Sample.device)))
     0 15 = true <->
   boundary_strip 32 16 2 2 0 15).
Proof.
  assert (Hff : fault_free Sample.runtime) by (intros h ev; split; reflexivity).
  assert (Hr : ready Sample.sim Sample.device = true) by (vm_compute; reflexivity).
  assert (Hx : 2 * x_halo (var0 (u0 Sample.sim)) <= nx Sample.sim < 2 ^ 31)
    by (simpl; lia).
  assert (Hy : 2 * y_halo (var0 (u0 Sample.sim)) <= ny Sample.sim < 2 ^ 31)
    by (simpl; lia).
  split; [exact Hff|]. split; [exact Hr|]. split; [exact Hx|]. split; [exact Hy|].
  exact (proj1 (proj2 (proj2
    (boundary_and_interior_partition Sample.runtime Sample.sim 1 0 Sample.device 0 15
       Hff Hr eq_refl eq_refl Hx Hy)))).
Defined.

(** A corner cell lies in two of the four boundary regions: south and
    west both hold the cell [(0, 0)]. *)
Example corner_in_two_regions :
  map (fun r => inside r 0 0)
      (launched_regions
         (issued Sample.device
            (substepDimsplit Sample.runtime Sample.sim 1 0 true false Sample.device)))
  = [false; true; true; false].
Proof. vm_compute. reflexivity. Qed.

(** *** The index search of [hipblasIsamin] *)

Lemma amin_scan_spec xs : forall pre best besti b,
  pre !! besti = Some b ->
  best = Qabs b ->
  Forall (fun v => (Qabs b <= Qabs v)%Q) pre ->
  exists m,
    (pre ++ xs) !! amin_scan best besti (length pre) xs = Some m /\
    Forall (fun v => (Qabs m <= Qabs v)%Q) (pre ++ xs).
Proof.
  induction xs as [|x xs IH]; intros pre best besti b Hb Hbest Hpre.
  - simpl. rewrite app_nil_r. now exists b.
  - simpl. replace (pre ++ x :: xs) with ((pre ++ [x]) ++ xs)
      by now rewrite <- app_assoc.
    replace (S (length pre)) with (length (pre ++ [x]))
      by (rewrite length_app; simpl; lia).
    destruct (Qle_bool best (Qabs x)) eqn:E.
    + apply (IH (pre ++ [x]) best besti b); trivial.
      * now apply lookup_app_l_Some.
      * apply Forall_app. split; [assumption|].
        constructor; [|constructor]. subst best. now apply Qle_bool_iff.
    + assert (Hlt : (Qabs x < Qabs b)%Q).
      { apply Qnot_le_lt. intros Hle. subst best.
        apply Qle_bool_iff in Hle. congruence. }
      apply (IH (pre ++ [x]) (Qabs x) (length pre) x); trivial.
      * now apply list_lookup_middle.
      * apply Forall_app. split.
        -- eapply Forall_impl; [exact Hpre|]. intros v Hv. simpl in Hv.
           apply Qlt_le_weak in Hlt. now apply (Qle_trans _ (Qabs b)).
        -- constructor; [apply Qle_refl|constructor].
Qed.

Lemma gather_all xs : gather (length xs) 1 xs = Some xs.
Proof.
  unfold gather. apply mapM_Some_2.
  apply Forall2_same_length_lookup_2.
  - now rewrite length_seq.
  - intros i j v Hj Hv. apply lookup_seq in Hj as [-> _].
    simpl. now rewrite Nat.mul_1_r.
Qed.

(** On a whole non-empty buffer with unit stride, [isamin] is the 1-based
    position of an element of least magnitude. *)
Lemma isamin_spec xs :
  xs <> [] ->
  exists i m,
    isamin (Z.of_nat (length xs)) xs 1 = Some (Z.of_nat i + 1) /\
    xs !! i = Some m /\
    Forall (fun v => (Qabs m <= Qabs v)%Q) xs.
Proof.
  intros Hne. unfold isamin.
  destruct xs as [|x ys]; [congruence|].
  replace (Z.of_nat (length (x :: ys)) <=? 0) with false
    by (symmetry; apply Z.leb_gt; simpl; lia).
  simpl orb. cbv iota. rewrite Nat2Z.id.
  change (Z.to_nat 1) with 1%nat. rewrite gather_all.
  destruct (amin_scan_spec ys [x] (Qabs x) 0%nat x) as (m & Hm & Hall);
    try reflexivity.
  { constructor; [apply Qle_refl|constructor]. }
  exists (amin_scan (Qabs x) 0 1 ys), m. split; [|split]; try assumption.
  f_equal. lia.
Qed.

(** *** The reduction when no call fails *)

Section fault_free_reduction.
Context (rt : Runtime) (Hff : fault_free rt).

Lemma malloc_step n d :
  (hip.hipMalloc rt n ≫= hip_check) d =
  Returns (fresh (dom (mem d)))
          (log (EMalloc n) (set_mem (<[fresh (dom (mem d)) := Uninit]> (mem d)) d)).
Proof.
  unfold mbind, M_bind, hip.hipMalloc. rewrite (proj1 (Hff _ _)). reflexivity.
Qed.

Lemma blasCreate_step d :
  (hipblas.hipblasCreate rt ≫= hip_check) d = Returns tt (log EBlasCreate d).
Proof. reflexivity. Qed.

Lemma blasDestroy_step h d :
  (hipblas.hipblasDestroy rt h ≫= hip_check) d = Returns tt (log EBlasDestroy d).
Proof. reflexivity. Qed.

Lemma isamin_step h n x incx r d xs i :
  live_ptr d x = true ->
  live_ptr d r = true ->
  mem d !! x = Some (Floats xs) ->
  isamin n xs incx = Some i ->
  (hipblas.hipblasIsamin rt h n x incx r ≫= hip_check) d =
  Returns tt (log (EIsamin n x incx r) (set_mem (<[r := Ints [i]]> (mem d)) d)).
Proof.
  intros Hx Hr Hm Hi.
  unfold mbind, M_bind, hipblas.hipblasIsamin, names_released.
  rewrite Hx, Hr. simpl. rewrite (proj2 (Hff _ _)), Hm, Hi. reflexivity.
Qed.

Lemma memcpy_int32_step dst old src n s d i rest :
  live_stream d s = true ->
  mem d !! src = Some (Ints (i :: rest)) ->
  (hip.hipMemcpyAsync_int32 rt dst old src n s ≫= hip_check) d =
  Returns i (log (EMemcpyAsync dst src n hipMemcpyDeviceToHost s) d).
Proof.
  intros Hs Hm.
  assert (Hp : live_ptr d src = true).
  { unfold live_ptr. apply bool_decide_eq_true_2. rewrite Hm. eauto. }
  unfold mbind, M_bind, hip.hipMemcpyAsync_int32, names_released.
  rewrite Hs, Hp. simpl. rewrite (proj1 (Hff _ _)), Hm. reflexivity.
Qed.

Lemma memcpy_float32_step dst old src n s d xs :
  live_stream d s = true ->
  mem d !! src = Some (Floats xs) ->
  n = Z.of_nat (length xs) * 4 ->
  (hip.hipMemcpyAsync_float32 rt dst old src n s ≫= hip_check) d =
  Returns xs (log (EMemcpyAsync dst src n hipMemcpyDeviceToHost s) d).
Proof.
  intros Hs Hm ->.
  assert (Hp : live_ptr d src = true).
  { unfold live_ptr. apply bool_decide_eq_true_2. rewrite Hm. eauto. }
  unfold mbind, M_bind, hip.hipMemcpyAsync_float32, names_released.
  rewrite Hs, Hp. simpl. rewrite (proj1 (Hff _ _)), Hm.
  rewrite Z.div_mul by lia. rewrite Nat2Z.id, Nat.leb_refl.
  now rewrite firstn_all.
Qed.

Lemma getitem_step arr xs i v d :
  xs !! i = Some v ->
  getitem arr xs (Z.of_nat i) d = Returns v (log (EGetitem arr (Z.of_nat i)) d).
Proof.
  intros Hv. unfold getitem.
  pose proof (lookup_lt_Some _ _ _ Hv) as Hlt.
  replace (Z.of_nat i <? 0) with false by (symmetry; apply Z.ltb_ge; lia).
  replace (0 <=? Z.of_nat i) with true by (symmetry; apply Z.leb_le; lia).
  replace (Z.of_nat i <? Z.of_nat (length xs)) with true
    by (symmetry; apply Z.ltb_lt; lia).
  simpl. now rewrite Nat2Z.id, Hv.
Qed.

Lemma streamDestroy_step s d :
  live_stream d s = true ->
  (hip.hipStreamDestroy rt s ≫= hip_check) d =
  Returns tt (log (EStreamDestroy s) (set_streams (streams d ∖ {[s]}) d)).
Proof.
  intros Hs. unfold mbind, M_bind, hip.hipStreamDestroy, names_released.
  rewrite Hs. simpl. rewrite (proj1 (Hff _ _)). reflexivity.
Qed.

Lemma free_step p d :
  live_ptr d p = true ->
  (hip.hipFree rt p ≫= hip_check) d =
  Returns tt (log (EFree p) (set_mem (delete p (mem d)) d)).
Proof.
  intros Hp. unfold mbind, M_bind, hip.hipFree, names_released.
  rewrite Hp. simpl. rewrite (proj1 (Hff _ _)). reflexivity.
Qed.

Lemma min_hipblas_run self d buf :
  live_stream d (stream self) = true ->
  mem d !! ptr (cfl_data self) = Some (Floats buf) ->
  Z.of_nat (length buf) = size (cfl_data self) ->
  buf <> [] ->
  let s := stream self in
  let cfl := ptr (cfl_data self) in
  let n := size (cfl_data self) in
  let indx_d := fresh (dom (mem d)) in
  exists i m d',
    min_hipblas rt self n cfl s d = Returns m d' /\
    buf !! i = Some m /\
    Forall (fun v => (Qabs m <= Qabs v)%Q) buf /\
    trace d' = trace d ++
      [ EMalloc 4; EBlasCreate; EIsamin n cfl 1 indx_d; EBlasDestroy;
        EMemcpyAsync indx_h indx_d 4 hipMemcpyDeviceToHost s;
        EMemcpyAsync x_temp cfl (n * 4) hipMemcpyDeviceToHost s;
        ESync s; EGetitem x_temp (Z.of_nat i);
        EStreamDestroy s; EFree cfl ] /\
    mem d' = delete cfl (<[indx_d := Ints [Z.of_nat i + 1]]>
                           (<[indx_d := Uninit]> (mem d))) /\
    streams d' = streams d ∖ {[s]}.
Proof.
  intros Hs Hm Hn Hne s cfl n indx_d.
  destruct (isamin_spec buf Hne) as (i & m & Hi & Him & Hall).
  exists i, m.
  assert (Hfresh : indx_d <> cfl).
  { intros E. apply (is_fresh (dom (mem d))). fold indx_d. rewrite E.
    apply elem_of_dom. unfold cfl. rewrite Hm. eauto. }
  unfold min_hipblas, itemsize.
  rewrite (bind_Returns _ _ _ _ _ (malloc_step 4 d)). fold indx_d.
  rewrite (bind_Returns _ _ _ _ _ (blasCreate_step _)).
  erewrite (bind_Returns _ _ _ _ _ (isamin_step tt n cfl 1 indx_d _ buf _ _ _ _ _)).
  rewrite (bind_Returns _ _ _ _ _ (blasDestroy_step _ _)).
  erewrite (bind_Returns _ _ _ _ _ (memcpy_int32_step _ _ indx_d _ s _ _ [] _ _)).
  erewrite (bind_Returns _ _ _ _ _ (memcpy_float32_step _ _ cfl _ s _ buf _ _ _)).
  erewrite (bind_Returns _ _ _ _ _ (sync_step rt Hff s _ _)).
  replace (Z.of_nat i + 1 - 1) with (Z.of_nat i) by lia.
  rewrite (bind_Returns _ _ _ _ _ (getitem_step x_temp buf i m _ Him)).
  erewrite (bind_Returns _ _ _ _ _ (streamDestroy_step s _ _)).
  erewrite (bind_Returns _ _ _ _ _ (free_step cfl _ _)).
  eexists. split; [reflexivity|]. split; [assumption|]. split; [assumption|].
  split; [|split]; simpl.
  - rewrite <- !app_assoc. reflexivity.
  - reflexivity.
  - reflexivity.
  Unshelve.
  all: try assumption; try reflexivity; unfold live_ptr, live_stream; simpl;
    try apply bool_decide_eq_true_2.
  all: rewrite ?lookup_insert_eq, ?lookup_insert_ne by assumption; eauto.
  all: try (unfold n; lia).
  unfold n. now rewrite <- Hn.
Qed.

End fault_free_reduction.

Lemma computeDt_run rt self d buf :
  fault_free rt ->
  live_stream d (stream self) = true ->
  mem d !! ptr (cfl_data self) = Some (Floats buf) ->
  Z.of_nat (length buf) = size (cfl_data self) ->
  buf <> [] ->
  exists i m d',
    computeDt rt self d = Returns (m * (1 # 2))%Q d' /\
    buf !! i = Some m /\
    Forall (fun v => (Qabs m <= Qabs v)%Q) buf /\
    trace d' = trace d ++
      [ EMalloc 4; EBlasCreate;
        EIsamin (size (cfl_data self)) (ptr (cfl_data self)) 1 (fresh (dom (mem d)));
        EBlasDestroy;
        EMemcpyAsync indx_h (fresh (dom (mem d))) 4 hipMemcpyDeviceToHost (stream self);
        EMemcpyAsync x_temp (ptr (cfl_data self)) (size (cfl_data self) * 4)
          hipMemcpyDeviceToHost (stream self);
        ESync (stream self); EGetitem x_temp (Z.of_nat i);
        EStreamDestroy (stream self); EFree (ptr (cfl_data self)) ] /\
    live_ptr d' (ptr (cfl_data self)) = false /\
    live_stream d' (stream self) = false.
Proof.
  intros Hff Hs Hm Hn Hne.
  destruct (min_hipblas_run rt Hff self d buf Hs Hm Hn Hne)
    as (i & m & d' & E & Hi & Hall & T & Hmem & Hstr).
  exists i, m, d'. unfold computeDt.
  rewrite (bind_Returns _ _ _ _ _ E).
  repeat split; try assumption.
  - unfold live_ptr. rewrite Hmem, lookup_delete_eq.
    apply bool_decide_eq_false_2. intros [? ?]. discriminate.
  - unfold live_stream. rewrite Hstr.
    apply bool_decide_eq_false_2. apply not_elem_of_difference. right.
    now apply elem_of_singleton.
Qed.

(** C2 (amended).  For every non-empty CFL buffer whose values are all
    non-negative, when no call fails, the reduction performed by
    [min_hipblas] returns exactly the minimum element value of the buffer
    (wherever it occurs: first, last, or everywhere when all are equal),
    and [computeDt] returns that minimum scaled by 0.5. *)
Theorem computeDt_scaled_minimum rt self d buf :
  fault_free rt ->
  live_stream d (stream self) = true ->
  mem d !! ptr (cfl_data self) = Some (Floats buf) ->
  Z.of_nat (length buf) = size (cfl_data self) ->
  buf <> [] ->
  Forall (fun v => (0 <= v)%Q) buf ->
  exists m,
    is_minimum m buf /\
    returned (min_hipblas rt self (size (cfl_data self)) (ptr (cfl_data self))
                (stream self) d) = Some m /\
    returned (computeDt rt self d) = Some (m * (1 # 2))%Q.
Proof.
  intros Hff Hs Hm Hn Hne Hpos.
  destruct (min_hipblas_run rt Hff self d buf Hs Hm Hn Hne)
    as (i & m & d' & E & Hi & Hall & _).
  exists m. split; [split|split].
  - apply list_elem_of_In. eapply list_elem_of_lookup_2. exact Hi.
  - assert (Hm0 : (0 <= m)%Q).
    { rewrite Forall_forall in Hpos. apply Hpos.
      eapply list_elem_of_lookup_2. exact Hi. }
    rewrite Forall_forall in *. intros v Hv.
    specialize (Hall v Hv). specialize (Hpos v Hv). simpl in Hall.
    rewrite (Qabs_pos m Hm0), (Qabs_pos v Hpos) in Hall. exact Hall.
  - now rewrite E.
  - unfold computeDt. now rewrite (bind_Returns _ _ _ _ _ E).
Qed.

Lemma computeDt_scaled_minimum_witness :
  let buf := [3 # 10; 1 # 10; 2 # 10; 1 # 10]%Q in
  fault_free Sample.runtime /\
  Forall (fun v => (0 <= v)%Q) buf /\
  exists m,
    is_minimum m buf /\
    returned (computeDt Sample.runtime Sample.sim Sample.device) = Some (m * (1 # 2))%Q.
Proof.
  intros buf.
  assert (Hff : fault_free Sample.runtime) by (intros h ev; split; reflexivity).
  assert (Hpos : Forall (fun v => (0 <= v)%Q) buf)
    by (repeat constructor; discriminate).
  split; [exact Hff|]. split; [exact Hpos|].
  destruct (computeDt_scaled_minimum Sample.runtime Sample.sim Sample.device buf Hff)
    as (m & Hmin & _ & Hdt); try reflexivity; try discriminate; try exact Hpos.
  exists m. split; assumption.
Defined.

(** C2, as stated, fails on a buffer with a negative entry: the index
    search goes by magnitude, so on [[-2; 1; 3; 5]] the reduction returns
    [1] although the minimum is [-2], and [computeDt] returns [1/2]
    instead of [-1]. *)
Lemma computeDt_negative_entry :
  let buf := [-2; 1; 3; 5]%Q in
  let d := Sample.device_with buf in
  is_minimum (-2) buf /\
  returned (min_hipblas Sample.runtime Sample.sim 4 30%N 1%N d) = Some 1%Q /\
  returned (computeDt Sample.runtime Sample.sim d) = Some (1 * (1 # 2))%Q /\
  ~ is_minimum 1 buf /\
  ~ (1 * (1 # 2) == -2 * (1 # 2))%Q.
Proof.
  repeat split.
  - now left.
  - repeat constructor; discriminate.
  - intros [_ H]. apply Forall_inv in H. now apply H.
  - discriminate.
Qed.

(** The minimum at the first element, at the last element, and a buffer
    of equal values. *)
Example computeDt_minimum_first :
  returned (computeDt Sample.runtime Sample.sim
              (Sample.device_with [1 # 10; 3 # 10; 2 # 10; 4 # 10]%Q))
  = Some ((1 # 10) * (1 # 2))%Q.
Proof. reflexivity. Qed.

Example computeDt_minimum_last :
  returned (computeDt Sample.runtime Sample.sim
              (Sample.device_with [4 # 10; 3 # 10; 2 # 10; 1 # 10]%Q))
  = Some ((1 # 10) * (1 # 2))%Q.
Proof. reflexivity. Qed.

Example computeDt_all_equal :
  returned (computeDt Sample.runtime Sample.sim
              (Sample.device_with [1 # 4; 1 # 4; 1 # 4; 1 # 4]%Q))
  = Some ((1 # 4) * (1 # 2))%Q.
Proof. reflexivity. Qed.

(** A launch of this simulator once its CFL buffer is freed. *)
Lemma launch_after_free rt self gd s dt k a b c e d :
  live_ptr d (ptr (cfl_data self)) = false ->
  names_released d (ELaunch gd (block_size self) 0 s (extra self dt k a b c e)) = true /\
  (hip.hipModuleLaunchKernel rt gd (block_size self) 0 s (extra self dt k a b c e)
     ≫= hip_check) d =
  Undefined (log (ELaunch gd (block_size self) 0 s (extra self dt k a b c e)) d).
Proof.
  intros Hp.
  assert (Hn : names_released d
                 (ELaunch gd (block_size self) 0 s (extra self dt k a b c e)) = true).
  { unfold names_released, pointers. cbn [extra a_u0 a_u1 a_cfl_data map fst app].
    cbn [forallb]. rewrite Hp, !andb_false_r. apply orb_true_r. }
  split; [exact Hn|].
  unfold mbind, M_bind, hip.hipModuleLaunchKernel. now rewrite Hn.
Qed.

Lemma last_log ev d : last (trace (log ev d)) = Some ev.
Proof. simpl. apply last_snoc. Qed.

(** The reduction once the CFL buffer is freed: the index search is
    handed a pointer that is no live allocation of floats. *)
Lemma min_hipblas_after_free rt self n cfl s d :
  fault_free rt ->
  live_ptr d cfl = false ->
  exists d'',
    min_hipblas rt self n cfl s d = Undefined d'' /\
    last (trace d'') = Some (EIsamin n cfl 1 (fresh (dom (mem d)))).
Proof.
  intros Hff Hp. unfold min_hipblas, itemsize.
  rewrite (bind_Returns _ _ _ _ _ (malloc_step rt Hff 4 d)).
  rewrite (bind_Returns _ _ _ _ _ (blasCreate_step rt _)).
  set (d2 := log EBlasCreate _).
  exists (log (EIsamin n cfl 1 (fresh (dom (mem d)))) d2).
  split; [|apply last_log].
  apply bind_Undefined.
  unfold mbind, M_bind, hipblas.hipblasIsamin.
  destruct (names_released d2 _); [reflexivity|].
  rewrite (proj2 (Hff _ _)).
  assert (Hlook : forall xs, mem d2 !! cfl <> Some (Floats xs)).
  { intros xs. subst d2. simpl.
    destruct (decide (fresh (dom (mem d)) = cfl)) as [->|Hneq].
    - rewrite lookup_insert_eq. discriminate.
    - rewrite lookup_insert_ne by assumption.
      unfold live_ptr in Hp. apply bool_decide_eq_false_1 in Hp.
      intros Hsome. apply Hp. rewrite Hsome. eauto. }
  destruct (mem d2 !! cfl) as [[| xs |]|]; try reflexivity.
  now destruct (Hlook xs).
Qed.

(** C10.  When no call fails, a single call to [computeDt] on a live
    simulator returns half the value of the buffer element the reduction
    selects (an element of least magnitude), and before returning it frees
    the CFL device buffer and destroys the primary stream: the device
    state it leaves differs from the one it found.  On that state every
    later [substep] with a flag set stops at its first kernel launch, which
    names the freed CFL buffer (and, unless internal-only, the destroyed
    stream), and a later [computeDt] stops at [hipblasIsamin], which is
    handed the freed buffer. *)
Theorem computeDt_releases_resources rt self d buf :
  fault_free rt ->
  live_stream d (stream self) = true ->
  mem d !! ptr (cfl_data self) = Some (Floats buf) ->
  Z.of_nat (length buf) = size (cfl_data self) ->
  buf <> [] ->
  exists m d',
    computeDt rt self d = Returns (m * (1 # 2))%Q d' /\
    In m buf /\ Forall (fun v => (Qabs m <= Qabs v)%Q) buf /\
    live_ptr d' (ptr (cfl_data self)) = false /\
    live_stream d' (stream self) = false /\
    d' <> d /\
    (forall dt k external internal,
       if external || internal then
         exists ev d'',
           substep rt self dt k external internal d' = Undefined d'' /\
           last (trace d'') = Some ev /\
           is_launch ev = true /\
           names_released d' ev = true
       else substep rt self dt k external internal d' = Returns tt d') /\
    (exists d'',
       computeDt rt self d' = Undefined d'' /\
       last (trace d'') =
         Some (EIsamin (size (cfl_data self)) (ptr (cfl_data self)) 1
                 (fresh (dom (mem d'))))).
Proof.
  intros Hff Hs Hm Hn Hne.
  destruct (computeDt_run rt self d buf Hff Hs Hm Hn Hne)
    as (i & m & d' & E & Hi & Hall & T & Hp & Hst).
  exists m, d'. split; [exact E|].
  split; [apply list_elem_of_In; eapply list_elem_of_lookup_2; exact Hi|].
  split; [exact Hall|]. split; [exact Hp|]. split; [exact Hst|].
  split; [|split].
  - intros Heq. rewrite Heq in Hst. congruence.
  - intros dt k external internal. unfold substep, substepDimsplit.
    destruct external, internal; cbn [orb andb negb];
      try reflexivity;
      match goal with
      | |- context [hip.hipModuleLaunchKernel rt ?gd _ _ ?s (extra _ ?t ?j ?a ?b ?c ?e)] =>
          destruct (launch_after_free rt self gd s t j a b c e d' Hp) as [Hrel Hun];
          rewrite (bind_Undefined _ _ _ _ Hun);
          eexists; eexists; split; [reflexivity|];
          split; [apply last_log|]; split; [reflexivity|exact Hrel]
      end.
  - destruct (min_hipblas_after_free rt self (size (cfl_data self))
                (ptr (cfl_data self)) (stream self) d' Hff Hp) as (d'' & Hun & Hlast).
    exists d''. split; [|exact Hlast].
    unfold computeDt. now apply bind_Undefined.
Qed.

Lemma computeDt_releases_resources_witness :
  fault_free Sample.runtime /\
  exists m d',
    computeDt Sample.runtime Sample.sim Sample.device = Returns (m * (1 # 2))%Q d' /\
    live_ptr d' 30%N = false /\
    live_stream d' 1%N = false /\
    (exists d'', substep Sample.runtime Sample.sim 1 0 true true d' = Undefined d'') /\
    (exists d'', computeDt Sample.runtime Sample.sim d' = Undefined d'').
Proof.
  assert (Hff : fault_free Sample.runtime) by (intros h ev; split; reflexivity).
  split; [exact Hff|].
  destruct (computeDt_releases_resources Sample.runtime Sample.sim Sample.device
              [3 # 10; 1 # 10; 2 # 10; 1 # 10]%Q Hff)
    as (m & d' & E & _ & _ & Hp & Hs & _ & Hsub & d'' & Hdt & _);
    try reflexivity; try discriminate.
  exists m, d'. split; [exact E|]. split; [exact Hp|]. split; [exact Hs|].
  split.
  - destruct (Hsub 1%Q 0 true true) as (ev & d3 & H3 & _). now exists d3.
  - now exists d''.
Defined.

(** *** Barriers and host reads over whole executions *)

Lemma unsynced_app tr1 : forall pending tr2,
  unsynced pending (tr1 ++ tr2) = unsynced (unsynced pending tr1) tr2.
Proof.
  induction tr1 as [|ev tr1 IH]; intros pending tr2; [reflexivity|].
  destruct ev; simpl; apply IH.
Qed.

Lemma reads_guarded_app r w tr1 : forall pending tr2,
  reads_guarded r w pending (tr1 ++ tr2) =
  reads_guarded r w pending tr1 && reads_guarded r w (unsynced pending tr1) tr2.
Proof.
  induction tr1 as [|ev tr1 IH]; intros pending tr2; [reflexivity|].
  cbn [app reads_guarded]. rewrite IH, andb_assoc. f_equal. f_equal.
  destruct ev; reflexivity.
Qed.

Lemma no_read_guarded w self dt k tr : forall pending,
  Forall (substep_action self dt k) tr -> reads_guarded host_read w pending tr = true.
Proof.
  induction tr as [|ev tr IH]; intros pending H; [reflexivity|].
  apply Forall_cons in H as [Hev Htr].
  cbn [reads_guarded]. rewrite (IH _ Htr).
  destruct ev; simpl in *; try reflexivity; contradiction.
Qed.

Lemma synced_not_pending s pending :
  existsb (N.eqb s) (List.filter (fun q => negb (q =? s)%N) pending) = false.
Proof.
  induction pending as [|q pending IH]; [reflexivity|].
  simpl. destruct (N.eqb_spec q s) as [->|Hne]; simpl; [exact IH|].
  rewrite IH, orb_false_r. apply N.eqb_neq. congruence.
Qed.

Lemma min_hipblas_actions rt self n cfl s d :
  Forall (reduction_action s) (issued d (min_hipblas rt self n cfl s d)).
Proof.
  unfold min_hipblas.
  repeat (step;
          [ apply Forall_app; split; [repeat constructor|]
          | rewrite app_nil_r; repeat constructor
          | rewrite app_nil_r; repeat constructor ]);
    rewrite issued_ret; constructor.
Qed.

Lemma min_hipblas_reads_guarded rt self n cfl s d pending :
  reads_guarded host_read (N.eqb s) pending
    (issued d (min_hipblas rt self n cfl s d)) = true.
Proof.
  unfold min_hipblas.
  do 7 (step; cbn [app reads_guarded host_read unsynced andb];
        [|reflexivity|reflexivity]).
  step; cbn [app reads_guarded host_read unsynced andb];
    rewrite synced_not_pending; cbn [negb andb]; [|reflexivity|reflexivity].
  do 2 (step; cbn [app reads_guarded host_read unsynced andb];
        [|reflexivity|reflexivity]).
  now rewrite issued_ret.
Qed.

Lemma filter_not_watched (w f : hipStream_t -> bool) pending :
  existsb w pending = false -> existsb w (List.filter f pending) = false.
Proof.
  induction pending as [|q pending IH]; [reflexivity|].
  simpl. intros H. apply orb_false_elim in H as [Hq H].
  destruct (f q); simpl; [rewrite Hq|]; auto.
Qed.

(** With nothing pending on a watched stream and no launch to come,
    every read is guarded. *)
Lemma nothing_pending_guarded r w s tr : forall pending,
  existsb w pending = false ->
  Forall (reduction_action s) tr ->
  reads_guarded r w pending tr = true.
Proof.
  induction tr as [|ev tr IH]; intros pending E H; [reflexivity|].
  apply Forall_cons in H as [Hev Htr].
  cbn [reads_guarded]. rewrite E. cbn [negb].
  rewrite IH; [now destruct (r ev)| |exact Htr].
  destruct ev; simpl in *; try exact E; [contradiction|].
  now apply filter_not_watched.
Qed.

(** [min_hipblas] executes no barrier before its index search, the first
    read of the buffer: the reads are guarded exactly when nothing was
    pending on a watched stream at the call, or the call stopped before
    the index search. *)
Lemma min_hipblas_first_read rt self n cfl s d w pending :
  reads_guarded (reduction_read cfl) w pending
    (issued d (min_hipblas rt self n cfl s d)) =
  negb (existsb w pending) ||
  negb (existsb (device_read cfl) (issued d (min_hipblas rt self n cfl s d))).
Proof.
  destruct (existsb w pending) eqn:E.
  2:{ cbn [negb orb]. eapply nothing_pending_guarded; [exact E|].
      apply min_hipblas_actions. }
  unfold min_hipblas.
  do 2 (step; cbn [app reads_guarded existsb unsynced]; unfold reduction_read;
        cbn [device_read host_read orb andb]; [|reflexivity|reflexivity]).
  step; cbn [app reads_guarded existsb unsynced]; unfold reduction_read;
    cbn [device_read host_read]; rewrite N.eqb_refl, E;
    cbn [negb orb andb]; reflexivity.
Qed.

Lemma issued_then_ret {A B} (m : M A) (b : B) d :
  monotone m -> issued d ((m ;; mret b) d) = issued d (m d).
Proof.
  intros Hm. rewrite issued_bind by auto with trace.
  destruct (m d); rewrite ?issued_ret; apply app_nil_r.
Qed.

Lemma issued_computeDt rt self d :
  issued d (computeDt rt self d) =
  issued d (min_hipblas rt self (size (cfl_data self)) (ptr (cfl_data self))
              (stream self) d).
Proof.
  unfold computeDt. rewrite issued_bind by auto with trace.
  destruct (min_hipblas _ _ _ _ _ d); rewrite ?issued_ret; apply app_nil_r.
Qed.

Lemma call_stream rt self op d self' d' :
  call rt self op d = Returns self' d' -> stream self' = stream self.
Proof.
  destruct op; simpl; unfold mbind, M_bind.
  - destruct (substep _ _ _ _ _ _ d); intros [= <- _] || discriminate. reflexivity.
  - intros [= <- _]. reflexivity.
  - destruct (computeDt _ _ d); intros [= <- _] || discriminate. reflexivity.
Qed.

Lemma call_guarded rt self op d pending :
  reads_guarded host_read (N.eqb (stream self)) pending
    (issued d (call rt self op d)) = true /\
  Forall (barrier_on (stream self)) (issued d (call rt self op d)).
Proof.
  destruct op; cbn [call].
  - rewrite issued_then_ret by (unfold substep; auto with trace).
    unfold substep. split.
    + eapply no_read_guarded, substepDimsplit_actions.
    + eapply Forall_impl; [apply substepDimsplit_actions|].
      intros [] H; simpl in *; tauto.
  - rewrite issued_ret. split; [reflexivity|constructor].
  - rewrite issued_then_ret, issued_computeDt by auto with trace. split.
    + apply min_hipblas_reads_guarded.
    + eapply Forall_impl; [apply min_hipblas_actions|].
      intros [] H; simpl in *; tauto.
Qed.

Lemma calls_guarded rt ops : forall self d pending,
  reads_guarded host_read (N.eqb (stream self)) pending
    (issued d (calls rt self ops d)) = true /\
  Forall (barrier_on (stream self)) (issued d (calls rt self ops d)).
Proof.
  induction ops as [|op ops IH]; intros self d pending; cbn [calls].
  - rewrite issued_ret. split; [reflexivity|constructor].
  - rewrite issued_bind by auto with trace.
    destruct (call_guarded rt self op d pending) as [Hg Hb].
    rewrite reads_guarded_app, Hg. cbn [andb].
    destruct (call rt self op d) as [self' d'| |] eqn:E.
    + rewrite <- (call_stream _ _ _ _ _ _ E).
      destruct (IH self' d' (unsynced pending (issued d (Returns self' d')))) as [Hg' Hb'].
      split; [exact Hg'|]. apply Forall_app. split; [|exact Hb'].
      now rewrite (call_stream _ _ _ _ _ _ E).
    + split; [reflexivity|]. now rewrite app_nil_r.
    + split; [reflexivity|]. now rewrite app_nil_r.
Qed.

(** C8 (amended).  In every execution (any sequence of [substep],
    [swapBuffers] and [computeDt] calls, any runtime, any starting
    device):
    - whenever host code reads the copied CFL values, no launch is
      pending on the primary stream: a barrier on the primary stream has
      been executed after the last launch enqueued there;
    - the primary stream is the only stream on which a barrier is ever
      executed; none is executed on the internal stream;
    - [computeDt] executes no barrier before its index search
      [hipblasIsamin], the first read of the CFL buffer by the reduction:
      counting the device calls on the buffer as reads too, the reads of a
      [computeDt] are all guarded exactly when no launch was pending on a
      watched stream at the call, or the call stopped before the index
      search.
    When no call fails, the actions of [computeDt] are the ten listed:
    the index search, then the two copies, then the one barrier, then the
    host read. *)
Theorem reads_follow_primary_barrier rt self ops d pending :
  reads_guarded host_read (N.eqb (stream self)) pending
    (issued d (calls rt self ops d)) = true /\
  Forall (barrier_on (stream self)) (issued d (calls rt self ops d)) /\
  (forall watched waiting,
     reads_guarded (reduction_read (ptr (cfl_data self))) watched waiting
       (issued d (computeDt rt self d)) =
     negb (existsb watched waiting) ||
     negb (existsb (device_read (ptr (cfl_data self)))
             (issued d (computeDt rt self d)))) /\
  (forall buf,
     fault_free rt ->
     live_stream d (stream self) = true ->
     mem d !! ptr (cfl_data self) = Some (Floats buf) ->
     Z.of_nat (length buf) = size (cfl_data self) ->
     buf <> [] ->
     exists i,
       issued d (computeDt rt self d) =
       [ EMalloc 4; EBlasCreate;
         EIsamin (size (cfl_data self)) (ptr (cfl_data self)) 1 (fresh (dom (mem d)));
         EBlasDestroy;
         EMemcpyAsync indx_h (fresh (dom (mem d))) 4 hipMemcpyDeviceToHost (stream self);
         EMemcpyAsync x_temp (ptr (cfl_data self)) (size (cfl_data self) * 4)
           hipMemcpyDeviceToHost (stream self);
         ESync (stream self); EGetitem x_temp i;
         EStreamDestroy (stream self); EFree (ptr (cfl_data self)) ]).
Proof.
  destruct (calls_guarded rt ops self d pending) as [Hg Hb].
  split; [exact Hg|]. split; [exact Hb|]. split.
  - intros watched waiting. rewrite issued_computeDt.
    apply min_hipblas_first_read.
  - intros buf Hff Hs Hm Hn Hne.
    destruct (computeDt_run rt self d buf Hff Hs Hm Hn Hne)
      as (i & m & d' & E & _ & _ & T & _).
    exists (Z.of_nat i). rewrite E. now apply issued_app.
Qed.

Lemma reads_follow_primary_barrier_witness :
  let tr := issued Sample.device
              (calls Sample.runtime Sample.sim
                 [Osubstep 1 0 true true; OcomputeDt] Sample.device) in
  fault_free Sample.runtime /\
  reads_guarded host_read (N.eqb 1) [] tr = true /\
  Forall (barrier_on 1%N) tr /\
  existsb host_read tr = true /\
  reads_guarded (reduction_read 30%N) (N.eqb 1) [1%N]
    (issued Sample.device (computeDt Sample.runtime Sample.sim Sample.device)) = false /\
  exists i,
    issued Sample.device (computeDt Sample.runtime Sample.sim Sample.device) =
    [ EMalloc 4; EBlasCreate; EIsamin 4 30%N 1 (fresh (dom (mem Sample.device)));
      EBlasDestroy;
      EMemcpyAsync indx_h (fresh (dom (mem Sample.device))) 4 hipMemcpyDeviceToHost 1%N;
      EMemcpyAsync x_temp 30%N (4 * 4) hipMemcpyDeviceToHost 1%N;
      ESync 1%N; EGetitem x_temp i; EStreamDestroy 1%N; EFree 30%N ].
Proof.
  intros tr.
  assert (Hff : fault_free Sample.runtime) by (intros h ev; split; reflexivity).
  destruct (reads_follow_primary_barrier Sample.runtime Sample.sim
              [Osubstep 1 0 true true; OcomputeDt] Sample.device [])
    as (Hg & Hb & Hred & Hrun).
  split; [exact Hff|]. split; [exact Hg|]. split; [exact Hb|].
  split; [vm_compute; reflexivity|]. split.
  - change 30%N with (ptr (cfl_data Sample.sim)).
    rewrite (Hred (N.eqb 1) [1%N]). vm_compute. reflexivity.
  - apply (Hrun [3 # 10; 1 # 10; 2 # 10; 1 # 10]%Q Hff);
      try reflexivity; discriminate.
Defined.

(** C8, as stated, fails, for the internal stream and for the primary
    stream.
    - An internal-only substep followed by [computeDt] completes; its
      launch on the internal stream is followed by no barrier on that
      stream, and the host reads the copied CFL values while that launch is
      still pending.
    - A substep with both flags followed by [computeDt] completes; its
      launch is on the primary stream, and the next three actions are the
      allocation of the index word, the creation of the handle and the
      index search over the CFL buffer: the reduction reads the buffer
      with that launch pending, before the only barrier. *)
Lemma reduction_reads_unawaited_launch :
  let run ops := calls Sample.runtime Sample.sim ops Sample.device in
  let tr ops := issued Sample.device (run ops) in
  let cfl := ptr (cfl_data Sample.sim) in
  let inner := [Osubstep 1 0 false true; OcomputeDt] in
  let both := [Osubstep 1 0 true true; OcomputeDt] in
  (returned (run inner) = Some Sample.sim /\
   existsb (fun ev => match launch_stream ev with
                      | Some s => (s =? internal_stream Sample.sim)%N
                      | None => false
                      end) (tr inner) = true /\
   existsb (fun ev => match ev with
                      | ESync s => (s =? internal_stream Sample.sim)%N
                      | _ => false
                      end) (tr inner) = false /\
   reads_guarded host_read (fun _ => true) [] (tr inner) = false) /\
  (returned (run both) = Some Sample.sim /\
   map launch_stream (take 1 (tr both)) = [Some (stream Sample.sim)] /\
   take 3 (drop 1 (tr both)) =
     [EMalloc 4; EBlasCreate; EIsamin 4 cfl 1 (fresh (dom (mem Sample.device)))] /\
   unsynced [] (take 3 (tr both)) = [stream Sample.sim] /\
   reads_guarded (device_read cfl) (N.eqb (stream Sample.sim)) [] (tr both) = false).
Proof. vm_compute. repeat split. Qed.

(** ** Further properties of the scheduler *)

Lemma bind_Raises {A B} (m : M A) (k : A -> M B) d e d' :
  m d = Raises e d' -> (m ≫= k) d = Raises e d'.
Proof. intros H. unfold mbind, M_bind. now rewrite H. Qed.

Lemma all_succeed_app rt l1 : forall h l2,
  all_succeed rt h (l1 ++ l2) =
  all_succeed rt h l1 && all_succeed rt (h ++ l1) l2.
Proof.
  induction l1 as [|ev l1 IH]; intros h l2; cbn [app all_succeed].
  - now rewrite app_nil_r.
  - rewrite IH, <- app_assoc, andb_assoc. reflexivity.
Qed.

Lemma same_resources_refl d : same_resources d d.
Proof. split; reflexivity. Qed.

Lemma names_released_same d d1 ev :
  same_resources d d1 -> names_released d1 ev = names_released d ev.
Proof.
  intros [Hs Hp].
  assert (Hl : forall s, live_stream d1 s = live_stream d s)
    by (intros s; unfold live_stream; now rewrite Hs).
  destruct ev; cbn [names_released]; rewrite ?Hl, ?Hp; try reflexivity.
  f_equal. f_equal. apply forallb_pointwise. exact Hp.
Qed.

Lemma follows_ret rt {A} (a : A) : follows rt (mret a : M A) [].
Proof.
  intros d. simpl. rewrite app_nil_r.
  split; [reflexivity|]. split; [reflexivity|apply same_resources_refl].
Qed.

Lemma follows_launch rt gd bd sh s a :
  follows rt (hip.hipModuleLaunchKernel rt gd bd sh s a ≫= hip_check)
          [ELaunch gd bd sh s a].
Proof.
  intros d. unfold mbind, M_bind, hip.hipModuleLaunchKernel.
  destruct (names_released _ _) eqn:R.
  - exists [], (ELaunch gd bd sh s a). repeat split; auto.
  - destruct (hip_verdict rt (trace d) _) eqn:E; simpl.
    + rewrite E. repeat split; auto; apply live_ptr_launch_effect.
    + exists [], (ELaunch gd bd sh s a). simpl. rewrite app_nil_r, E.
      repeat split; auto; discriminate.
Qed.

Lemma follows_sync rt s :
  follows rt (hip.hipStreamSynchronize rt s ≫= hip_check) [ESync s].
Proof.
  intros d. unfold mbind, M_bind, hip.hipStreamSynchronize.
  destruct (names_released _ _) eqn:R.
  - exists [], (ESync s). repeat split; auto.
  - destruct (hip_verdict rt (trace d) _) eqn:E; simpl.
    + rewrite E. repeat split; auto.
    + exists [], (ESync s). simpl. rewrite app_nil_r, E.
      repeat split; auto; discriminate.
Qed.

Lemma follows_cons rt {A B} (cc : M A) (k : A -> M B) ev evs :
  follows rt cc [ev] ->
  (forall a, follows rt (k a) evs) ->
  follows rt (cc ≫= k) (ev :: evs).
Proof.
  intros Hc Hk d. specialize (Hc d). unfold mbind, M_bind.
  destruct (cc d) as [a d1|e d1|d1].
  - destruct Hc as (T1 & S1 & R1).
    cbn [all_succeed] in S1. rewrite andb_true_r in S1.
    specialize (Hk a d1). destruct (k a d1) as [b d2|e d2|d2].
    + destruct Hk as (T2 & S2 & R2). split; [|split].
      * rewrite T2, T1, <- app_assoc. reflexivity.
      * cbn [all_succeed]. rewrite S1. rewrite T1 in S2. exact S2.
      * eapply same_resources_trans; eassumption.
    + destruct Hk as (pre & ev' & T & P & S & E & N).
      exists (ev :: pre), ev'. rewrite T1 in *.
      rewrite <- app_assoc in E, N. simpl in E, N.
      repeat split; try assumption.
      * rewrite T, <- !app_assoc. reflexivity.
      * simpl. now apply prefix_cons.
      * cbn [all_succeed]. now rewrite S1.
    + destruct Hk as (pre & ev' & T & P & S & N).
      exists (ev :: pre), ev'. rewrite T1 in *.
      repeat split.
      * rewrite T, <- !app_assoc. reflexivity.
      * simpl. now apply prefix_cons.
      * cbn [all_succeed]. now rewrite S1.
      * now rewrite <- (names_released_same d d1 ev' R1).
  - destruct Hc as (pre & ev' & T & P & S & E & N).
    exists pre, ev'. repeat split; try assumption.
    eapply prefix_app_r with (l3 := evs) in P. exact P.
  - destruct Hc as (pre & ev' & T & P & S & N).
    exists pre, ev'. repeat split; try assumption.
    eapply prefix_app_r with (l3 := evs) in P. exact P.
Qed.

Lemma substepDimsplit_follows rt self dt k external internal :
  follows rt (substepDimsplit rt self dt k external internal)
          (plan self dt k external internal).
Proof.
  unfold substepDimsplit, plan.
  destruct external, internal; cbn [andb negb];
    repeat (apply follows_cons;
            [ apply follows_launch || apply follows_sync | intros _ ]);
    apply follows_ret.
Qed.

(** On a ready simulator no call of the plan names a released resource. *)
Lemma plan_names_live self dt k external internal d ev :
  ready self d = true ->
  In ev (plan self dt k external internal) ->
  names_released d ev = false.
Proof.
  intros Hr. pose proof (ready_pointers self d Hr) as Hp.
  assert (Hs : live_stream d (stream self) = true) by now apply ready_stream.
  assert (Hi : live_stream d (internal_stream self) = true).
  { unfold ready in Hr. apply andb_prop in Hr as [Hr _].
    now apply andb_prop in Hr as [_ ?]. }
  assert (L : forall gd bd s t j a b c e,
             live_stream d s = true ->
             names_released d (ELaunch gd bd 0 s (extra self t j a b c e)) = false).
  { intros gd bd s t j a b c e Hl. cbn [names_released]. rewrite Hl.
    change (pointers (extra self t j a b c e)) with (sim_pointers self).
    now rewrite Hp. }
  assert (Y : names_released d (ESync (stream self)) = false)
    by (cbn [names_released]; now rewrite Hs).
  unfold plan. destruct external, internal; cbn [andb negb In];
    intuition (subst; auto).
Qed.

Lemma failed_call_not_all_succeed rt h pre ev evs :
  (pre ++ [ev]) `prefix_of` evs ->
  hip_verdict rt (h ++ pre) ev <> hipSuccess ->
  all_succeed rt h evs = false.
Proof.
  intros [rest ->] N. rewrite !all_succeed_app. cbn [all_succeed].
  destruct (hip_verdict rt (h ++ pre) ev); [now destruct N|].
  cbn [succeeded andb]. now rewrite andb_false_r.
Qed.

(** X1.  In every mode, for every runtime and device state,
    [substepDimsplit] issues the calls of the mode in their fixed order
    and stops at the first one that does not go through.  The actions
    issued are an initial segment of the mode's sequence.  When it
    returns, all of them were issued and every one reported
    [hipSuccess].  When it raises, every call before the last one issued
    reported [hipSuccess], the last one did not, and the exception is the
    [RuntimeError] that [hip_check] builds from that status.  An undefined
    outcome comes from a call that names a resource released before the
    start.  On a simulator whose streams and buffers are live these are
    the only cases: the call returns exactly when every call of the
    sequence reports [hipSuccess], and raises otherwise. *)
Theorem substepDimsplit_stops_at_first_failure rt self dt k external internal d :
  let o := substepDimsplit rt self dt k external internal d in
  let todo := plan self dt k external internal in
  issued d o `prefix_of` todo /\
  (forall d', o = Returns tt d' ->
     issued d o = todo /\ all_succeed rt (trace d) todo = true) /\
  (forall e d', o = Raises e d' ->
     exists pre ev,
       issued d o = pre ++ [ev] /\
       all_succeed rt (trace d) pre = true /\
       e = RuntimeError (of_hip (hip_verdict rt (trace d ++ pre) ev)) /\
       hip_verdict rt (trace d ++ pre) ev <> hipSuccess) /\
  (forall d', o = Undefined d' ->
     exists pre ev,
       issued d o = pre ++ [ev] /\
       all_succeed rt (trace d) pre = true /\
       names_released d ev = true) /\
  (ready self d = true ->
     (all_succeed rt (trace d) todo = true <-> exists d', o = Returns tt d') /\
     (all_succeed rt (trace d) todo = false <-> exists e d', o = Raises e d')).
Proof.
  cbv zeta.
  pose proof (substepDimsplit_follows rt self dt k external internal d) as H.
  destruct (substepDimsplit rt self dt k external internal d) as [[] d1|e d1|d1].
  - destruct H as (T & S & _).
    rewrite (issued_app d (Returns tt d1) _ T).
    split; [reflexivity|]. split; [auto|]. split; [discriminate|].
    split; [discriminate|]. intros _. rewrite S. split; split.
    + intros _. now exists d1.
    + reflexivity.
    + discriminate.
    + intros (e & d' & ?). discriminate.
  - destruct H as (pre & ev & T & P & S & E & N).
    rewrite (issued_app d (Raises e d1) _ T).
    split; [exact P|]. split; [discriminate|]. split.
    { intros e' d' [= <- <-]. now exists pre, ev. }
    split; [discriminate|]. intros _.
    rewrite (failed_call_not_all_succeed rt (trace d) pre ev _ P N).
    split; split.
    + discriminate.
    + intros (d' & ?). discriminate.
    + intros _. now exists e, d1.
    + reflexivity.
  - destruct H as (pre & ev & T & P & S & N).
    rewrite (issued_app d (Undefined d1) _ T).
    split; [exact P|]. split; [discriminate|]. split; [discriminate|].
    split.
    { intros d' [= <-]. now exists pre, ev. }
    intros Hr. exfalso.
    assert (I : In ev (plan self dt k external internal)).
    { destruct P as [rest ->]. apply in_or_app. left.
      apply in_or_app. right. now left. }
    rewrite (plan_names_live self dt k external internal d ev Hr I) in N.
    discriminate.
Qed.

Lemma substepDimsplit_stops_at_first_failure_witness :
  let o := substepDimsplit (failing_at 2) Sample.sim 1 0 true false Sample.device in
  ready Sample.sim Sample.device = true /\
  all_succeed (failing_at 2) (trace Sample.device)
    (plan Sample.sim 1 0 true false) = false /\
  exists e d' pre ev,
    o = Raises e d' /\
    issued Sample.device o = pre ++ [ev] /\
    length pre = 2%nat /\
    all_succeed (failing_at 2) (trace Sample.device) pre = true /\
    e = RuntimeError (of_hip (hip_verdict (failing_at 2) (trace Sample.device ++ pre) ev)).
Proof.
  intros o.
  assert (R : ready Sample.sim Sample.device = true) by (vm_compute; reflexivity).
  assert (F : all_succeed (failing_at 2) (trace Sample.device)
                (plan Sample.sim 1 0 true false) = false) by (vm_compute; reflexivity).
  assert (L : length (issued Sample.device o) = 3%nat) by (vm_compute; reflexivity).
  split; [exact R|]. split; [exact F|].
  destruct (substepDimsplit_stops_at_first_failure (failing_at 2) Sample.sim 1 0
              true false Sample.device) as (_ & _ & H & _ & C).
  destruct (C R) as (_ & C2). destruct (proj1 C2 F) as (e & d' & E).
  fold o in H, E.
  destruct (H e d' E) as (pre & ev & I & S & He & _).
  exists e, d', pre, ev. repeat split; try assumption.
  rewrite I, length_app in L. simpl in L. lia.
Defined.

Lemma keeps_resources_ret {A} (a : A) : keeps_resources (mret a : M A).
Proof. intros d. split; reflexivity. Qed.

Lemma keeps_resources_bind {A B} (m : M A) (k : A -> M B) :
  keeps_resources m -> (forall a, keeps_resources (k a)) ->
  keeps_resources (m ≫= k).
Proof.
  intros Hm Hk d. specialize (Hm d). unfold mbind, M_bind.
  destruct (m d) as [a d1|e d1|d1]; simpl in *; try exact Hm.
  destruct (Hk a d1) as [Hs Hd]. destruct Hm as [Hs' Hd'].
  split; congruence.
Qed.

Lemma dom_launch_effect rt gd bd a (m : gmap devptr Buffer) :
  dom (hip.launch_effect rt gd bd a m) = dom m.
Proof.
  apply set_eq. intros p. rewrite !elem_of_dom.
  unfold hip.launch_effect. rewrite map_lookup_imap.
  destruct (m !! p); simpl; split; intros [? ?]; eauto; discriminate.
Qed.

Lemma keeps_resources_launch rt gd bd sh s a :
  keeps_resources (hip.hipModuleLaunchKernel rt gd bd sh s a ≫= hip_check).
Proof.
  intros d. unfold mbind, M_bind, hip.hipModuleLaunchKernel.
  destruct (names_released _ _); [split; reflexivity|].
  destruct (hip_verdict _ _ _); simpl; split; try reflexivity.
  apply dom_launch_effect.
Qed.

Lemma keeps_resources_sync rt s :
  keeps_resources (hip.hipStreamSynchronize rt s ≫= hip_check).
Proof.
  intros d. unfold mbind, M_bind, hip.hipStreamSynchronize.
  destruct (names_released _ _); [split; reflexivity|].
  destruct (hip_verdict _ _ _); simpl; split; reflexivity.
Qed.

(** X2.  [substepDimsplit] (and so [substep]) never allocates, frees or
    destroys anything: in every mode and whatever its outcome (return,
    exception, or a call on a released resource), the live streams and
    the set of live device allocations are those it started with. *)
Theorem substepDimsplit_keeps_resources rt self dt k external internal d :
  streams (final (substepDimsplit rt self dt k external internal d)) = streams d /\
  dom (mem (final (substepDimsplit rt self dt k external internal d))) = dom (mem d) /\
  streams (final (substep rt self dt k external internal d)) = streams d /\
  dom (mem (final (substep rt self dt k external internal d))) = dom (mem d).
Proof.
  assert (H : forall t, keeps_resources (substepDimsplit rt self t k external internal)).
  { intros t. unfold substepDimsplit.
    destruct external, internal; cbn [andb negb];
      repeat (apply keeps_resources_bind;
              [ apply keeps_resources_launch || apply keeps_resources_sync
              | intros _ ]);
      apply keeps_resources_ret. }
  unfold substep.
  destruct (H dt d) as [H1 H2]. destruct (H ((1 # 2) * dt)%Q d) as [H3 H4].
  repeat split; assumption.
Qed.

(** X3.  The corners are treated twice and nothing else is: among the
    four sub-rectangles of external-only mode, a corner cell of the grid
    lies in exactly two, every other cell of the boundary strip in
    exactly one, and a cell outside the strip in none (halo widths 2, a
    grid of at least twice the halo in each direction). *)
Theorem corners_treated_twice rt self dt k d x y :
  fault_free rt ->
  ready self d = true ->
  x_halo (var0 (u0 self)) = 2 ->
  y_halo (var0 (u0 self)) = 2 ->
  2 * x_halo (var0 (u0 self)) <= nx self < 2 ^ 31 ->
  2 * y_halo (var0 (u0 self)) <= ny self < 2 ^ 31 ->
  let ext := launched_regions (issued d (substepDimsplit rt self dt k true false d)) in
  (corner (nx self) (ny self) 2 2 x y -> count_covering ext x y = 2%nat) /\
  (boundary_strip (nx self) (ny self) 2 2 x y ->
   ~ corner (nx self) (ny self) 2 2 x y -> count_covering ext x y = 1%nat) /\
  (~ boundary_strip (nx self) (ny self) 2 2 x y -> count_covering ext x y = 0%nat).
Proof.
  intros Hff Hr Hhx Hhy Hnx Hny ext. subst ext.
  rewrite (external_only_issued rt self dt k d Hff Hr).
  rewrite Hhx, Hhy in *.
  cbn [launched_regions omap list_omap region_of extra a_x0 a_y0 a_x1 a_y1].
  rewrite !value_c_int by (unfold int_range; lia).
  unfold count_covering, corner, boundary_strip, full_rectangle.
  cbn [List.filter].
  repeat match goal with
         | |- context [inside ?r x y] =>
             let E := fresh "E" in
             destruct (inside r x y) eqn:E;
             [ apply inside_iff in E
             | apply not_true_iff_false in E; rewrite inside_iff in E ];
             cbn [x0 y0 x1 y1] in E
         end;
    cbn [length]; repeat split; intros; lia.
Qed.

Lemma corners_treated_twice_witness :
  fault_free Sample.runtime /\
  ready Sample.sim Sample.device = true /\
  corner 32 16 2 2 31 0 /\
  count_covering
    (launched_regions
       (issued Sample.device
          (substepDimsplit Sample.runtime Sample.sim 1 0 true false Sample.device)))
    31 0 = 2%nat.
Proof.
  assert (Hff : fault_free Sample.runtime) by (intros h ev; split; reflexivity).
  assert (Hr : ready Sample.sim Sample.device = true) by (vm_compute; reflexivity).
  assert (Hc : corner 32 16 2 2 31 0) by (unfold corner, full_rectangle; lia).
  split; [exact Hff|]. split; [exact Hr|]. split; [exact Hc|].
  apply (corners_treated_twice Sample.runtime Sample.sim 1 0 Sample.device 31 0 Hff Hr);
    try reflexivity; try (simpl; lia); exact Hc.
Defined.

(** *** Field-set roles over an execution *)

Lemma bind_Returns_inv {A B} (m : M A) (k : A -> M B) d b d' :
  (m ≫= k) d = Returns b d' ->
  exists a d1, m d = Returns a d1 /\ k a d1 = Returns b d'.
Proof.
  unfold mbind, M_bind. destruct (m d) as [a d1|e d1|d1]; try discriminate.
  intros H. now exists a, d1.
Qed.

Lemma call_Returns_inv rt self op d self' d' :
  call rt self op d = Returns self' d' ->
  self' = match op with OswapBuffers => swapBuffers self | _ => self end.
Proof.
  destruct op; cbn [call]; intros H.
  - apply bind_Returns_inv in H as (a & d1 & _ & H). now injection H as <- _.
  - now injection H as <- _.
  - apply bind_Returns_inv in H as (a & d1 & _ & H). now injection H as <- _.
Qed.

Lemma swapBuffers_twice self : swapBuffers (swapBuffers self) = self.
Proof. now destruct self. Qed.

(** X4.  Over any execution that returns, the simulator ends with its
    two field sets in their starting roles when the number of
    [swapBuffers] calls is even and exchanged when it is odd; [substep]
    and [computeDt] never change which field set is current, and no other
    attribute of the simulator changes. *)
Theorem roles_follow_swap_parity rt ops : forall self d self' d',
  calls rt self ops d = Returns self' d' ->
  self' = (if Nat.even (swaps ops) then self else swapBuffers self) /\
  getOutput self' = (if Nat.even (swaps ops) then u0 self else u1 self).
Proof.
  induction ops as [|op ops IH]; intros self d self' d' H.
  - injection H as <- _. split; reflexivity.
  - cbn [calls] in H. apply bind_Returns_inv in H as (s1 & d1 & Hc & H).
    apply call_Returns_inv in Hc. destruct (IH s1 d1 self' d' H) as [E _].
    assert (E' : self' = if Nat.even (swaps (op :: ops)) then self
                         else swapBuffers self).
    { destruct op; cbn [swaps]; subst s1; try exact E.
      rewrite Nat.even_succ, <- Nat.negb_even.
      destruct (Nat.even (swaps ops)); cbn [negb]; rewrite E;
        [reflexivity | apply swapBuffers_twice]. }
    split; [exact E'|]. rewrite E'.
    destruct (Nat.even (swaps (op :: ops))); reflexivity.
Qed.

Lemma roles_follow_swap_parity_witness :
  let ops := [OswapBuffers; Osubstep 1 0 true true; OswapBuffers; OswapBuffers] in
  exists self' d',
    calls Sample.runtime Sample.sim ops Sample.device = Returns self' d' /\
    getOutput self' = u1 Sample.sim.
Proof.
  intros ops.
  destruct (calls Sample.runtime Sample.sim ops Sample.device)
    as [self' d'|e d'|d'] eqn:E; try (vm_compute in E; discriminate).
  exists self', d'. split; [reflexivity|].
  exact (proj2 (roles_follow_swap_parity Sample.runtime ops Sample.sim Sample.device
                  self' d' E)).
Defined.

(** ** Further properties of the reduction *)

Lemma memcpy_float32_take rt dst old src n s d xs :
  fault_free rt ->
  live_stream d s = true ->
  mem d !! src = Some (Floats xs) ->
  (Z.to_nat (n / 4) <= length xs)%nat ->
  (hip.hipMemcpyAsync_float32 rt dst old src n s ≫= hip_check) d =
  Returns (take (Z.to_nat (n / 4)) xs)
          (log (EMemcpyAsync dst src n hipMemcpyDeviceToHost s) d).
Proof.
  intros Hff Hs Hm Hle.
  assert (Hp : live_ptr d src = true).
  { unfold live_ptr. apply bool_decide_eq_true_2. rewrite Hm. eauto. }
  unfold mbind, M_bind, hip.hipMemcpyAsync_float32, names_released.
  rewrite Hs, Hp. simpl. rewrite (proj1 (Hff _ _)), Hm.
  apply Nat.leb_le in Hle. now rewrite Hle.
Qed.

(** X5.  On a CFL buffer without elements ([cfl_data.size = 0]), when no
    call fails, [computeDt] raises [IndexError]: the index search returns
    0, and element [-1] of the empty host copy does not exist.  The
    clean-up is not reached: the primary stream is still live, the CFL
    buffer still allocated, and so is the index word that [min_hipblas]
    allocated. *)
Theorem computeDt_empty_buffer rt self d buf :
  fault_free rt ->
  live_stream d (stream self) = true ->
  mem d !! ptr (cfl_data self) = Some (Floats buf) ->
  size (cfl_data self) = 0 ->
  exists d',
    computeDt rt self d = Raises IndexError d' /\
    issued d (computeDt rt self d) =
      [ EMalloc 4; EBlasCreate;
        EIsamin 0 (ptr (cfl_data self)) 1 (fresh (dom (mem d)));
        EBlasDestroy;
        EMemcpyAsync indx_h (fresh (dom (mem d))) 4 hipMemcpyDeviceToHost (stream self);
        EMemcpyAsync x_temp (ptr (cfl_data self)) 0 hipMemcpyDeviceToHost (stream self);
        ESync (stream self);
        EGetitem x_temp (-1) ] /\
    live_stream d' (stream self) = true /\
    mem d' !! ptr (cfl_data self) = Some (Floats buf) /\
    is_Some (mem d' !! fresh (dom (mem d))).
Proof.
  intros Hff Hs Hm Hn.
  set (s := stream self) in *. set (cfl := ptr (cfl_data self)) in *.
  set (indx_d := fresh (dom (mem d))).
  assert (Hfresh : indx_d <> cfl).
  { intros E. apply (is_fresh (dom (mem d))). fold indx_d. rewrite E.
    apply elem_of_dom. rewrite Hm. eauto. }
  assert (E : min_hipblas rt self 0 cfl s d =
              Raises IndexError
                (log (EGetitem x_temp (-1))
                   (log (ESync s)
                      (log (EMemcpyAsync x_temp cfl 0 hipMemcpyDeviceToHost s)
                         (log (EMemcpyAsync indx_h indx_d 4 hipMemcpyDeviceToHost s)
                            (log EBlasDestroy
                               (log (EIsamin 0 cfl 1 indx_d)
                                  (set_mem (<[indx_d := Ints [0]]>
                                              (<[indx_d := Uninit]> (mem d)))
                                     (log EBlasCreate
                                        (log (EMalloc 4)
                                           (set_mem (<[indx_d := Uninit]> (mem d))
                                              d))))))))))).
  { assert (Hcfl : forall b, (<[indx_d := b]> (mem d)) !! cfl = Some (Floats buf))
      by (intros b; now rewrite lookup_insert_ne).
    assert (Hlive : forall d0 p b, mem d0 !! p = Some b -> live_ptr d0 p = true)
      by (intros d0 p b Hb; unfold live_ptr; apply bool_decide_eq_true_2;
          rewrite Hb; eauto).
    unfold min_hipblas, itemsize.
    rewrite (bind_Returns _ _ _ _ _ (malloc_step rt Hff 4 d)). fold indx_d.
    rewrite (bind_Returns _ _ _ _ _ (blasCreate_step rt _)).
    set (d2 := log EBlasCreate _).
    rewrite (bind_Returns _ _ _ _ _
               (isamin_step rt Hff tt 0 cfl 1 indx_d d2 buf 0
                  (Hlive d2 cfl _ (Hcfl Uninit))
                  (Hlive d2 indx_d _ (lookup_insert_eq _ indx_d Uninit))
                  (Hcfl Uninit) eq_refl)).
    subst d2.
    rewrite (bind_Returns _ _ _ _ _ (blasDestroy_step rt _ _)).
    set (d4 := log EBlasDestroy _).
    rewrite (bind_Returns _ _ _ _ _
               (memcpy_int32_step rt Hff indx_h 0 indx_d 4 s d4 0 []
                  (Hs : live_stream d4 s = true)
                  (lookup_insert_eq _ indx_d (Ints [0])))).
    set (d5 := log (EMemcpyAsync indx_h _ _ _ _) _).
    assert (Hcfl2 : mem d5 !! cfl = Some (Floats buf)).
    { subst d5 d4. simpl. rewrite lookup_insert_ne by assumption. apply Hcfl. }
    rewrite (bind_Returns _ _ _ _ _
               (memcpy_float32_take rt x_temp _ cfl (0 * 4) s d5 buf Hff
                  (Hs : live_stream d5 s = true) Hcfl2 (Nat.le_0_l _))).
    set (d6 := log (EMemcpyAsync x_temp _ _ _ _) _).
    rewrite (bind_Returns _ _ _ _ _
               (sync_step rt Hff s d6 (Hs : live_stream d6 s = true))).
    reflexivity. }
  eexists. unfold computeDt. rewrite Hn.
  rewrite (bind_Raises _ _ _ _ _ E).
  split; [reflexivity|]. split.
  { apply issued_app. simpl. rewrite <- !app_assoc. reflexivity. }
  split; [exact Hs|]. simpl.
  rewrite lookup_insert_ne, lookup_insert_ne, lookup_insert_eq by assumption.
  split; [exact Hm|eauto].
Qed.

Lemma computeDt_empty_buffer_witness :
  let d := Sample.device_with [] in
  fault_free Sample.runtime /\
  size (cfl_data blockless_sim) = 0 /\
  exists d', computeDt Sample.runtime blockless_sim d = Raises IndexError d' /\
             live_stream d' 1%N = true.
Proof.
  intros d.
  assert (Hff : fault_free Sample.runtime) by (intros h ev; split; reflexivity).
  split; [exact Hff|]. split; [reflexivity|].
  destruct (computeDt_empty_buffer Sample.runtime blockless_sim d [] Hff)
    as (d' & E & _ & Hs & _); try reflexivity.
  now exists d'.
Defined.

(** X6.  A successful [computeDt] frees the CFL buffer and nothing else:
    the index word that [min_hipblas] allocated is never freed (it is
    still allocated on return), every other device allocation keeps its
    contents, and the only stream that goes away is the primary one. *)
Theorem computeDt_leaves_index_word rt self d buf :
  fault_free rt ->
  live_stream d (stream self) = true ->
  mem d !! ptr (cfl_data self) = Some (Floats buf) ->
  Z.of_nat (length buf) = size (cfl_data self) ->
  buf <> [] ->
  exists v d',
    computeDt rt self d = Returns v d' /\
    mem d !! fresh (dom (mem d)) = None /\
    is_Some (mem d' !! fresh (dom (mem d))) /\
    (forall q, q <> ptr (cfl_data self) -> q <> fresh (dom (mem d)) ->
               mem d' !! q = mem d !! q) /\
    streams d' = streams d ∖ {[stream self]}.
Proof.
  intros Hff Hs Hm Hn Hne.
  destruct (min_hipblas_run rt Hff self d buf Hs Hm Hn Hne)
    as (i & m & d' & E & _ & _ & _ & Hmem & Hstr).
  exists (m * (1 # 2))%Q, d'. unfold computeDt.
  rewrite (bind_Returns _ _ _ _ _ E).
  assert (Hfresh : fresh (dom (mem d)) <> ptr (cfl_data self)).
  { intros Heq. apply (is_fresh (dom (mem d))). rewrite Heq.
    apply elem_of_dom. rewrite Hm. eauto. }
  split; [reflexivity|]. split; [|split; [|split]].
  - apply not_elem_of_dom. apply is_fresh.
  - rewrite Hmem, lookup_delete_ne, lookup_insert_eq by congruence. eauto.
  - intros q Hq1 Hq2.
    now rewrite Hmem, lookup_delete_ne, !lookup_insert_ne by congruence.
  - exact Hstr.
Qed.

Lemma computeDt_leaves_index_word_witness :
  fault_free Sample.runtime /\
  exists v d',
    computeDt Sample.runtime Sample.sim Sample.device = Returns v d' /\
    is_Some (mem d' !! fresh (dom (mem Sample.device))) /\
    mem d' !! 10%N = mem Sample.device !! 10%N.
Proof.
  assert (Hff : fault_free Sample.runtime) by (intros h ev; split; reflexivity).
  split; [exact Hff|].
  destruct (computeDt_leaves_index_word Sample.runtime Sample.sim Sample.device
              [3 # 10; 1 # 10; 2 # 10; 1 # 10]%Q Hff)
    as (v & d' & E & _ & Hw & Hq & _); try reflexivity; try discriminate.
  exists v, d'. split; [exact E|]. split; [exact Hw|].
  apply Hq; [discriminate|]. vm_compute. discriminate.
Defined.

Lemma malloc_succeeds rt n d :
  hip_verdict rt (trace d) (EMalloc n) = hipSuccess ->
  (hip.hipMalloc rt n ≫= hip_check) d =
  Returns (fresh (dom (mem d)))
          (log (EMalloc n) (set_mem (<[fresh (dom (mem d)) := Uninit]> (mem d)) d)).
Proof. intros H. unfold mbind, M_bind, hip.hipMalloc. rewrite H. reflexivity. Qed.

Lemma isamin_fails rt h n x incx r d :
  live_ptr d x = true ->
  live_ptr d r = true ->
  hipblas_verdict rt (trace d) (EIsamin n x incx r) <> HIPBLAS_STATUS_SUCCESS ->
  (hipblas.hipblasIsamin rt h n x incx r ≫= hip_check) d =
  Returns tt (log (EIsamin n x incx r) d).
Proof.
  intros Hx Hr Hv. unfold mbind, M_bind, hipblas.hipblasIsamin, names_released.
  rewrite Hx, Hr. simpl.
  destruct (hipblas_verdict rt (trace d) _); [congruence|reflexivity].
Qed.

Lemma memcpy_int32_unwritten rt dst old src n s d :
  live_stream d s = true ->
  mem d !! src = Some Uninit ->
  hip_verdict rt (trace d) (EMemcpyAsync dst src n hipMemcpyDeviceToHost s) = hipSuccess ->
  (hip.hipMemcpyAsync_int32 rt dst old src n s ≫= hip_check) d =
  Undefined (log (EMemcpyAsync dst src n hipMemcpyDeviceToHost s) d).
Proof.
  intros Hs Hm Hv.
  assert (Hp : live_ptr d src = true).
  { unfold live_ptr. apply bool_decide_eq_true_2. rewrite Hm. eauto. }
  unfold mbind, M_bind, hip.hipMemcpyAsync_int32, names_released.
  rewrite Hs, Hp. simpl. rewrite Hv, Hm. reflexivity.
Qed.

(** X7.  A failure of [hipblasIsamin] goes unnoticed: [hip_check] lets a
    hipBLAS status through, so when the index search reports a failure
    (and every HIP call succeeds) [min_hipblas] raises nothing, destroys
    the handle and goes on to copy the index word, which was never
    written. *)
Theorem failed_index_search_unnoticed rt self d buf :
  (forall h ev, hip_verdict rt h ev = hipSuccess) ->
  (forall h n x incx r,
     hipblas_verdict rt h (EIsamin n x incx r) <> HIPBLAS_STATUS_SUCCESS) ->
  live_stream d (stream self) = true ->
  mem d !! ptr (cfl_data self) = Some (Floats buf) ->
  exists d',
    computeDt rt self d = Undefined d' /\
    issued d (computeDt rt self d) =
      [ EMalloc 4; EBlasCreate;
        EIsamin (size (cfl_data self)) (ptr (cfl_data self)) 1 (fresh (dom (mem d)));
        EBlasDestroy;
        EMemcpyAsync indx_h (fresh (dom (mem d))) 4 hipMemcpyDeviceToHost
          (stream self) ] /\
    mem d' !! fresh (dom (mem d)) = Some Uninit.
Proof.
  intros Hhip Hblas Hs Hm.
  set (s := stream self) in *. set (cfl := ptr (cfl_data self)) in *.
  set (n := size (cfl_data self)). set (indx_d := fresh (dom (mem d))).
  assert (Hfresh : indx_d <> cfl).
  { intros E. apply (is_fresh (dom (mem d))). fold indx_d. rewrite E.
    apply elem_of_dom. rewrite Hm. eauto. }
  assert (Hlive : forall d0 p b, mem d0 !! p = Some b -> live_ptr d0 p = true)
    by (intros d0 p b Hb; unfold live_ptr; apply bool_decide_eq_true_2;
        rewrite Hb; eauto).
  assert (E : min_hipblas rt self n cfl s d =
              Undefined
                (log (EMemcpyAsync indx_h indx_d 4 hipMemcpyDeviceToHost s)
                   (log EBlasDestroy
                      (log (EIsamin n cfl 1 indx_d)
                         (log EBlasCreate
                            (log (EMalloc 4)
                               (set_mem (<[indx_d := Uninit]> (mem d)) d))))))).
  { unfold min_hipblas, itemsize.
    rewrite (bind_Returns _ _ _ _ _ (malloc_succeeds rt 4 d (Hhip _ _))).
    fold indx_d.
    rewrite (bind_Returns _ _ _ _ _ (blasCreate_step rt _)).
    set (d2 := log EBlasCreate _).
    assert (Hc : mem d2 !! cfl = Some (Floats buf))
      by (subst d2; simpl; now rewrite lookup_insert_ne).
    assert (Hi : mem d2 !! indx_d = Some Uninit)
      by (subst d2; simpl; apply lookup_insert_eq).
    rewrite (bind_Returns _ _ _ _ _
               (isamin_fails rt tt n cfl 1 indx_d d2
                  (Hlive d2 cfl _ Hc) (Hlive d2 indx_d _ Hi) (Hblas _ _ _ _ _))).
    rewrite (bind_Returns _ _ _ _ _ (blasDestroy_step rt _ _)).
    set (d4 := log EBlasDestroy _).
    apply bind_Undefined.
    apply (memcpy_int32_unwritten rt indx_h 0 indx_d 4 s d4
             (Hs : live_stream d4 s = true) Hi (Hhip _ _)). }
  eexists. unfold computeDt. fold n cfl s.
  rewrite (bind_Undefined _ _ _ _ E).
  split; [reflexivity|]. split.
  - apply issued_app. simpl. rewrite <- !app_assoc. reflexivity.
  - simpl. apply lookup_insert_eq.
Qed.

Lemma failed_index_search_unnoticed_witness :
  exists d',
    computeDt isamin_failing Sample.sim Sample.device = Undefined d' /\
    length (issued Sample.device (computeDt isamin_failing Sample.sim Sample.device))
    = 5%nat.
Proof.
  destruct (failed_index_search_unnoticed isamin_failing Sample.sim Sample.device
              [3 # 10; 1 # 10; 2 # 10; 1 # 10]%Q)
    as (d' & E & I & _); try reflexivity; try (intros; discriminate).
  exists d'. split; [exact E|]. rewrite I. reflexivity.
Defined.

(** *** The clean-up is all or nothing *)

Lemma live_ptr_insert d0 (m : gmap devptr Buffer) p q b :
  mem d0 = <[q := b]> m ->
  bool_decide (is_Some (m !! p)) = true -> live_ptr d0 p = true.
Proof.
  intros Hm Hp. unfold live_ptr. rewrite Hm.
  apply bool_decide_eq_true_2. apply bool_decide_eq_true_1 in Hp.
  destruct (decide (q = p)) as [->|Hne].
  - rewrite lookup_insert_eq. eauto.
  - now rewrite lookup_insert_ne.
Qed.

Lemma keeps_live_ret p {A} (a : A) : keeps_live p (mret a : M A).
Proof. intros d H. exact H. Qed.

Lemma keeps_live_freed p {A} (m : M A) :
  keeps_live p m -> freed_only_on_return p m.
Proof.
  intros H d Hp. specialize (H d Hp). destruct (m d); simpl in H; trivial.
Qed.

Lemma freed_only_on_return_bind p {A B} (m : M A) (k : A -> M B) :
  keeps_live p m -> (forall a, freed_only_on_return p (k a)) ->
  freed_only_on_return p (m ≫= k).
Proof.
  intros Hm Hk d Hp. specialize (Hm d Hp). unfold mbind, M_bind.
  destruct (m d) as [a d1|e d1|d1]; simpl in Hm; try exact Hm.
  apply (Hk a d1 Hm).
Qed.

Section keeps_live_api.
Context (rt : Runtime) (p : devptr).

Lemma keeps_live_hipMalloc n : keeps_live p (hip.hipMalloc rt n ≫= hip_check).
Proof.
  intros d Hp. unfold mbind, M_bind, hip.hipMalloc.
  destruct (hip_verdict _ _ _); simpl; [|exact Hp].
  eapply live_ptr_insert; [reflexivity|exact Hp].
Qed.

Lemma keeps_live_hipblasCreate : keeps_live p (hipblas.hipblasCreate rt ≫= hip_check).
Proof. intros d Hp. exact Hp. Qed.

Lemma keeps_live_hipblasDestroy h :
  keeps_live p (hipblas.hipblasDestroy rt h ≫= hip_check).
Proof. intros d Hp. exact Hp. Qed.

Lemma keeps_live_hipblasIsamin h n x incx r :
  keeps_live p (hipblas.hipblasIsamin rt h n x incx r ≫= hip_check).
Proof.
  intros d Hp. unfold mbind, M_bind, hipblas.hipblasIsamin.
  destruct (names_released _ _); [exact Hp|].
  destruct (hipblas_verdict _ _ _); [|exact Hp].
  destruct (mem d !! x) as [[| xs |]|]; try exact Hp.
  destruct (isamin _ _ _); [|exact Hp]. simpl.
  eapply live_ptr_insert; [reflexivity|exact Hp].
Qed.

Lemma keeps_live_hipMemcpyAsync_int32 dst old src n s :
  keeps_live p (hip.hipMemcpyAsync_int32 rt dst old src n s ≫= hip_check).
Proof.
  intros d Hp. unfold mbind, M_bind, hip.hipMemcpyAsync_int32.
  destruct (names_released _ _); [exact Hp|].
  destruct (hip_verdict _ _ _); [|exact Hp].
  destruct (mem d !! src) as [[| |[|]]|]; exact Hp.
Qed.

Lemma keeps_live_hipMemcpyAsync_float32 dst old src n s :
  keeps_live p (hip.hipMemcpyAsync_float32 rt dst old src n s ≫= hip_check).
Proof.
  intros d Hp. unfold mbind, M_bind, hip.hipMemcpyAsync_float32.
  destruct (names_released _ _); [exact Hp|].
  destruct (hip_verdict _ _ _); [|exact Hp].
  destruct (mem d !! src) as [[| |]|]; try exact Hp.
  destruct (_ <=? _)%nat; exact Hp.
Qed.

Lemma keeps_live_hipStreamSynchronize s :
  keeps_live p (hip.hipStreamSynchronize rt s ≫= hip_check).
Proof.
  intros d Hp. unfold mbind, M_bind, hip.hipStreamSynchronize.
  destruct (names_released _ _); [exact Hp|].
  destruct (hip_verdict _ _ _); exact Hp.
Qed.

Lemma keeps_live_hipStreamDestroy s :
  keeps_live p (hip.hipStreamDestroy rt s ≫= hip_check).
Proof.
  intros d Hp. unfold mbind, M_bind, hip.hipStreamDestroy.
  destruct (names_released _ _); [exact Hp|].
  destruct (hip_verdict _ _ _); exact Hp.
Qed.

Lemma keeps_live_getitem arr xs i : keeps_live p (getitem arr xs i).
Proof.
  intros d Hp. unfold getitem.
  destruct (_ && _); [|exact Hp]. destruct (xs !! _); exact Hp.
Qed.

Lemma freed_only_on_return_hipFree q :
  freed_only_on_return p (hip.hipFree rt q ≫= hip_check).
Proof.
  intros d Hp. unfold mbind, M_bind, hip.hipFree.
  destruct (names_released _ _); [exact Hp|].
  destruct (hip_verdict _ _ _); simpl; [trivial|exact Hp].
Qed.

End keeps_live_api.

Lemma computeDt_freed_only_on_return rt self :
  freed_only_on_return (ptr (cfl_data self)) (computeDt rt self).
Proof.
  unfold computeDt, min_hipblas.
  intros d Hp. unfold mbind at 1, M_bind at 1.
  assert (H : freed_only_on_return (ptr (cfl_data self))
                (min_hipblas rt self (size (cfl_data self)) (ptr (cfl_data self))
                   (stream self))).
  { unfold min_hipblas.
    repeat (apply freed_only_on_return_bind;
            [ first [ apply keeps_live_hipMalloc | apply keeps_live_hipblasCreate
                    | apply keeps_live_hipblasIsamin | apply keeps_live_hipblasDestroy
                    | apply keeps_live_hipMemcpyAsync_int32
                    | apply keeps_live_hipMemcpyAsync_float32
                    | apply keeps_live_hipStreamSynchronize
                    | apply keeps_live_getitem
                    | apply keeps_live_hipStreamDestroy ]
            | intros ? ]).
    intros d0 Hp0. unfold mbind at 1, M_bind at 1.
    pose proof (freed_only_on_return_hipFree rt (ptr (cfl_data self))
                  (ptr (cfl_data self)) d0 Hp0) as Hf.
    destruct ((hip.hipFree rt (ptr (cfl_data self)) ≫= hip_check) d0); simpl; trivial. }
  specialize (H d Hp). unfold min_hipblas in H.
  match goal with
  | |- match (match ?o with _ => _ end) with _ => _ end => destruct o; simpl; trivial
  end.
Qed.

(** *** The stream on a failing [computeDt] *)

Lemma stream_kept_bind s tail {A B} (m : M A) (k : A -> M B) :
  keeps_stream s m -> monotone m ->
  (forall a, stream_kept_on_failure s tail (k a)) ->
  stream_kept_on_failure s tail (m ≫= k).
Proof.
  intros Hm Hmon Hk d Hs. specialize (Hm d Hs). destruct (Hmon d) as [evs T].
  unfold mbind, M_bind. destruct (m d) as [a d1|e d1|d1]; simpl in Hm, T.
  - specialize (Hk a d1 Hm).
    destruct (k a d1) as [b d2|e d2|d2]; [trivial| |];
      (destruct Hk as [Hk|[pre Hk]]; [now left|right]);
      exists (evs ++ pre); rewrite Hk, T, <- !app_assoc; reflexivity.
  - now left.
  - now left.
Qed.

Section keeps_stream_api.
Context (rt : Runtime) (s : hipStream_t).

Lemma keeps_stream_hipMalloc n : keeps_stream s (hip.hipMalloc rt n ≫= hip_check).
Proof.
  intros d Hs. unfold mbind, M_bind, hip.hipMalloc.
  destruct (hip_verdict _ _ _); exact Hs.
Qed.

Lemma keeps_stream_hipblasCreate : keeps_stream s (hipblas.hipblasCreate rt ≫= hip_check).
Proof. intros d Hs. exact Hs. Qed.

Lemma keeps_stream_hipblasDestroy h :
  keeps_stream s (hipblas.hipblasDestroy rt h ≫= hip_check).
Proof. intros d Hs. exact Hs. Qed.

Lemma keeps_stream_hipblasIsamin h n x incx r :
  keeps_stream s (hipblas.hipblasIsamin rt h n x incx r ≫= hip_check).
Proof.
  intros d Hs. unfold mbind, M_bind, hipblas.hipblasIsamin.
  destruct (names_released _ _); [exact Hs|].
  destruct (hipblas_verdict _ _ _); [|exact Hs].
  destruct (mem d !! x) as [[| xs |]|]; try exact Hs.
  destruct (isamin _ _ _); exact Hs.
Qed.

Lemma keeps_stream_hipMemcpyAsync_int32 dst old src n q :
  keeps_stream s (hip.hipMemcpyAsync_int32 rt dst old src n q ≫= hip_check).
Proof.
  intros d Hs. unfold mbind, M_bind, hip.hipMemcpyAsync_int32.
  destruct (names_released _ _); [exact Hs|].
  destruct (hip_verdict _ _ _); [|exact Hs].
  destruct (mem d !! src) as [[| |[|]]|]; exact Hs.
Qed.

Lemma keeps_stream_hipMemcpyAsync_float32 dst old src n q :
  keeps_stream s (hip.hipMemcpyAsync_float32 rt dst old src n q ≫= hip_check).
Proof.
  intros d Hs. unfold mbind, M_bind, hip.hipMemcpyAsync_float32.
  destruct (names_released _ _); [exact Hs|].
  destruct (hip_verdict _ _ _); [|exact Hs].
  destruct (mem d !! src) as [[| |]|]; try exact Hs.
  destruct (_ <=? _)%nat; exact Hs.
Qed.

Lemma keeps_stream_hipStreamSynchronize q :
  keeps_stream s (hip.hipStreamSynchronize rt q ≫= hip_check).
Proof.
  intros d Hs. unfold mbind, M_bind, hip.hipStreamSynchronize.
  destruct (names_released _ _); [exact Hs|].
  destruct (hip_verdict _ _ _); exact Hs.
Qed.

Lemma keeps_stream_getitem arr xs i : keeps_stream s (getitem arr xs i).
Proof.
  intros d Hs. unfold getitem.
  destruct (_ && _); [|exact Hs]. destruct (xs !! _); exact Hs.
Qed.

(** The clean-up: the stream is destroyed first, the buffer freed last. *)
Lemma stream_kept_cleanup p {A} (v : A) :
  stream_kept_on_failure s [EStreamDestroy s; EFree p]
    (hip.hipStreamDestroy rt s ≫= hip_check ;;
     hip.hipFree rt p ≫= hip_check ;; mret v).
Proof.
  intros d Hs. unfold mbind, M_bind, hip.hipStreamDestroy.
  destruct (names_released d _); [now left|].
  destruct (hip_verdict rt (trace d) _); simpl; [|now left].
  unfold hip.hipFree.
  destruct (names_released _ (EFree p)).
  { right. exists []. simpl. now rewrite <- app_assoc. }
  destruct (hip_verdict rt _ (EFree p)); simpl; [trivial|].
  right. exists []. simpl. now rewrite <- app_assoc.
Qed.

End keeps_stream_api.

Lemma computeDt_stream_kept_on_failure rt self :
  stream_kept_on_failure (stream self)
    [EStreamDestroy (stream self); EFree (ptr (cfl_data self))]
    (computeDt rt self).
Proof.
  assert (H : stream_kept_on_failure (stream self)
                [EStreamDestroy (stream self); EFree (ptr (cfl_data self))]
                (min_hipblas rt self (size (cfl_data self)) (ptr (cfl_data self))
                   (stream self))).
  { unfold min_hipblas.
    repeat (apply stream_kept_bind;
            [ first [ apply keeps_stream_hipMalloc | apply keeps_stream_hipblasCreate
                    | apply keeps_stream_hipblasIsamin | apply keeps_stream_hipblasDestroy
                    | apply keeps_stream_hipMemcpyAsync_int32
                    | apply keeps_stream_hipMemcpyAsync_float32
                    | apply keeps_stream_hipStreamSynchronize
                    | apply keeps_stream_getitem ]
            | eauto with trace
            | intros ? ]).
    apply stream_kept_cleanup. }
  intros d Hs. specialize (H d Hs). unfold computeDt, mbind at 1, M_bind at 1.
  destruct (min_hipblas rt self _ _ _ d); simpl; trivial.
Qed.

(** X8.  [computeDt] frees the CFL buffer only when it returns, and its
    clean-up is not all or nothing.  Whatever the runtime answers, when
    [computeDt] does not return normally (a [RuntimeError] from any call,
    the [IndexError] of the element access, or a call without a defined
    outcome), a CFL buffer that was allocated before the call is still
    allocated after it, also when [hipFree] was called.  A stream that was
    live before the call is still live after it, except when the last two
    calls issued are [hipStreamDestroy] and [hipFree]: a failing [hipFree]
    leaves the stream destroyed and the buffer allocated. *)
Theorem computeDt_failure_skips_free rt self d :
  live_ptr d (ptr (cfl_data self)) = true ->
  (forall e d', computeDt rt self d = Raises e d' ->
                live_ptr d' (ptr (cfl_data self)) = true) /\
  (forall d', computeDt rt self d = Undefined d' ->
              live_ptr d' (ptr (cfl_data self)) = true) /\
  (live_stream d (stream self) = true ->
   forall d',
     computeDt rt self d = Undefined d' \/
     (exists e, computeDt rt self d = Raises e d') ->
     live_stream d' (stream self) = true \/
     exists pre,
       issued d (computeDt rt self d) =
       pre ++ [EStreamDestroy (stream self); EFree (ptr (cfl_data self))]).
Proof.
  intros Hp. pose proof (computeDt_freed_only_on_return rt self d Hp) as H.
  split; [intros e d' E; rewrite E in H; exact H|].
  split; [intros d' E; rewrite E in H; exact H|].
  intros Hs d' O.
  pose proof (computeDt_stream_kept_on_failure rt self d Hs) as K.
  destruct O as [E|[e E]]; rewrite E in K |- *;
    (destruct K as [K|[pre K]]; [now left|right]);
    exists pre; apply issued_app; exact K.
Qed.

Lemma computeDt_failure_skips_free_witness :
  live_ptr Sample.device (ptr (cfl_data Sample.sim)) = true /\
  live_stream Sample.device (stream Sample.sim) = true /\
  (exists e d',
     computeDt (failing_at 6) Sample.sim Sample.device = Raises e d' /\
     live_ptr d' (ptr (cfl_data Sample.sim)) = true /\
     live_stream d' (stream Sample.sim) = true) /\
  (exists e d' pre,
     computeDt (failing_at 9) Sample.sim Sample.device = Raises e d' /\
     live_ptr d' (ptr (cfl_data Sample.sim)) = true /\
     live_stream d' (stream Sample.sim) = false /\
     issued Sample.device (computeDt (failing_at 9) Sample.sim Sample.device) =
     pre ++ [EStreamDestroy (stream Sample.sim); EFree (ptr (cfl_data Sample.sim))]).
Proof.
  assert (Hp : live_ptr Sample.device (ptr (cfl_data Sample.sim)) = true)
    by (vm_compute; reflexivity).
  assert (Hs : live_stream Sample.device (stream Sample.sim) = true)
    by (vm_compute; reflexivity).
  split; [exact Hp|]. split; [exact Hs|]. split.
  - destruct (computeDt (failing_at 6) Sample.sim Sample.device)
      as [a d'|e d'|d'] eqn:E; try (vm_compute in E; discriminate).
    exists e, d'. split; [reflexivity|].
    destruct (computeDt_failure_skips_free (failing_at 6) Sample.sim Sample.device Hp)
      as (H & _ & _).
    split; [exact (H e d' E)|].
    injection E as _ <-. vm_compute. reflexivity.
  - destruct (computeDt (failing_at 9) Sample.sim Sample.device)
      as [a d'|e d'|d'] eqn:E; try (vm_compute in E; discriminate).
    destruct (computeDt_failure_skips_free (failing_at 9) Sample.sim Sample.device Hp)
      as (H & _ & K).
    assert (D : live_stream d' (stream Sample.sim) = false)
      by (injection E as _ <-; vm_compute; reflexivity).
    destruct (K Hs d' (or_intror (ex_intro _ e E))) as [L|[pre I]];
      [rewrite L in D; discriminate|].
    exists e, d', pre. split; [reflexivity|]. split; [exact (H e d' E)|].
    split; [exact D|]. rewrite <- E. exact I.
Defined.

(** *** One reduction per simulator *)

Lemma free_Returns_inv rt p d u d' :
  (hip.hipFree rt p ≫= hip_check) d = Returns u d' -> live_ptr d' p = false.
Proof.
  unfold mbind, M_bind, hip.hipFree.
  destruct (names_released _ _); [discriminate|].
  destruct (hip_verdict _ _ _); simpl; [|discriminate].
  intros [= _ <-]. unfold live_ptr. simpl. rewrite lookup_delete_eq.
  apply bool_decide_eq_false_2. intros [? ?]. discriminate.
Qed.

(** Whatever the runtime answers, a [computeDt] that returns has freed
    the CFL buffer. *)
Lemma computeDt_Returns_frees rt self d v d' :
  computeDt rt self d = Returns v d' ->
  live_ptr d' (ptr (cfl_data self)) = false.
Proof.
  unfold computeDt, min_hipblas. intros H.
  apply bind_Returns_inv in H as (m & d1 & H & Hret). injection Hret as _ <-.
  do 9 (apply bind_Returns_inv in H as (? & ? & _ & H)).
  apply bind_Returns_inv in H as (u & d2 & H & Hret). injection Hret as _ <-.
  exact (free_Returns_inv _ _ _ _ _ H).
Qed.

(** Whatever the runtime answers, [min_hipblas] does not return when the
    buffer it is handed is no live allocation. *)
Lemma min_hipblas_needs_buffer rt self n cfl s d v d' :
  live_ptr d cfl = false ->
  min_hipblas rt self n cfl s d <> Returns v d'.
Proof.
  intros Hp H. unfold min_hipblas, itemsize in H.
  apply bind_Returns_inv in H as (p & d1 & H1 & H).
  unfold mbind, M_bind, hip.hipMalloc in H1.
  destruct (hip_verdict rt (trace d) (EMalloc 4)); [|discriminate].
  injection H1 as <- <-.
  apply bind_Returns_inv in H as (h & d2 & H2 & H). injection H2 as _ <-.
  set (p := fresh (dom (mem d))) in *.
  set (d2 := log EBlasCreate _) in *.
  assert (Hlook : forall xs, mem d2 !! cfl <> Some (Floats xs)).
  { intros xs. subst d2. simpl.
    destruct (decide (p = cfl)) as [->|Hneq].
    - rewrite lookup_insert_eq. discriminate.
    - rewrite lookup_insert_ne by assumption.
      unfold live_ptr in Hp. apply bool_decide_eq_false_1 in Hp.
      intros Hsome. apply Hp. rewrite Hsome. eauto. }
  apply bind_Returns_inv in H as (u & d3 & H3 & H).
  unfold mbind, M_bind, hipblas.hipblasIsamin in H3.
  destruct (names_released d2 _); [discriminate|].
  destruct (hipblas_verdict rt (trace d2) _).
  { destruct (mem d2 !! cfl) as [[| xs |]|] eqn:Hc; try discriminate.
    now destruct (Hlook xs). }
  injection H3 as _ <-.
  apply bind_Returns_inv in H as (u' & d4 & H4 & H). injection H4 as _ <-.
  apply bind_Returns_inv in H as (i & d5 & H5 & _).
  unfold mbind, M_bind, hip.hipMemcpyAsync_int32 in H5.
  destruct (names_released _ _); [discriminate|].
  destruct (hip_verdict rt _ _); [|discriminate].
  replace (mem (log EBlasDestroy (log (EIsamin n cfl 1 p) d2)) !! p)
    with (Some Uninit) in H5 by (subst d2; simpl; now rewrite lookup_insert_eq).
  discriminate.
Qed.

Lemma substep_after_free rt self dt k external internal d :
  live_ptr d (ptr (cfl_data self)) = false ->
  external || internal = true ->
  exists d', substep rt self dt k external internal d = Undefined d'.
Proof.
  intros Hp Hf. unfold substep, substepDimsplit.
  destruct external, internal; try discriminate; cbn [andb negb];
    match goal with
    | |- context [hip.hipModuleLaunchKernel rt ?gd _ _ ?s (extra _ ?t ?j ?a ?b ?c ?e)] =>
        destruct (launch_after_free rt self gd s t j a b c e d Hp) as [_ Hun];
        rewrite (bind_Undefined _ _ _ _ Hun); eexists; reflexivity
    end.
Qed.

Lemma quiet_after_free rt ops : forall self d self' d',
  live_ptr d (ptr (cfl_data self)) = false ->
  calls rt self ops d = Returns self' d' ->
  forallb quiet_op ops = true.
Proof.
  induction ops as [|op ops IH]; intros self d self' d' Hp H; [reflexivity|].
  cbn [calls] in H. apply bind_Returns_inv in H as (s1 & d1 & Hc & H).
  cbn [forallb]. destruct op as [dt k external internal| |]; cbn [call quiet_op] in *.
  - destruct (external || internal) eqn:Hf.
    + destruct (substep_after_free rt self dt k external internal d Hp Hf) as [d2 Hu].
      rewrite (bind_Undefined _ _ _ _ Hu) in Hc. discriminate.
    + apply orb_false_elim in Hf as [-> ->].
      injection Hc as <- <-. exact (IH _ _ _ _ Hp H).
  - injection Hc as <- <-. exact (IH (swapBuffers self) _ _ _ Hp H).
  - apply bind_Returns_inv in Hc as (v & d2 & Hc & _).
    unfold computeDt in Hc. apply bind_Returns_inv in Hc as (m & d3 & Hc & _).
    destruct (min_hipblas_needs_buffer rt self _ _ _ d m d3 Hp Hc).
Qed.

(** X9.  [computeDt] can complete once per simulator: whatever the
    runtime answers, in an execution that returns, the first [computeDt]
    is followed by no second [computeDt] and by no [substep] with a flag
    set (only by [swapBuffers] and flagless [substep] calls), because it
    has freed the buffer that both need. *)
Theorem computeDt_completes_once rt ops : forall self d self' d',
  calls rt self ops d = Returns self' d' ->
  reduces_once ops = true.
Proof.
  induction ops as [|op ops IH]; intros self d self' d' H; [reflexivity|].
  cbn [calls] in H. apply bind_Returns_inv in H as (s1 & d1 & Hc & H).
  destruct op as [dt k external internal| |]; cbn [reduces_once].
  - exact (IH _ _ _ _ H).
  - exact (IH _ _ _ _ H).
  - cbn [call] in Hc. apply bind_Returns_inv in Hc as (v & d2 & Hc & Hr).
    injection Hr as <- <-.
    exact (quiet_after_free rt ops self d2 self' d'
             (computeDt_Returns_frees _ _ _ _ _ Hc) H).
Qed.

Lemma computeDt_completes_once_witness :
  let ops := [Osubstep 1 0 true true; OcomputeDt; OswapBuffers;
              Osubstep 1 1 false false] in
  (exists self' d', calls Sample.runtime Sample.sim ops Sample.device = Returns self' d') /\
  reduces_once ops = true /\
  returned (calls Sample.runtime Sample.sim
              [OcomputeDt; OcomputeDt] Sample.device) = None.
Proof.
  intros ops.
  destruct (calls Sample.runtime Sample.sim ops Sample.device)
    as [self' d'|e d'|d'] eqn:E; try (vm_compute in E; discriminate).
  split; [now exists self', d'|]. split.
  - exact (computeDt_completes_once Sample.runtime ops Sample.sim Sample.device
             self' d' E).
  - vm_compute. reflexivity.
Defined.

(** ** The notebook magics *)

Section notebook.
Import IPythonMagic.

Lemma added_app nb nb' l :
  actions nb' = actions nb ++ l -> added nb nb' = l.
Proof.
  intros E. unfold added. rewrite E. apply drop_app_length.
Qed.

Lemma added_self nb : added nb nb = [].
Proof. apply added_app. now rewrite app_nil_r. Qed.

(** The logger is configured on the uninitialised path only, and that
    path sets the flag first. *)
Lemma setup_logging_sets_flag env parsed nb :
  logger_initialized (state_of (setup_logging env parsed nb)) = true.
Proof.
  unfold setup_logging.
  destruct (logger_initialized nb) eqn:F; [exact F|].
  destruct parsed as [args|]; [|reflexivity].
  cbv zeta. destruct (fspath _ _); [|reflexivity].
  destruct (opens _ _ _); reflexivity.
Qed.

Lemma cuda_context_handler_logger env parsed nb :
  let nb' := state_of (cuda_context_handler env parsed nb) in
  logger_initialized nb' = logger_initialized nb /\
  handlers nb' = handlers nb /\ logger_level nb' = logger_level nb /\
  forall n, user_ns nb' !! n = Some PyLogger -> user_ns nb !! n = Some PyLogger.
Proof.
  unfold cuda_context_handler.
  destruct parsed as [args|]; [|now cbn].
  cbv zeta. destruct (blocking args).
  - unfold hip_check. cbn [fst snd].
    destruct (set_device_flags _ _); [|now cbn].
    cbn [actions act user_ns].
    destruct (user_ns nb !! ctx_name args) eqn:L; [now cbn|].
    destruct (context_starts _ _); [|now cbn].
    cbn. repeat split; trivial. intros n.
    destruct (decide (n = ctx_name args)) as [->|N].
    + rewrite lookup_insert_eq. discriminate.
    + now rewrite lookup_insert_ne by congruence.
  - cbn [actions act user_ns].
    destruct (user_ns nb !! ctx_name args) eqn:L; [now cbn|].
    destruct (context_starts _ _); [|now cbn].
    cbn. repeat split; trivial. intros n.
    destruct (decide (n = ctx_name args)) as [->|N].
    + rewrite lookup_insert_eq. discriminate.
    + now rewrite lookup_insert_ne by congruence.
Qed.

Lemma setup_mpi_logger env parsed nb :
  let nb' := state_of (setup_mpi env parsed nb) in
  logger_initialized nb' = logger_initialized nb /\
  handlers nb' = handlers nb /\ logger_level nb' = logger_level nb /\
  forall n, user_ns nb' !! n = Some PyLogger -> user_ns nb !! n = Some PyLogger.
Proof.
  unfold setup_mpi.
  destruct parsed as [args|]; [|now cbn].
  assert (B : forall (m : gmap string PyObj) k v n,
             v <> PyLogger -> <[k := v]> m !! n = Some PyLogger ->
             m !! n = Some PyLogger).
  { intros m k v n V. destruct (decide (n = k)) as [->|N].
    - rewrite lookup_insert_eq. congruence.
    - now rewrite lookup_insert_ne by congruence. }
  destruct (user_ns nb !! mpi_name args) as [obj|] eqn:L.
  - destruct (has_shutdown env obj); [|now cbn].
    cbn [actions act]. destruct (shuts_down _ _ _); [|now cbn].
    cbn [actions act bind_name]. destruct (engine_starts _ _ _).
    + cbn. repeat split; trivial. intros n H.
      apply B in H; [|discriminate]. apply B in H; [trivial|discriminate].
    + cbn. repeat split; trivial. intros n H.
      apply B in H; [trivial|discriminate].
  - destruct (engine_starts _ _ _); [|now cbn].
    cbn. repeat split; trivial. intros n H.
    apply B in H; [trivial|discriminate].
Qed.

(** Once the flag is set, no cell touches the logger. *)
Lemma run_cell_initialized env c nb :
  logger_initialized nb = true ->
  let nb' := state_of (run_cell env c nb) in
  logger_initialized nb' = true /\
  handlers nb' = handlers nb /\ logger_level nb' = logger_level nb /\
  forall n, user_ns nb' !! n = Some PyLogger -> user_ns nb !! n = Some PyLogger.
Proof.
  intros F. destruct c as [p|p|p]; cbn [run_cell].
  - destruct (cuda_context_handler_logger env p nb) as (A & B).
    cbv zeta. now rewrite A.
  - unfold setup_logging. rewrite F. now cbn.
  - destruct (setup_mpi_logger env p nb) as (A & B).
    cbv zeta. now rewrite A.
Qed.

Lemma session_initialized env cs : forall nb,
  logger_initialized nb = true ->
  let nb' := session env cs nb in
  logger_initialized nb' = true /\
  handlers nb' = handlers nb /\ logger_level nb' = logger_level nb /\
  forall n, user_ns nb' !! n = Some PyLogger -> user_ns nb !! n = Some PyLogger.
Proof.
  induction cs as [|c cs IH]; intros nb F; [now cbn|].
  destruct (run_cell_initialized env c nb F) as (F1 & H1 & L1 & N1).
  destruct (IH _ F1) as (F2 & H2 & L2 & N2).
  unfold session in *. cbn [fold_left].
  split; [exact F2|]. split; [now rewrite H2|]. split; [now rewrite L2|].
  intros n H. apply N1, N2, H.
Qed.

Lemma session_app env cs cs' nb :
  session env (cs ++ cs') nb = session env cs' (session env cs nb).
Proof. apply fold_left_app. Qed.

(** X10. Only the first [%setup_logging] of a session counts.  Once a
    [setup_logging] cell has run, whether it succeeded or raised, the flag
    is set, and whatever cells follow, with whatever arguments, the
    logger keeps the handlers and the level it had after that cell, and
    no further name is bound to the logger. *)
Theorem logging_configured_by_first_call env pre parsed post nb :
  let nb1 := session env (pre ++ [setup_logging_cell parsed]) nb in
  let nb2 := session env (pre ++ setup_logging_cell parsed :: post) nb in
  logger_initialized nb1 = true /\
  handlers nb2 = handlers nb1 /\
  logger_level nb2 = logger_level nb1 /\
  forall n, user_ns nb2 !! n = Some PyLogger -> user_ns nb1 !! n = Some PyLogger.
Proof.
  cbv zeta.
  replace (pre ++ setup_logging_cell parsed :: post)
    with ((pre ++ [setup_logging_cell parsed]) ++ post)
    by now rewrite <- app_assoc.
  rewrite (session_app env (pre ++ [setup_logging_cell parsed]) post).
  assert (F : logger_initialized
                (session env (pre ++ [setup_logging_cell parsed]) nb) = true).
  { rewrite session_app. cbn. apply setup_logging_sets_flag. }
  split; [exact F|].
  destruct (session_initialized env post _ F) as (_ & H & L & N). auto.
Qed.


Lemma setup_logging_first env parsed nb :
  logger_initialized nb = false ->
  let r := setup_logging env parsed nb in
  match r with
  | Ok _ nb' =>
      exists args path, parsed = Some args /\
        handlers nb' = handlers nb ++
          [StreamHandler (level args); FileHandler path (file_level args) formatter] /\
        logger_level nb' = Some (Z.min (level args) (file_level args)) /\
        user_ns nb' =
          <[log_name args := PyLogger]> (eval_out env (user_ns nb) (out args)).2
  | Err e nb' =>
      user_ns nb' =
        match parsed with
        | None => user_ns nb
        | Some args => (eval_out env (user_ns nb) (out args)).2
        end /\
      ((parsed = None /\ e = PyUsageError /\ handlers nb' = handlers nb /\
        logger_level nb' = logger_level nb) \/
       (exists args, parsed = Some args /\ (e = PyTypeError \/ e = PyOSError) /\
          handlers nb' = handlers nb ++ [StreamHandler (level args)] /\
          logger_level nb' = Some (Z.min (level args) (file_level args))))
  end.
Proof.
  intros F. unfold setup_logging. rewrite F.
  destruct parsed as [args|]; [|cbn; auto 10].
  cbv zeta. destruct (fspath _ _) as [path|].
  - destruct (opens _ _ _).
    + exists args, path. cbn. rewrite <- app_assoc. auto.
    + cbn. split; [reflexivity|]. right. exists args. auto.
  - cbn. split; [reflexivity|]. right. exists args. auto.
Qed.

(** X11. A first [%setup_logging] that raises cannot be repaired by
    calling the magic again.  If the first call raises (the line does not
    parse, the out file is no path or cannot be opened), the logger is
    left with no file handler, and the magic has bound no name: the
    namespace is as it was, or, when the line parsed, as the evaluation of
    [--out] left it.  For the rest of the session, in any environment and
    with any arguments, every [%setup_logging] returns at once with the
    note that the logger is initialised: the handlers stay as the failed
    call left them and no further name is bound to the logger. *)
Theorem failed_logging_setup_not_retried env parsed e nb nb1 :
  logger_initialized nb = false ->
  setup_logging env parsed nb = Err e nb1 ->
  (handlers nb1 = handlers nb \/
   exists l, handlers nb1 = handlers nb ++ [StreamHandler l]) /\
  user_ns nb1 =
    match parsed with
    | None => user_ns nb
    | Some args => (eval_out env (user_ns nb) (out args)).2
    end /\
  forall env' cs,
    let nb' := session env' cs nb1 in
    handlers nb' = handlers nb1 /\
    (forall n, user_ns nb' !! n = Some PyLogger -> user_ns nb1 !! n = Some PyLogger) /\
    forall parsed',
      setup_logging env' parsed' nb' =
      Ok tt (act (ALog root_logger INFO "Global logger already initialized!") nb').
Proof.
  intros F E.
  pose proof (setup_logging_first env parsed nb F) as S.
  pose proof (setup_logging_sets_flag env parsed nb) as F1.
  cbv zeta in S. rewrite E in S, F1. cbn [state_of] in F1.
  destruct S as (N & S). split.
  - destruct S as [(_ & _ & H & _)|(args & _ & _ & H & _)]; [now left|].
    right. now exists (level args).
  - split; [exact N|]. intros env' cs nb'.
    destruct (session_initialized env' cs nb1 F1) as (F2 & H2 & _ & N2).
    fold nb' in F2, H2, N2. split; [exact H2|]. split; [exact N2|].
    intros parsed'. unfold setup_logging. now rewrite F2.
Qed.

Lemma failed_logging_setup_not_retried_witness :
  let args := {| log_name := "log"; out := "output.log";
                 level := 20; file_level := 10 |} in
  let nb1 := state_of (setup_logging read_only (Some args) fresh_notebook) in
  let nb2 := state_of (setup_logging binding_out (Some args) fresh_notebook) in
  logger_initialized fresh_notebook = false /\
  handlers (session calm [setup_logging_cell (Some args)] nb1) = [StreamHandler 20] /\
  user_ns (session calm [setup_logging_cell (Some args)] nb1) !! "log" = None /\
  user_ns nb2 !! "y" = Some (PyOpaque 5) /\
  user_ns (session calm [setup_logging_cell (Some args)] nb2) !! "log" = None.
Proof.
  intros args nb1 nb2. split; [reflexivity|].
  destruct (setup_logging read_only (Some args) fresh_notebook)
    as [u nb'|e nb'] eqn:E; [vm_compute in E; discriminate|].
  destruct (failed_logging_setup_not_retried read_only (Some args) e
              fresh_notebook nb' eq_refl E) as (_ & _ & H).
  destruct (H calm [setup_logging_cell (Some args)]) as (Hh & _ & _).
  destruct (setup_logging binding_out (Some args) fresh_notebook)
    as [u2 nb2'|e2 nb2'] eqn:E2; [vm_compute in E2; discriminate|].
  destruct (failed_logging_setup_not_retried binding_out (Some args) e2
              fresh_notebook nb2' eq_refl E2) as (_ & U2 & _).
  subst nb1 nb2. cbn [state_of]. split; [|split; [|split]].
  - rewrite Hh. injection E as _ <-. reflexivity.
  - injection E as _ <-. vm_compute. reflexivity.
  - rewrite U2. vm_compute. reflexivity.
  - injection E2 as _ <-. vm_compute. reflexivity.
Defined.

(** X12. The logger never gets a handler twice.  From a notebook whose
    logger is not set up, whatever cells are run, however often and with
    whatever arguments and failures, the logger has no handler, or one
    stream handler, or one stream handler followed by one file handler
    with the module's format; when it has any, its level is the smaller
    of the two levels of the call that added them. *)
Theorem logger_handlers_never_duplicated env cs nb :
  logger_initialized nb = false ->
  handlers nb = [] ->
  let nb' := session env cs nb in
  handlers nb' = [] \/
  exists l fl,
    logger_level nb' = Some (Z.min l fl) /\
    (handlers nb' = [StreamHandler l] \/
     exists path, handlers nb' = [StreamHandler l; FileHandler path fl formatter]).
Proof.
  revert nb. induction cs as [|c cs IH]; intros nb F H; [now left|].
  cbv zeta.
  change (session env (c :: cs) nb)
    with (session env cs (state_of (run_cell env c nb))).
  assert (K : forall nb1,
             logger_initialized nb1 = logger_initialized nb ->
             handlers nb1 = handlers nb ->
             handlers (session env cs nb1) = [] \/
             exists l fl,
               logger_level (session env cs nb1) = Some (Z.min l fl) /\
               (handlers (session env cs nb1) = [StreamHandler l] \/
                exists path, handlers (session env cs nb1) =
                               [StreamHandler l; FileHandler path fl formatter])).
  { intros nb1 F1 H1. apply IH; congruence. }
  destruct c as [p|p|p]; cbn [run_cell].
  - destruct (cuda_context_handler_logger env p nb) as (A & B & _). now apply K.
  - pose proof (setup_logging_first env p nb F) as S.
    pose proof (setup_logging_sets_flag env p nb) as F1.
    destruct (session_initialized env cs _ F1) as (_ & H2 & L2 & _).
    rewrite H2, L2. cbv zeta in S.
    destruct (setup_logging env p nb) as [u nb1|e nb1]; cbn [state_of].
    + destruct S as (args & path & _ & Hh & Hl & _).
      right. exists (level args), (file_level args).
      split; [exact Hl|]. right. exists path. now rewrite Hh, H.
    + destruct S as (_ & [(_ & _ & Hh & _)|(args & _ & _ & Hh & Hl)]).
      * left. congruence.
      * right. exists (level args), (file_level args).
        split; [exact Hl|]. left. now rewrite Hh, H.
  - destruct (setup_mpi_logger env p nb) as (A & B & _). now apply K.
Qed.

Lemma logger_handlers_never_duplicated_witness :
  let args := {| log_name := "log"; out := "output.log";
                 level := 20; file_level := 10 |} in
  let again := {| log_name := "log2"; out := "other.log";
                  level := 10; file_level := 10 |} in
  let nb' := session calm [setup_logging_cell (Some args);
                           setup_logging_cell (Some again);
                           setup_logging_cell (Some args)] fresh_notebook in
  length (handlers nb') = 2%nat /\
  (handlers nb' = [] \/
   exists l fl,
     logger_level nb' = Some (Z.min l fl) /\
     (handlers nb' = [StreamHandler l] \/
      exists path, handlers nb' = [StreamHandler l; FileHandler path fl formatter])).
Proof.
  intros args again nb'. split; [vm_compute; reflexivity|].
  exact (logger_handlers_never_duplicated calm _ fresh_notebook eq_refl eq_refl).
Defined.


(** *** Engines *)

Lemma accounted_step nb nb' l :
  engines_accounted nb ->
  actions nb' = actions nb ++ l ->
  (created nb <= created nb')%nat ->
  (forall id n, In (ANewEngine id n) l ->
     (id < created nb')%nat /\
     exists name, user_ns nb' !! name = Some (PyIPEngine id n)) ->
  (forall name id n, user_ns nb !! name = Some (PyIPEngine id n) ->
     (exists name', user_ns nb' !! name' = Some (PyIPEngine id n)) \/
     In (AShutdown (PyIPEngine id n)) l) ->
  engines_accounted nb'.
Proof.
  intros A E C N B id n I. rewrite E in I. apply in_app_or in I.
  destruct I as [I|I].
  - destruct (A id n I) as (Lt & [(name & Hn)|S]).
    + split; [lia|]. destruct (B name id n Hn) as [?|S]; [now left|].
      right. rewrite E. apply in_or_app. now right.
    + split; [lia|]. right. rewrite E. apply in_or_app. now left.
  - destruct (N id n I) as (Lt & Hn). split; [exact Lt|now left].
Qed.

Lemma accounted_same_names nb nb' l :
  engines_accounted nb ->
  actions nb' = actions nb ++ l ->
  created nb' = created nb ->
  user_ns nb' = user_ns nb ->
  (forall id n, ~ In (ANewEngine id n) l) ->
  engines_accounted nb'.
Proof.
  intros A E C U N. apply (accounted_step nb nb' l A E); [lia| |].
  - intros id n I. now destruct (N id n).
  - intros name id n H. left. exists name. now rewrite U.
Qed.

Ltac extended :=
  cbn [actions act bind_name count_created state_of];
  rewrite <- ?app_assoc; try match goal with E : actions _ = _ |- _ => rewrite E end;
  rewrite <- ?app_assoc; reflexivity.

Ltac no_engine :=
  let I := fresh in
  intros ? ? I; cbn in I;
  repeat (apply in_app_or in I; cbn in I);
  intuition (try discriminate; eauto).

Lemma setup_mpi_accounted env parsed nb :
  engines_accounted nb ->
  engines_accounted (state_of (setup_mpi env parsed nb)).
Proof.
  intros A. unfold setup_mpi. destruct parsed as [args|]; [|exact A].
  destruct (user_ns nb !! mpi_name args) as [obj|] eqn:L.
  - destruct (has_shutdown env obj).
    2:{ eapply (accounted_same_names nb); [exact A|extended|reflexivity..|no_engine]. }
    cbn [actions act]. destruct (shuts_down _ _ _).
    2:{ eapply (accounted_same_names nb); [exact A|extended|reflexivity..|no_engine]. }
    cbn [actions act bind_name]. destruct (engine_starts _ _ _); cbn [state_of].
    + eapply (accounted_step nb); [exact A|extended|cbn; lia| |].
      * intros id n I. cbn in I. destruct I as [I|[I|[I|[I|[]]]]]; try discriminate.
        injection I as <- <-. cbn. split; [lia|].
        exists (mpi_name args). now rewrite lookup_insert_eq.
      * intros name id n H. destruct (decide (name = mpi_name args)) as [->|Ne].
        -- right. rewrite L in H. injection H as ->. cbn. auto.
        -- left. exists name. cbn. now rewrite !lookup_insert_ne by congruence.
    + eapply (accounted_step nb); [exact A|extended|cbn; lia| |].
      * intros id n I. cbn in I. destruct I as [I|[I|[I|[]]]]; discriminate.
      * intros name id n H. destruct (decide (name = mpi_name args)) as [->|Ne].
        -- right. rewrite L in H. injection H as ->. cbn. auto.
        -- left. exists name. cbn. now rewrite lookup_insert_ne by congruence.
  - destruct (engine_starts _ _ _); cbn [state_of]; [|exact A].
    eapply (accounted_step nb); [exact A|extended|cbn; lia| |].
    + intros id n [I|[]]. injection I as <- <-. cbn. split; [lia|].
      exists (mpi_name args). now rewrite lookup_insert_eq.
    + intros name id n H. left. exists name. cbn.
      rewrite lookup_insert_ne; [exact H|]. intros <-. congruence.
Qed.

Lemma cuda_context_handler_accounted env parsed nb :
  engines_accounted nb ->
  engines_accounted (state_of (cuda_context_handler env parsed nb)).
Proof.
  intros A. unfold cuda_context_handler. destruct parsed as [args|]; [|exact A].
  cbv zeta.
  assert (K : forall nb0 l flags,
             actions nb0 = actions nb ++ l ->
             created nb0 = created nb -> user_ns nb0 = user_ns nb ->
             (forall id n, ~ In (ANewEngine id n) l) ->
             engines_accounted
               (state_of
                  match user_ns nb0 !! ctx_name args with
                  | Some _ =>
                      Ok tt (act (ALog module_logger DEBUG
                                    "Context already registered! Ignoring") nb0)
                  | None =>
                      if context_starts env
                           (actions (act (ALog module_logger DEBUG "Creating context") nb0))
                      then
                        Ok tt
                          (act (AAtexitRegister (ctx_name args))
                             (act (ASetCustomExc (ctx_name args))
                                (bind_name (ctx_name args)
                                   (PyCudaContext flags
                                      (if no_cache args then false else true)
                                      (if no_autotuning args then false else true))
                                   (act (ANewContext flags
                                           (if no_cache args then false else true)
                                           (if no_autotuning args then false else true))
                                      (act (ALog module_logger DEBUG "Creating context")
                                         nb0)))))
                      else Err PyCalleeError
                             (act (ALog module_logger DEBUG "Creating context") nb0)
                  end)).
  { intros nb0 l flags E C U N.
    destruct (user_ns nb0 !! ctx_name args) eqn:L.
    - eapply (accounted_same_names nb); [exact A|extended|trivial..|].
      intros id n I. apply in_app_or in I. destruct I as [I|[I|[]]].
      + now apply (N id n).
      + discriminate.
    - destruct (context_starts _ _).
      + eapply (accounted_step nb); [exact A|extended|cbn; lia| |].
        * intros id n I. apply in_app_or in I.
          destruct I as [I|[I|[I|[I|[I|[]]]]]]; try discriminate.
          now destruct (N id n).
        * intros name id n H. left. exists name. cbn.
          rewrite lookup_insert_ne; [now rewrite U|].
          intros <-. rewrite U in L. congruence.
      + eapply (accounted_same_names nb); [exact A|extended|trivial..|].
        intros id n I. apply in_app_or in I. destruct I as [I|[I|[]]].
        * now apply (N id n).
        * discriminate. }
  destruct (blocking args).
  - unfold hip_check. cbn [fst snd]. destruct (set_device_flags _ _).
    + apply (K _ [ALog module_logger INFO "Registering %s in user workspace";
                  ASetDeviceFlags]); try reflexivity.
      * cbn. now rewrite <- app_assoc.
      * intros id n [I|[I|[]]]; discriminate.
    + eapply (accounted_same_names nb); [exact A|extended|reflexivity..|].
      intros id n [I|[I|[]]]; discriminate.
  - apply (K _ [ALog module_logger INFO "Registering %s in user workspace"]);
      try reflexivity.
    intros id n [I|[]]; discriminate.
Qed.

Lemma setup_logging_initialized_accounted env parsed nb :
  logger_initialized nb = true ->
  engines_accounted nb ->
  engines_accounted (state_of (setup_logging env parsed nb)).
Proof.
  intros F A. unfold setup_logging. rewrite F.
  eapply (accounted_same_names nb); [exact A|extended|reflexivity..|].
  intros id n [I|[]]. discriminate.
Qed.

(** X13. The magics lose no engine.  In a session that does not set up
    the logger (it is set up already, or no [%setup_logging] is run),
    whatever the cells and whatever fails in them, every engine that
    [%setup_mpi] has created is still bound to a name or has had
    [shutdown] called on it. *)
Theorem engines_bound_or_shut_down env cs nb :
  logger_initialized nb = true \/ existsb is_logging_cell cs = false ->
  engines_accounted nb ->
  engines_accounted (session env cs nb).
Proof.
  revert nb. induction cs as [|c cs IH]; intros nb H A; [exact A|].
  change (session env (c :: cs) nb)
    with (session env cs (state_of (run_cell env c nb))).
  destruct H as [F|N].
  - apply IH.
    + left. apply (run_cell_initialized env c nb F).
    + destruct c as [p|p|p]; cbn [run_cell].
      * now apply cuda_context_handler_accounted.
      * now apply setup_logging_initialized_accounted.
      * now apply setup_mpi_accounted.
  - cbn [existsb] in N. apply orb_false_iff in N. destruct N as [Nc N].
    apply IH; [now right|].
    destruct c as [p|p|p]; cbn [run_cell]; [|discriminate|].
    + now apply cuda_context_handler_accounted.
    + now apply setup_mpi_accounted.
Qed.

Lemma engines_bound_or_shut_down_witness :
  let cluster n := setup_mpi_cell (Some {| mpi_name := "cluster"; num_engines := n |}) in
  let cs := [cluster 4; cluster 2;
             cuda_context_cell (Some {| ctx_name := "cluster"; blocking := false;
                                        no_cache := false; no_autotuning := false |});
             cluster 8] in
  existsb is_logging_cell cs = false /\
  user_ns (session calm cs fresh_notebook) !! "cluster" = Some (PyIPEngine 2 8) /\
  engines_accounted (session calm cs fresh_notebook).
Proof.
  intros cluster cs. split; [reflexivity|]. split; [vm_compute; reflexivity|].
  apply (engines_bound_or_shut_down calm cs fresh_notebook).
  - right. reflexivity.
  - intros id n [].
Defined.


(** A name bound to an object without a [shutdown] method blocks
    [%setup_mpi] on that name. *)
Lemma setup_mpi_no_shutdown env args obj nb :
  user_ns nb !! mpi_name args = Some obj ->
  has_shutdown env obj = false ->
  setup_mpi env (Some args) nb =
  Err PyAttributeError
    (act (ALog root_logger WARNING "MPI alreay set up, resetting") nb).
Proof.
  intros L H. unfold setup_mpi. now rewrite L, H.
Qed.

Lemma run_cell_keeps_None env c name nb :
  is_logging_cell c = false \/ logger_initialized nb = true ->
  user_ns nb !! name = Some PyNone ->
  user_ns (state_of (run_cell env c nb)) !! name = Some PyNone /\
  logger_initialized (state_of (run_cell env c nb)) = logger_initialized nb.
Proof.
  intros H L. destruct c as [p|p|p]; cbn [run_cell].
  - split; [|apply cuda_context_handler_logger].
    unfold cuda_context_handler. destruct p as [args|]; [|exact L].
    cbv zeta.
    assert (K : forall nb0 flags,
               user_ns nb0 = user_ns nb ->
               user_ns
                 (state_of
                    match user_ns nb0 !! ctx_name args with
                    | Some _ =>
                        Ok tt (act (ALog module_logger DEBUG
                                      "Context already registered! Ignoring") nb0)
                    | None =>
                        if context_starts env
                             (actions (act (ALog module_logger DEBUG "Creating context") nb0))
                        then
                          Ok tt
                            (act (AAtexitRegister (ctx_name args))
                               (act (ASetCustomExc (ctx_name args))
                                  (bind_name (ctx_name args)
                                     (PyCudaContext flags
                                        (if no_cache args then false else true)
                                        (if no_autotuning args then false else true))
                                     (act (ANewContext flags
                                             (if no_cache args then false else true)
                                             (if no_autotuning args then false else true))
                                        (act (ALog module_logger DEBUG "Creating context")
                                           nb0)))))
                        else Err PyCalleeError
                               (act (ALog module_logger DEBUG "Creating context") nb0)
                    end) !! name = Some PyNone).
    { intros nb0 flags U. destruct (user_ns nb0 !! ctx_name args) eqn:L0.
      - cbn. now rewrite U.
      - destruct (context_starts _ _); cbn; [|now rewrite U].
        rewrite lookup_insert_ne; [now rewrite U|].
        intros <-. rewrite U in L0. congruence. }
    destruct (blocking args).
    + unfold hip_check. cbn [fst snd]. destruct (set_device_flags _ _).
      * now apply K.
      * exact L.
    + now apply K.
  - destruct H as [H|F]; [discriminate|].
    unfold setup_logging. rewrite F. now cbn.
  - split; [|apply setup_mpi_logger].
    destruct p as [args|]; [|exact L].
    destruct (decide (mpi_name args = name)) as [<-|Ne].
    + now rewrite (setup_mpi_no_shutdown env args PyNone nb L eq_refl).
    + unfold setup_mpi.
      destruct (user_ns nb !! mpi_name args) as [obj|].
      * destruct (has_shutdown env obj); [|exact L].
        cbn [actions act]. destruct (shuts_down _ _ _); [|exact L].
        cbn [actions act bind_name]. destruct (engine_starts _ _ _); cbn.
        -- now rewrite !lookup_insert_ne by congruence.
        -- now rewrite lookup_insert_ne by congruence.
      * destruct (engine_starts _ _ _); cbn; [|exact L].
        now rewrite lookup_insert_ne by congruence.
Qed.

Lemma session_keeps_None env cs name : forall nb,
  logger_initialized nb = true \/ existsb is_logging_cell cs = false ->
  user_ns nb !! name = Some PyNone ->
  user_ns (session env cs nb) !! name = Some PyNone.
Proof.
  induction cs as [|c cs IH]; intros nb H L; [exact L|].
  change (session env (c :: cs) nb)
    with (session env cs (state_of (run_cell env c nb))).
  destruct H as [F|N].
  - destruct (run_cell_keeps_None env c name nb (or_intror F) L) as (L1 & F1).
    apply IH; [left; congruence|exact L1].
  - cbn [existsb] in N. apply orb_false_iff in N. destruct N as [Nc N].
    destruct (run_cell_keeps_None env c name nb (or_introl Nc) L) as (L1 & _).
    apply IH; [now right|exact L1].
Qed.

(** X14. A restart whose new engine fails to start blocks the name.  If
    [%setup_mpi] raises after it has shut the old object down and
    collected it, the name is left bound to [None]; from then on, through
    any session that does not set up the logger, the name stays bound to
    [None] and every [%setup_mpi] of that name, in any environment and
    for any number of engines, raises [AttributeError] before it creates
    an engine, and leaves the namespace as it is. *)
Theorem setup_mpi_stuck_after_failed_restart env args e nb nb1 :
  setup_mpi env (Some args) nb = Err e nb1 ->
  In AGcCollect (added nb nb1) ->
  user_ns nb1 !! mpi_name args = Some PyNone /\
  forall env' cs,
    logger_initialized nb1 = true \/ existsb is_logging_cell cs = false ->
    let nb' := session env' cs nb1 in
    user_ns nb' !! mpi_name args = Some PyNone /\
    forall n,
      setup_mpi env' (Some {| mpi_name := mpi_name args; num_engines := n |}) nb' =
      Err PyAttributeError
        (act (ALog root_logger WARNING "MPI alreay set up, resetting") nb').
Proof.
  intros E G.
  assert (L : user_ns nb1 !! mpi_name args = Some PyNone).
  { revert E G. unfold setup_mpi.
    destruct (user_ns nb !! mpi_name args) as [obj|].
    - destruct (has_shutdown env obj).
      2:{ intros [= <- <-] G. rewrite (added_app _ _ [_]) in G by reflexivity.
          destruct G as [G|[]]. discriminate. }
      cbn [actions act]. destruct (shuts_down _ _ _).
      2:{ intros [= <- <-] G.
          rewrite (added_app _ _ [_; _]) in G by (cbn; now rewrite <- app_assoc).
          destruct G as [G|[G|[]]]; discriminate. }
      cbn [actions act bind_name]. destruct (engine_starts _ _ _); [discriminate|].
      intros [= <- <-] _. cbn. now rewrite lookup_insert_eq.
    - destruct (engine_starts _ _ _); [discriminate|].
      intros [= <- <-] G. rewrite added_self in G. destruct G. }
  split; [exact L|]. intros env' cs H nb'.
  assert (L' : user_ns nb' !! mpi_name args = Some PyNone)
    by now apply session_keeps_None.
  split; [exact L'|]. intros n.
  exact (setup_mpi_no_shutdown env'
           {| mpi_name := mpi_name args; num_engines := n |} PyNone nb' L' eq_refl).
Qed.

Lemma setup_mpi_stuck_after_failed_restart_witness :
  let cluster n := {| mpi_name := "cluster"; num_engines := n |} in
  let nb := session calm [setup_mpi_cell (Some (cluster 4))] fresh_notebook in
  let nb1 := state_of (setup_mpi no_restart (Some (cluster 8)) nb) in
  In AGcCollect (added nb nb1) /\
  user_ns nb !! "cluster" = Some (PyIPEngine 0 4) /\
  user_ns nb1 !! "cluster" = Some PyNone /\
  exists nb2,
    setup_mpi calm (Some (cluster 2)) (session calm [setup_mpi_cell (Some (cluster 4))] nb1)
    = Err PyAttributeError nb2.
Proof.
  intros cluster nb nb1.
  assert (G : In AGcCollect (added nb nb1)) by (vm_compute; auto).
  split; [exact G|]. split; [vm_compute; reflexivity|].
  destruct (setup_mpi no_restart (Some (cluster 8)) nb) as [u nb'|e nb'] eqn:E;
    [vm_compute in E; discriminate|].
  destruct (setup_mpi_stuck_after_failed_restart no_restart (cluster 8) e nb nb' E G)
    as (L & H).
  split; [exact L|].
  destruct (H calm [setup_mpi_cell (Some (cluster 4))] (or_intror eq_refl)) as (_ & S).
  eexists. exact (S 2).
Defined.

(** *** Contexts *)

Lemma cuda_context_handler_step env parsed nb :
  let nb' := state_of (cuda_context_handler env parsed nb) in
  exists l,
    actions nb' = actions nb ++ l /\
    (forall n obj, user_ns nb !! n = Some obj -> user_ns nb' !! n = Some obj) /\
    (forall n, In (ASetCustomExc n) l \/ In (AAtexitRegister n) l ->
               user_ns nb !! n = None).
Proof.
  unfold cuda_context_handler. destruct parsed as [args|].
  2:{ exists []. cbn. rewrite app_nil_r. intuition. }
  cbv zeta.
  assert (K : forall nb0 l0 flags,
             actions nb0 = actions nb ++ l0 -> user_ns nb0 = user_ns nb ->
             (forall n, ~ In (ASetCustomExc n) l0 /\ ~ In (AAtexitRegister n) l0) ->
             exists l,
               actions
                 (state_of
                    match user_ns nb0 !! ctx_name args with
                    | Some _ =>
                        Ok tt (act (ALog module_logger DEBUG
                                      "Context already registered! Ignoring") nb0)
                    | None =>
                        if context_starts env
                             (actions (act (ALog module_logger DEBUG "Creating context") nb0))
                        then
                          Ok tt
                            (act (AAtexitRegister (ctx_name args))
                               (act (ASetCustomExc (ctx_name args))
                                  (bind_name (ctx_name args)
                                     (PyCudaContext flags
                                        (if no_cache args then false else true)
                                        (if no_autotuning args then false else true))
                                     (act (ANewContext flags
                                             (if no_cache args then false else true)
                                             (if no_autotuning args then false else true))
                                        (act (ALog module_logger DEBUG "Creating context")
                                           nb0)))))
                        else Err PyCalleeError
                               (act (ALog module_logger DEBUG "Creating context") nb0)
                    end) = actions nb ++ l /\
               (forall n obj, user_ns nb !! n = Some obj ->
                  user_ns
                 (state_of
                    match user_ns nb0 !! ctx_name args with
                    | Some _ =>
                        Ok tt (act (ALog module_logger DEBUG
                                      "Context already registered! Ignoring") nb0)
                    | None =>
                        if context_starts env
                             (actions (act (ALog module_logger DEBUG "Creating context") nb0))
                        then
                          Ok tt
                            (act (AAtexitRegister (ctx_name args))
                               (act (ASetCustomExc (ctx_name args))
                                  (bind_name (ctx_name args)
                                     (PyCudaContext flags
                                        (if no_cache args then false else true)
                                        (if no_autotuning args then false else true))
                                     (act (ANewContext flags
                                             (if no_cache args then false else true)
                                             (if no_autotuning args then false else true))
                                        (act (ALog module_logger DEBUG "Creating context")
                                           nb0)))))
                        else Err PyCalleeError
                               (act (ALog module_logger DEBUG "Creating context") nb0)
                    end) !! n = Some obj) /\
               (forall n, In (ASetCustomExc n) l \/ In (AAtexitRegister n) l ->
                          user_ns nb !! n = None)).
  { intros nb0 l0 flags E U N.
    destruct (user_ns nb0 !! ctx_name args) eqn:L.
    - eexists. split; [extended|]. split.
      + intros n obj H. cbn. now rewrite U.
      + intros n [I|I]; apply in_app_or in I;
          destruct I as [I|[I|[]]]; try discriminate; now destruct (N n).
    - destruct (context_starts _ _).
      + eexists. split; [extended|]. split.
        * intros n obj H. cbn. rewrite lookup_insert_ne; [now rewrite U|].
          intros <-. rewrite U in L. congruence.
        * intros n [I|I]; apply in_app_or in I;
            destruct I as [I|[I|[I|[I|[I|[]]]]]]; try discriminate;
            try (now destruct (N n)); injection I as <-; now rewrite <- U.
      + eexists. split; [extended|]. split.
        * intros n obj H. cbn. now rewrite U.
        * intros n [I|I]; apply in_app_or in I;
            destruct I as [I|[I|[]]]; try discriminate; now destruct (N n). }
  destruct (blocking args).
  - unfold hip_check. cbn [fst snd]. destruct (set_device_flags _ _).
    + apply (K _ [ALog module_logger INFO "Registering %s in user workspace";
                  ASetDeviceFlags]); try reflexivity.
      * cbn. now rewrite <- app_assoc.
      * intros n. split; intros [I|[I|[]]]; discriminate.
    + eexists. split; [extended|]. split; [now cbn|].
      intros n [[I|[I|[]]]|[I|[I|[]]]]; discriminate.
  - apply (K _ [ALog module_logger INFO "Registering %s in user workspace"]);
      try reflexivity.
    intros n. split; intros [I|[]]; discriminate.
Qed.

Lemma context_session_step env cs : forall nb,
  forallb is_context_cell cs = true ->
  exists l,
    actions (session env cs nb) = actions nb ++ l /\
    (forall n obj, user_ns nb !! n = Some obj ->
                   user_ns (session env cs nb) !! n = Some obj) /\
    (forall n, In (ASetCustomExc n) l \/ In (AAtexitRegister n) l ->
               user_ns nb !! n = None).
Proof.
  induction cs as [|c cs IH]; intros nb C.
  - exists []. cbn. rewrite app_nil_r. intuition.
  - cbn [forallb] in C. apply andb_true_iff in C. destruct C as [Cc C].
    change (session env (c :: cs) nb)
      with (session env cs (state_of (run_cell env c nb))).
    destruct c as [p|p|p]; try discriminate. cbn [run_cell].
    destruct (cuda_context_handler_step env p nb) as (l1 & E1 & P1 & R1).
    destruct (IH (state_of (cuda_context_handler env p nb)) C) as (l2 & E2 & P2 & R2).
    exists (l1 ++ l2). split; [now rewrite E2, E1, app_assoc|]. split.
    + intros n obj H. apply P2, P1, H.
    + intros n I.
      assert (I' : (In (ASetCustomExc n) l1 \/ In (AAtexitRegister n) l1) \/
                   (In (ASetCustomExc n) l2 \/ In (AAtexitRegister n) l2)).
      { destruct I as [I|I]; apply in_app_or in I; tauto. }
      destruct I' as [I'|I']; [now apply R1|].
      destruct (user_ns nb !! n) as [obj|] eqn:L; [|reflexivity].
      apply P1 in L. rewrite (R2 n I') in L. discriminate.
Qed.

(** X15. A registered name is never given a second context.  Through any
    run of [%cuda_context_handler] cells, whatever their options, a name
    that is bound (to a context or to anything else) keeps its object, and
    neither the exception handler nor the exit handler is registered for
    it again.  The options of the later calls are dropped without an
    error, except [--blocking]: a call with that option still sets the
    device flags before it finds the name bound. *)
Theorem registered_context_never_replaced env cs nb name obj :
  forallb is_context_cell cs = true ->
  user_ns nb !! name = Some obj ->
  let nb' := session env cs nb in
  user_ns nb' !! name = Some obj /\
  ~ In (ASetCustomExc name) (added nb nb') /\
  ~ In (AAtexitRegister name) (added nb nb') /\
  forall args, ctx_name args = name -> blocking args = true ->
    In ASetDeviceFlags
       (added nb (state_of (cuda_context_handler env (Some args) nb))).
Proof.
  intros C L nb'.
  destruct (context_session_step env cs nb C) as (l & E & P & R).
  fold nb' in E, P. rewrite (added_app nb nb' l E).
  split; [now apply P|]. split.
  { intros I. rewrite (R name) in L; [discriminate|now left]. }
  split.
  { intros I. rewrite (R name) in L; [discriminate|now right]. }
  intros args <- B. unfold cuda_context_handler. rewrite B.
  unfold hip_check. cbn [fst snd actions act].
  destruct (set_device_flags _ _).
  - cbn [user_ns act]. rewrite L. cbn [state_of].
    erewrite added_app by extended. cbn. auto.
  - cbn [state_of]. erewrite added_app by extended. cbn. auto.
Qed.

Lemma registered_context_never_replaced_witness :
  let plain := {| ctx_name := "ctx"; blocking := false;
                  no_cache := false; no_autotuning := false |} in
  let other := {| ctx_name := "ctx"; blocking := true;
                  no_cache := true; no_autotuning := true |} in
  let nb := session calm [cuda_context_cell (Some plain)] fresh_notebook in
  let nb' := session calm [cuda_context_cell (Some other)] nb in
  user_ns nb !! "ctx" = Some (PyCudaContext flags_None true true) /\
  user_ns nb' !! "ctx" = Some (PyCudaContext flags_None true true) /\
  In ASetDeviceFlags (added nb nb').
Proof.
  intros plain other nb nb'.
  assert (L : user_ns nb !! "ctx" = Some (PyCudaContext flags_None true true))
    by (vm_compute; reflexivity).
  split; [exact L|].
  destruct (registered_context_never_replaced calm
              [cuda_context_cell (Some other)] nb "ctx" _ eq_refl L)
    as (K & _ & _ & F).
  split; [exact K|]. exact (F other eq_refl eq_refl).
Defined.

(** *** The loop over the context stack *)

Lemma pop_contexts_runs env popping fuel : forall nb,
  let r := pop_contexts env popping fuel nb in
  (forall nb', r <> Ok true nb') /\
  (exists l, actions (state_of r) = actions nb ++ l /\
     Forall (fun a => a = ACtxGetCurrent \/ a = ACtxPopCurrent \/
                      a = ALog module_logger INFO popping) l) /\
  (forall e nb', r = Err e nb' ->
     e = PyAttributeError \/
     exists st, st <> hipSuccess /\ e = PyRuntimeError (of_hip st)).
Proof.
  induction fuel as [|fuel IH]; intros nb.
  - cbn. split; [discriminate|]. split; [|discriminate].
    exists []. now rewrite app_nil_r.
  - cbn [pop_contexts]. unfold not_None, hip_check. cbn [fst snd actions act].
    destruct (ctx_get_current env ((actions nb ++ [ACtxGetCurrent]))) as [st c].
    cbn [fst snd]. destruct st.
    + destruct (handle_of env c).
      * match goal with
        | |- context [pop_contexts env popping fuel ?n] =>
            destruct (IH n) as (N & (l & E & F) & R)
        end.
        cbv zeta. split; [exact N|]. split; [|exact R].
        eexists. split.
        { rewrite E. cbn [actions act]. rewrite <- !app_assoc. reflexivity. }
        cbn. repeat (constructor; [auto|]). exact F.
      * cbv zeta. split; [discriminate|]. split.
        -- eexists. split; [extended|]. repeat constructor; auto.
        -- intros e nb' [= <- _]. now left.
    + cbv zeta. split; [discriminate|]. split.
      * eexists. split; [extended|]. repeat constructor; auto.
      * intros e nb' [= <- _]. right. eexists. split; [|reflexivity]. discriminate.
Qed.

Lemma custom_exc_runs env name fuel nb :
  let r := custom_exc env name fuel nb in
  (forall nb', r <> Ok true nb') /\
  existsb shows_or_pushes (added nb (state_of r)) = false /\
  forall e nb', r = Err e nb' ->
    e = PyAttributeError \/
    exists st, st <> hipSuccess /\ e = PyRuntimeError (of_hip st).
Proof.
  cbv zeta. unfold custom_exc.
  set (nb0 := act _ nb).
  destruct (pop_contexts_runs env "Popping <%s>" fuel nb0) as (N & (l & E & F) & R).
  destruct (pop_contexts env "Popping <%s>" fuel nb0) as [[|] n1|e1 n1];
    [now destruct (N n1)| |].
  - split; [discriminate|]. split; [|discriminate].
    cbn [state_of] in *. subst nb0. cbn [actions act] in E.
    rewrite <- app_assoc in E. rewrite (added_app _ _ _ E).
    cbn [app existsb shows_or_pushes orb].
    apply not_true_is_false. intros X. apply existsb_exists in X.
    destruct X as (a & I & X). rewrite List.Forall_forall in F.
    destruct (F a I) as [-> | [-> | ->]]; discriminate.
  - split; [discriminate|]. split; [|intros e nb' [= <- _]; eauto].
    cbn [state_of] in *. subst nb0. cbn [actions act] in E.
    rewrite <- app_assoc in E. rewrite (added_app _ _ _ E).
    cbn [app existsb shows_or_pushes orb].
    apply not_true_is_false. intros X. apply existsb_exists in X.
    destruct X as (a & I & X). rewrite List.Forall_forall in F.
    destruct (F a I) as [-> | [-> | ->]]; discriminate.
Qed.

Lemma exitfunc_runs env fuel nb :
  let r := exitfunc env fuel nb in
  (forall nb', r <> Ok true nb') /\
  ~ In (ALog module_logger DEBUG separator) (added nb (state_of r)) /\
  forall e nb', r = Err e nb' ->
    e = PyAttributeError \/
    exists st, st <> hipSuccess /\ e = PyRuntimeError (of_hip st).
Proof.
  cbv zeta. unfold exitfunc.
  set (nb0 := act _ nb).
  destruct (pop_contexts_runs env "`-> Popping <%s>" fuel nb0) as (N & (l & E & F) & R).
  destruct (pop_contexts env "`-> Popping <%s>" fuel nb0) as [[|] n1|e1 n1];
    [now destruct (N n1)| |].
  - split; [discriminate|]. split; [|discriminate].
    cbn [state_of] in *. subst nb0. cbn [actions act] in E.
    rewrite <- app_assoc in E. rewrite (added_app _ _ _ E).
    intros [I|I]; [discriminate|]. rewrite List.Forall_forall in F.
    destruct (F _ I) as [X|[X|X]]; discriminate.
  - split; [discriminate|]. split; [|intros e nb' [= <- _]; eauto].
    cbn [state_of] in *. subst nb0. cbn [actions act] in E.
    rewrite <- app_assoc in E. rewrite (added_app _ _ _ E).
    intros [I|I]; [discriminate|]. rewrite List.Forall_forall in F.
    destruct (F _ I) as [X|[X|X]]; discriminate.
Qed.

(** X16. The loop that empties the context stack never ends normally.
    [hip.hipCtxGetCurrent()] gives a tuple, which is never [None]: for
    every number of iterations, [custom_exc] and [exitfunc] are still in
    the loop or have raised (a HIP status that is not success, or a
    context without [handle]).  So the exception handler never pushes the
    registered context back and never shows the traceback of the error it
    was called for, and the exit handler never logs its closing line. *)
Theorem context_stack_loop_never_completes env name fuel nb :
  let r1 := custom_exc env name fuel nb in
  let r2 := exitfunc env fuel nb in
  (forall nb', r1 <> Ok true nb') /\
  (forall nb', r2 <> Ok true nb') /\
  existsb shows_or_pushes (added nb (state_of r1)) = false /\
  ~ In (ALog module_logger DEBUG separator) (added nb (state_of r2)) /\
  forall e nb', r1 = Err e nb' \/ r2 = Err e nb' ->
    e = PyAttributeError \/
    exists st, st <> hipSuccess /\ e = PyRuntimeError (of_hip st).
Proof.
  destruct (custom_exc_runs env name fuel nb) as (N1 & S1 & R1).
  destruct (exitfunc_runs env fuel nb) as (N2 & S2 & R2).
  cbv zeta. repeat split; trivial.
  intros e nb' [X|X]; eauto.
Qed.

End notebook.
